(** * Inmapper Auth SDK: session manager and OTP entry, verified

    A shallow embedding of [InmapperAuth] (the ES-module SDK with resource
    checks) and of the [VerifyOTP] page, with the parts of the login
    application they meet: the shell that captures the callback address,
    the API client, and the success page.

    Conventions of the embedding.
    - A JavaScript string is a [string] of bytes (its UTF-8 encoding).
      Percent-decoding gives the bytes as they are written: where they
      are not the UTF-8 of a string, the U+FFFD that the platform's
      decoder would put in their place is not represented.
    - [null] and [undefined] are the constructors [JNull] and [JUndefined]
      of [jsval]; a value that is a string or [null] is an [option string].
    - The browser (localStorage, location, history, console, fetch) is an
      explicit [world]; every effect the code performs on it is appended
      to [trace] in program order.
    - An [async] method is run to completion: the model has no
      interleaving between an [await] and its continuation.
    - The configuration hooks are caller code; a configured hook is
      recorded in the trace with its argument and returns normally.
    - A plain object of strings, such as the [headers] of a fetch, is
      the list of its properties in their own order.
    - [history.replaceState] is taken to accept the address it is given.
      An address that begins with [//] is read by the browser as naming
      an authority, and refused with a SecurityError when that is
      another origin; this is not represented, and [network_path] marks
      such addresses where a statement is about the rewritten address
      or about init completing. *)

From Stdlib Require Import String Ascii List Bool Arith Lia DecimalString.
From stdpp Require Import base option list strings gmap.

Set Warnings "-register-all".
Local Open Scope string_scope.

(** ** JavaScript values *)

Inductive error : Type :=
| TypeError          (* property read on null / undefined *)
| SyntaxError        (* JSON.parse *)
| DOMException       (* localStorage unavailable, quota exceeded *)
| NetworkError       (* fetch rejected *)
| BodyError.         (* response.json() rejected *)

(** JSON data as [JSON.parse] and [response.json()] build it, plus
    [undefined]. Numbers are kept as integers: the code never computes
    with a number, it only tests truthiness. *)
Inductive jsval : Type :=
| JUndefined
| JNull
| JBool (b : bool)
| JNum (n : Z)
| JStr (s : string)
| JArr (l : list jsval)
| JObj (fields : list (string * jsval)).

Definition str_truthy (s : string) : bool :=
  match s with "" => false | _ => true end.

(** Truthiness of a string-or-null. *)
Definition opt_truthy (o : option string) : bool :=
  match o with Some s => str_truthy s | None => false end.

(** ToBoolean. *)
Definition truthy (v : jsval) : bool :=
  match v with
  | JUndefined | JNull => false
  | JBool b => b
  | JNum n => negb (Z.eqb n 0)
  | JStr s => str_truthy s
  | JArr _ | JObj _ => true
  end.

Fixpoint assoc (k : string) (fields : list (string * jsval)) : jsval :=
  match fields with
  | [] => JUndefined
  | (k', v) :: rest => if String.eqb k k' then v else assoc k rest
  end.

(** [v.k] for the three property names the code reads ([valid], [user],
    [hasResourceAccess]); none of them is a built-in property of a
    string, a number, a boolean or an array. *)
Definition get_prop (v : jsval) (k : string) : error + jsval :=
  match v with
  | JUndefined | JNull => inl TypeError
  | JObj fields => inr (assoc k fields)
  | _ => inr JUndefined
  end.

(** [v?.k] *)
Definition get_prop_opt (v : jsval) (k : string) : jsval :=
  match get_prop v k with inl _ => JUndefined | inr x => x end.

(** [a || b] *)
Definition js_or (a b : jsval) : jsval := if truthy a then a else b.

Definition opt_or (a b : option string) : option string :=
  if opt_truthy a then a else b.

(** Template-literal rendering of a string-or-null. *)
Definition render (o : option string) : string :=
  match o with Some s => s | None => "null" end.

(** ** The browser *)

(** localStorage: its entries, and which operations raise. *)
Record Storage : Type := mkStorage {
  items : gmap string string;
  getItem_throws : string -> bool;
  setItem_throws : string -> string -> bool;
  removeItem_throws : string -> bool
}.

(** window.location, as origin and the rest of the address
    (path, query and fragment). *)
Record Location : Type := mkLocation {
  origin : string;
  address : string
}.

(** The options object of a fetch; [headers] is a plain object of
    strings, given by its properties in their own order, [None] where
    the property is absent. *)
Record RequestInit : Type := mkInit {
  method : option string;
  headers : option (list (string * string));
  body : option string
}.

(** [obj[k] = v] on a plain object: an existing property keeps its
    place, a new one comes last. *)
Fixpoint object_set (k v : string) (obj : list (string * string))
  : list (string * string) :=
  match obj with
  | [] => [(k, v)]
  | (k', v') :: rest =>
      if String.eqb k k' then (k, v) :: rest
      else (k', v') :: object_set k v rest
  end.

(** [obj[k]] *)
Fixpoint object_get (k : string) (obj : list (string * string))
  : option string :=
  match obj with
  | [] => None
  | (k', v) :: rest => if String.eqb k k' then Some v else object_get k rest
  end.

Inductive hook : Type :=
| onAuthRequired | onAuthSuccess | onAuthError | onAccessDenied.

Inductive hook_arg : Type :=
| NoArg
| ValArg (v : jsval)
| ErrArg (e : error).

Inductive event : Type :=
| EFetch (url : string) (init : RequestInit)
| EConsoleError (msg : string) (e : error)
| EHook (h : hook) (arg : hook_arg)
| ENavigate (url : string)
| EReplaceState (url : string)
| EDenialView (user : jsval).

(** What a fetch gives back: [None] rejects; [Some r] resolves to a
    response whose [json()] resolves to [Some data] or rejects. *)
Record Response : Type := mkResponse { json : option jsval }.

(** ** The InmapperAuth instance and its world *)

Record Config : Type := mkConfig {
  apiUrl : string;
  loginUrl : string;
  tokenKey : string;
  userKey : string;
  autoRedirect : bool;
  resourceId : option string;
  hooks : hook -> bool
}.

Definition DEFAULT_CONFIG : Config := {|
  apiUrl := "https://inmapper-otp-api.isohtel.com.tr/api";
  loginUrl := "https://inmapper-otp.netlify.app/login";
  tokenKey := "inmapper_auth_token";
  userKey := "inmapper_auth_user";
  autoRedirect := true;
  resourceId := None;
  hooks := fun _ => false
|}.

Record world : Type := mkWorld {
  config : Config;
  _user : jsval;
  _token : option string;
  _initialized : bool;
  localStorage : Storage;
  location : Location;
  trace : list event
}.

Definition set_user (u : jsval) (w : world) : world :=
  mkWorld (config w) u (_token w) (_initialized w)
          (localStorage w) (location w) (trace w).
Definition set_token (t : option string) (w : world) : world :=
  mkWorld (config w) (_user w) t (_initialized w)
          (localStorage w) (location w) (trace w).
Definition set_initialized (b : bool) (w : world) : world :=
  mkWorld (config w) (_user w) (_token w) b
          (localStorage w) (location w) (trace w).
Definition set_items (m : gmap string string) (w : world) : world :=
  mkWorld (config w) (_user w) (_token w) (_initialized w)
          (mkStorage m (getItem_throws (localStorage w))
                       (setItem_throws (localStorage w))
                       (removeItem_throws (localStorage w)))
          (location w) (trace w).
Definition set_address (a : string) (w : world) : world :=
  mkWorld (config w) (_user w) (_token w) (_initialized w)
          (localStorage w) (mkLocation (origin (location w)) a) (trace w).
Definition emit (e : event) (w : world) : world :=
  mkWorld (config w) (_user w) (_token w) (_initialized w)
          (localStorage w) (location w) (trace w ++ [e]).

(** constructor(config) *)
Definition new_InmapperAuth (c : Config) (st : Storage) (loc : Location)
  : world := mkWorld c JNull None false st loc [].

(** ** Computations that may throw *)

Inductive completion (A : Type) : Type :=
| Normal (a : A)
| Throw (e : error).
Arguments Normal {A} a.
Arguments Throw {A} e.

Definition js (A : Type) : Type := world -> completion A * world.

Definition ret {A} (a : A) : js A := fun w => (Normal a, w).
Definition throw {A} (e : error) : js A := fun w => (Throw e, w).
Definition bind {A B} (m : js A) (k : A -> js B) : js B :=
  fun w => match m w with
           | (Normal a, w') => k a w'
           | (Throw e, w') => (Throw e, w')
           end.
Definition try_catch {A} (m : js A) (handler : error -> js A) : js A :=
  fun w => match m w with
           | (Normal a, w') => (Normal a, w')
           | (Throw e, w') => handler e w'
           end.
Definition gets {A} (f : world -> A) : js A := fun w => (Normal (f w), w).
Definition modify (f : world -> world) : js unit := fun w => (Normal tt, f w).
Definition when (b : bool) (m : js unit) : js unit := if b then m else ret tt.

Declare Scope js_scope.
Delimit Scope js_scope with js.
Notation "x <- m ;; k" := (bind m (fun x => k))
  (at level 100, m at next level, right associativity) : js_scope.
Notation "m ;; k" := (bind m (fun _ => k))
  (at level 100, right associativity) : js_scope.
Local Open Scope js_scope.

Definition result {A} (r : completion A * world) : completion A := fst r.
Definition after {A} (r : completion A * world) : world := snd r.

(** ** Strings and URLs *)

Definition is_char (c : ascii) : ascii -> bool := fun a => Ascii.eqb a c.
Definition is_query_or_hash (a : ascii) : bool :=
  Ascii.eqb a "?" || Ascii.eqb a "#".

(** The longest prefix without a character satisfying [p], and what
    follows it. *)
Fixpoint take_until (p : ascii -> bool) (s : string) : string :=
  match s with
  | "" => ""
  | String a r => if p a then "" else String a (take_until p r)
  end.

Fixpoint drop_until (p : ascii -> bool) (s : string) : string :=
  match s with
  | "" => ""
  | String a r => if p a then s else drop_until p r
  end.

Definition tail (s : string) : string :=
  match s with "" => "" | String _ r => r end.

Fixpoint strip_prefix (p s : string) : option string :=
  match p, s with
  | "", _ => Some s
  | String a p', String b s' =>
      if Ascii.eqb a b then strip_prefix p' s' else None
  | String _ _, "" => None
  end.

(** [s.includes(c)] for a one-character needle. *)
Fixpoint includes (c : ascii) (s : string) : bool :=
  match s with
  | "" => false
  | String a r => Ascii.eqb a c || includes c r
  end.

(** [s.split(c)] for a one-character separator. *)
Fixpoint split_on (c : ascii) (s : string) : list string :=
  match s with
  | "" => [""]
  | String a r =>
      if Ascii.eqb a c then "" :: split_on c r
      else match split_on c r with
           | h :: t => String a h :: t
           | [] => [String a ""]
           end
  end.

(** window.location.pathname / .search / .href *)
Definition location_pathname (l : Location) : string :=
  take_until is_query_or_hash (address l).

Definition location_search (l : Location) : string :=
  let q := take_until (is_char "#") (drop_until is_query_or_hash (address l)) in
  if String.eqb q "?" then "" else q.

Definition location_href (l : Location) : string :=
  origin l ++ address l.

Definition hex_digit (c : ascii) : option N :=
  let n := N_of_ascii c in
  if (48 <=? n)%N && (n <=? 57)%N then Some (n - 48)%N
  else if (65 <=? n)%N && (n <=? 70)%N then Some (n - 55)%N
  else if (97 <=? n)%N && (n <=? 102)%N then Some (n - 87)%N
  else None.

(** Percent-decoding of the URL standard: [%XY] with two hexadecimal
    digits is one byte, anything else is kept. *)
Fixpoint percent_decode (s : string) : string :=
  match s with
  | "" => ""
  | String c r =>
      if Ascii.eqb c "%" then
        match r with
        | String h (String l r') =>
            match hex_digit h, hex_digit l with
            | Some a, Some b =>
                String (ascii_of_N (16 * a + b)) (percent_decode r')
            | _, _ => String c (percent_decode r)
            end
        | _ => String c (percent_decode r)
        end
      else String c (percent_decode r)
  end.

Fixpoint plus_to_space (s : string) : string :=
  match s with
  | "" => ""
  | String c r =>
      String (if Ascii.eqb c "+" then " "%char else c) (plus_to_space r)
  end.

(** The application/x-www-form-urlencoded parser: the name-value pairs
    of a query string, in order. *)
Definition urlencoded_pair (seq : string) : string * string :=
  (percent_decode (plus_to_space (take_until (is_char "=") seq)),
   percent_decode (plus_to_space (tail (drop_until (is_char "=") seq)))).

Definition urlencoded_parse (input : string) : list (string * string) :=
  map urlencoded_pair (List.filter str_truthy (split_on "&" input)).

(** new URLSearchParams(init): one leading [?] is dropped. *)
Definition URLSearchParams (init : string) : list (string * string) :=
  urlencoded_parse (match init with
                    | String "?" r => r
                    | _ => init
                    end).

(** urlParams.get(name): the first value under [name], or null. *)
Fixpoint params_get (name : string) (ps : list (string * string))
  : option string :=
  match ps with
  | [] => None
  | (n, v) :: rest => if String.eqb n name then Some v else params_get name rest
  end.

(** The first match of /[?&]token=[^&]+/ taken at the head of [s]:
    what follows the match. *)
Definition token_match_here (s : string) : option string :=
  match s with
  | String c r =>
      if Ascii.eqb c "?" || Ascii.eqb c "&" then
        match strip_prefix "token=" r with
        | Some (String d r') =>
            if Ascii.eqb d "&" then None
            else Some (drop_until (is_char "&") r')
        | _ => None
        end
      else None
  | "" => None
  end.

(** s.replace(/[?&]token=[^&]+/, '') : the leftmost match is removed. *)
Fixpoint remove_token_param (s : string) : string :=
  match token_match_here s with
  | Some rest => rest
  | None => match s with
            | "" => ""
            | String c r => String c (remove_token_param r)
            end
  end.

(** s.replace(/^&/, '?') *)
Definition leading_amp_to_query (s : string) : string :=
  match s with
  | String "&" r => String "?" r
  | _ => s
  end.

Definition unreserved (c : ascii) : bool :=
  let n := N_of_ascii c in
  ((48 <=? n)%N && (n <=? 57)%N) || ((65 <=? n)%N && (n <=? 90)%N)
  || ((97 <=? n)%N && (n <=? 122)%N)
  || existsb (Ascii.eqb c) ["-"; "_"; "."; "!"; "~"; "*"; "'"; "("; ")"]%char.

Definition hex_char (n : N) : ascii :=
  ascii_of_N (if (n <? 10)%N then 48 + n else 55 + n)%N.

(** encodeURIComponent on the UTF-8 bytes of a well-formed string. *)
Fixpoint encodeURIComponent (s : string) : string :=
  match s with
  | "" => ""
  | String c r =>
      if unreserved c then String c (encodeURIComponent r)
      else String "%" (String (hex_char (N_of_ascii c / 16))
                      (String (hex_char (N_of_ascii c mod 16))
                              (encodeURIComponent r)))
  end.

(** ** The SDK *)

Section InmapperAuth.

(** The platform's JSON codec ([None]: SyntaxError) and the network:
    [transport tr] is the outcome of the fetch that has just been
    appended to the trace [tr]. *)
Variable JSON_stringify : jsval -> string.
Variable JSON_parse : string -> option jsval.
Variable transport : list event -> option Response.

Definition console_error (msg : string) (e : error) : js unit :=
  modify (emit (EConsoleError msg e)).

Definition localStorage_getItem (k : string) : js (option string) :=
  fun w => if getItem_throws (localStorage w) k then (Throw DOMException, w)
           else (Normal (items (localStorage w) !! k), w).

Definition localStorage_setItem (k v : string) : js unit :=
  fun w => if setItem_throws (localStorage w) k v then (Throw DOMException, w)
           else (Normal tt, set_items (<[k := v]> (items (localStorage w))) w).

Definition localStorage_removeItem (k : string) : js unit :=
  fun w => if removeItem_throws (localStorage w) k then (Throw DOMException, w)
           else (Normal tt, set_items (delete k (items (localStorage w))) w).

Definition window_fetch (url : string) (init : RequestInit) : js Response :=
  fun w => let w' := emit (EFetch url init) w in
           match transport (trace w') with
           | Some r => (Normal r, w')
           | None => (Throw NetworkError, w')
           end.

Definition response_json (r : Response) : js jsval :=
  match json r with
  | Some data => ret data
  | None => throw BodyError
  end.

Definition JSON_parse_js (s : string) : js jsval :=
  match JSON_parse s with
  | Some v => ret v
  | None => throw SyntaxError
  end.

Definition prop (v : jsval) (k : string) : js jsval :=
  match get_prop v k with
  | inr x => ret x
  | inl e => throw e
  end.

(** history.replaceState({}, title, url) for a [url] that is a path of
    the page's own origin. *)
Definition history_replaceState (url : string) : js unit :=
  modify (fun w => emit (EReplaceState url) (set_address url w)).

Definition call_hook (h : hook) (arg : hook_arg) : js unit :=
  modify (emit (EHook h arg)).

Definition json_headers : option (list (string * string)) :=
  Some [("Content-Type", "application/json")].

Definition token_val (t : option string) : jsval :=
  match t with Some s => JStr s | None => JNull end.

Definition _saveToStorage : js unit :=
  try_catch
    (c <- gets config ;;
     t <- gets _token ;;
     match t with
     | Some s => when (str_truthy s) (localStorage_setItem (tokenKey c) s)
     | None => ret tt
     end ;;
     u <- gets _user ;;
     when (truthy u) (localStorage_setItem (userKey c) (JSON_stringify u)))
    (fun e => console_error "[InmapperAuth] Storage error:" e).

Definition _loadFromStorage : js unit :=
  try_catch
    (c <- gets config ;;
     t <- localStorage_getItem (tokenKey c) ;;
     modify (set_token t) ;;
     userJson <- localStorage_getItem (userKey c) ;;
     u <- match userJson with
          | Some s => if str_truthy s then JSON_parse_js s else ret JNull
          | None => ret JNull
          end ;;
     modify (set_user u))
    (fun e => console_error "[InmapperAuth] Storage error:" e).

Definition _clearAuth : js unit :=
  modify (set_token None) ;;
  modify (set_user JNull) ;;
  try_catch
    (c <- gets config ;;
     localStorage_removeItem (tokenKey c) ;;
     localStorage_removeItem (userKey c))
    (fun e => console_error "[InmapperAuth] Storage error:" e).

Definition _handleCallbackToken : js unit :=
  loc <- gets location ;;
  let urlParams := URLSearchParams (location_search loc) in
  let tokenFromUrl := params_get "token" urlParams in
  if opt_truthy tokenFromUrl then
    modify (set_token tokenFromUrl) ;;
    _saveToStorage ;;
    loc <- gets location ;;
    let cleanUrl :=
      location_pathname loc ++
      leading_amp_to_query (remove_token_param (location_search loc)) in
    history_replaceState
      (if str_truthy cleanUrl then cleanUrl else location_pathname loc)
  else ret tt.

Definition init : js unit :=
  i <- gets _initialized ;;
  if i then ret tt
  else
    _handleCallbackToken ;;
    _loadFromStorage ;;
    modify (set_initialized true).

Definition getToken : js (option string) := gets _token.

Definition setToken (token : option string) : js unit :=
  modify (set_token token) ;;
  modify (set_user JNull) ;;
  _saveToStorage.

Definition login (callbackUrl : option string) : js unit :=
  loc <- gets location ;;
  c <- gets config ;;
  let callback := if opt_truthy callbackUrl then render callbackUrl
                  else location_href loc in
  modify (emit (ENavigate
                  (loginUrl c ++ "?callback=" ++ encodeURIComponent callback))).

Definition validate_body (t : option string) (resourceId : option string)
  : jsval :=
  JObj (("token", token_val t) ::
        if opt_truthy resourceId then [("resource", token_val resourceId)]
        else []).

Definition getUser (forceRefresh : bool) (resourceId : option string)
  : js jsval :=
  init ;;
  t <- gets _token ;;
  if negb (opt_truthy t) then ret JNull
  else
    u <- gets _user ;;
    if truthy u && negb forceRefresh && negb (opt_truthy resourceId)
    then ret u
    else
      try_catch
        (c <- gets config ;;
         t <- gets _token ;;
         response <- window_fetch (apiUrl c ++ "/auth/validate")
                       {| method := Some "POST";
                          headers := json_headers;
                          body := Some (JSON_stringify
                                          (validate_body t resourceId)) |} ;;
         data <- response_json response ;;
         valid <- prop data "valid" ;;
         ok <- (if truthy valid then prop data "user" else ret valid) ;;
         if truthy ok then
           user <- prop data "user" ;;
           modify (set_user user) ;;
           _saveToStorage ;;
           c <- gets config ;;
           user <- gets _user ;;
           when (hooks c onAuthSuccess) (call_hook onAuthSuccess (ValArg user)) ;;
           if opt_truthy resourceId then
             user <- gets _user ;;
             access <- prop data "hasResourceAccess" ;;
             ret (JObj [("user", user); ("hasResourceAccess", access)])
           else gets _user
         else
           _clearAuth ;;
           ret JNull)
        (fun e =>
           console_error "[InmapperAuth] Validation error:" e ;;
           c <- gets config ;;
           when (hooks c onAuthError) (call_hook onAuthError (ErrArg e)) ;;
           ret JNull).

Definition isAuthenticated : js bool :=
  init ;;
  user <- getUser false None ;;
  ret (truthy user).

Definition _redirectToLogin : js unit :=
  c <- gets config ;;
  if hooks c onAuthRequired then
    call_hook onAuthRequired NoArg ;;
    if negb (autoRedirect c) then ret tt else login None
  else login None.

Definition _handleAccessDenied (user : jsval) : js unit :=
  c <- gets config ;;
  if hooks c onAccessDenied then call_hook onAccessDenied (ValArg user)
  else modify (emit (EDenialView user)).

(** [v === false] and [v === true] *)
Definition is_false (v : jsval) : bool :=
  match v with JBool false => true | _ => false end.
Definition is_true (v : jsval) : bool :=
  match v with JBool true => true | _ => false end.

(** protect(options), with [options.resourceId] as the argument. *)
Definition protect (options_resourceId : option string) : js jsval :=
  init ;;
  c <- gets config ;;
  result <- getUser false (opt_or options_resourceId (resourceId c)) ;;
  if negb (truthy result) then
    _redirectToLogin ;;
    ret JNull
  else
    access <- prop result "hasResourceAccess" ;;
    if is_false access then
      user <- prop result "user" ;;
      _handleAccessDenied user ;;
      ret JNull
    else
      user <- prop result "user" ;;
      ret (js_or user result).

Definition logout (redirect : bool) : js unit :=
  t <- gets _token ;;
  when (opt_truthy t)
    (try_catch
       (c <- gets config ;;
        t <- gets _token ;;
        window_fetch (apiUrl c ++ "/auth/logout")
          {| method := Some "POST";
             headers := json_headers;
             body := Some (JSON_stringify (JObj [("token", token_val t)])) |} ;;
        ret tt)
       (fun e => console_error "[InmapperAuth] Logout error:" e)) ;;
  _clearAuth ;;
  when redirect (login None).

(** fetch(url, options): the method of the instance. *)
Definition fetch (url : string) (options : RequestInit) : js Response :=
  t <- gets _token ;;
  window_fetch url
    {| method := method options;
       headers := Some (object_set "Authorization" ("Bearer " ++ render t)
                          (default [] (headers options)));
       body := body options |}.

Definition redirectTo (url : string) : js unit :=
  t <- gets _token ;;
  match t with
  | Some s =>
      if str_truthy s then
        let separator := if includes "?" url then "&" else "?" in
        modify (emit (ENavigate
                        (url ++ separator ++ "token=" ++ encodeURIComponent s)))
      else modify (emit (ENavigate url))
  | None => modify (emit (ENavigate url))
  end.

Definition hasPermission (resourceId : option string) : js bool :=
  result <- getUser true resourceId ;;
  ret (is_true (get_prop_opt result "hasResourceAccess")).

End InmapperAuth.

(** ** The OTP entry page *)

Module VerifyOTP.

(** What the page does to its surroundings, in program order. *)
Inductive effect : Type :=
| CallVerifyOTP (email code : string) (callbackUrl : option string)
| Focus (index : nat)
| SetHref (url : string)
| Navigate (route : string) (user : jsval) (token : string).

(** authApi.verifyOTP resolves to [{token, user}] or rejects with an
    object whose [error] may be missing. *)
Inductive verify_response : Type :=
| Resolved (token : string) (user : jsval)
| Rejected (err : option string).

Record AuthState : Type := mkAuthState {
  email : string;
  callbackUrl : option string
}.

(** The component: its React state, the [authState] prop, and the
    browser it acts on. *)
Record page : Type := mkPage {
  otp : list string;
  loading : bool;
  error : string;
  authState : AuthState;
  storage : Storage;
  effects : list effect
}.

Definition initial (a : AuthState) (st : Storage) : page :=
  mkPage ["";"";"";"";"";""] false "" a st [].

Definition setOtp (o : list string) (p : page) : page :=
  mkPage o (loading p) (error p) (authState p) (storage p) (effects p).
Definition setLoading (b : bool) (p : page) : page :=
  mkPage (otp p) b (error p) (authState p) (storage p) (effects p).
Definition setError (e : string) (p : page) : page :=
  mkPage (otp p) (loading p) e (authState p) (storage p) (effects p).
Definition setStorage (m : gmap string string) (p : page) : page :=
  mkPage (otp p) (loading p) (error p) (authState p)
         (mkStorage m (getItem_throws (storage p))
                      (setItem_throws (storage p))
                      (removeItem_throws (storage p)))
         (effects p).
Definition perform (e : effect) (p : page) : page :=
  mkPage (otp p) (loading p) (error p) (authState p) (storage p)
         (effects p ++ [e]).

Definition is_digit (c : ascii) : bool :=
  let n := N_of_ascii c in (48 <=? n)%N && (n <=? 57)%N.

(** /^\d$/.test(value) *)
Definition single_digit (value : string) : bool :=
  match value with
  | String c "" => is_digit c
  | _ => false
  end.

(** text.replace(/\D/g, '') as the list of its characters. *)
Fixpoint digits_of (text : string) : list string :=
  match text with
  | "" => []
  | String c r =>
      if is_digit c then String c "" :: digits_of r else digits_of r
  end.

(** otp.join('') *)
Definition join (l : list string) : string := fold_right String.append "" l.

(** digits.forEach((digit, i) => { if (i < 6) newOtp[i] = digit }),
    from index [i] on. The slots are the six of the initial state, so
    every index written is in range. *)
Fixpoint fill (i : nat) (digits : list string) (newOtp : list string)
  : list string :=
  match digits with
  | [] => newOtp
  | digit :: rest =>
      fill (S i) rest (if (i <? 6)%nat then <[i := digit]> newOtp else newOtp)
  end.

Section Handlers.

Variable JSON_stringify : jsval -> string.
(** authApi.verifyOTP, and [new URL(callbackUrl)] with its [token]
    search parameter set ([None]: not a URL, TypeError). *)
Variable verifyOTP : string -> string -> option string -> verify_response.
Variable callback_with_token : string -> string -> option string.

(** The [try] block of handleVerify after the call resolved: the page
    where the block ended, and whether it ended without throwing. *)
Definition on_verified (token : string) (user : jsval) (p : page)
  : bool * page :=
  let st := storage p in
  if setItem_throws st "auth_token" token then (false, p)
  else
    let p1 := setStorage (<["auth_token" := token]> (items st)) p in
    let st1 := storage p1 in
    if setItem_throws st1 "auth_user" (JSON_stringify user) then (false, p1)
    else
      let p2 := setStorage (<["auth_user" := JSON_stringify user]> (items st1))
                           p1 in
      match callbackUrl (authState p2) with
      | Some cb =>
          if str_truthy cb then
            match callback_with_token cb token with
            | Some url => (true, perform (SetHref url) p2)
            | None => (false, p2)
            end
          else (true, perform (Navigate "/success" user token) p2)
      | None => (true, perform (Navigate "/success" user token) p2)
      end.

(** The [catch] block of handleVerify. *)
Definition on_verify_failed (err : option string) (p : page) : page :=
  let message := if opt_truthy err then render err
                 else "Doğrulama başarısız" in
  perform (Focus 0) (setOtp ["";"";"";"";"";""] (setError message p)).

Definition handleVerify (code : string) (p : page) : page :=
  if negb (String.length code =? 6)%nat then p
  else
    let p := setError "" (setLoading true p) in
    let a := authState p in
    let p := perform (CallVerifyOTP (email a) code (callbackUrl a)) p in
    setLoading false
      match verifyOTP (email a) code (callbackUrl a) with
      | Resolved token user =>
          match on_verified token user p with
          | (true, p') => p'
          | (false, p') => on_verify_failed None p'
          end
      | Rejected err => on_verify_failed err p
      end.

Definition handleChange (index : nat) (value : string) (p : page) : page :=
  if str_truthy value && negb (single_digit value) then p
  else
    let newOtp := <[index := value]> (otp p) in
    let p := setError "" (setOtp newOtp p) in
    let p := if str_truthy value && (index <? 5)%nat
             then perform (Focus (index + 1)) p else p in
    if str_truthy value && (index =? 5)%nat && forallb str_truthy newOtp
    then handleVerify (join newOtp) p
    else p.

Definition handlePaste (text : string) (p : page) : page :=
  let digits := take 6 (digits_of text) in
  let newOtp := fill 0 digits (otp p) in
  let p := setOtp newOtp p in
  if (length digits =? 6)%nat then handleVerify (join newOtp) p else p.

(** The Ctrl+V branch of handleKeyDown, with the clipboard text read. *)
Definition handleKeyDown_paste (text : string) (p : page) : page :=
  let digits := take 6 (digits_of text) in
  let newOtp := fill 0 digits (otp p) in
  let p := setOtp newOtp p in
  if (length digits =? 6)%nat then handleVerify (join newOtp) p else p.

(** The Backspace branch of handleKeyDown. *)
Definition handleKeyDown_backspace (index : nat) (p : page) : page :=
  let filled := match otp p !! index with
                | Some d => str_truthy d
                | None => false
                end in
  if negb filled && (0 <? index)%nat
  then perform (Focus (index - 1)) p else p.

End Handlers.

(** The verification calls among the effects. *)
Definition verify_calls (es : list effect) : list string :=
  omap (fun e => match e with
                 | CallVerifyOTP _ code _ => Some code
                 | _ => None
                 end) es.

End VerifyOTP.

(** ** Vocabulary of the specification *)

Section Vocabulary.

Variable JSON_stringify : jsval -> string.
Variable transport : list event -> option Response.

(** [wp m w Q E]: run from [w], [m] ends normally in a result and world
    satisfying [Q], or throws in one satisfying [E]. *)
Definition wp {A} (m : js A) (w : world)
  (Q : A -> world -> Prop) (E : error -> world -> Prop) : Prop :=
  match m w with
  | (Normal a, w') => Q a w'
  | (Throw e, w') => E e w'
  end.

Definition no_throw : error -> world -> Prop := fun _ _ => False.

(** The configuration and the way localStorage fails. *)
Definition fixed (w w' : world) : Prop :=
  config w' = config w
  /\ getItem_throws (localStorage w') = getItem_throws (localStorage w)
  /\ setItem_throws (localStorage w') = setItem_throws (localStorage w)
  /\ removeItem_throws (localStorage w') = removeItem_throws (localStorage w).

Definition memory (w : world) : option string * jsval * bool :=
  (_token w, _user w, _initialized w).

(** The session: the token and the user, in memory and as stored. *)
Definition session (w : world) : option string * jsval * gmap string string :=
  (_token w, _user w, items (localStorage w)).

Definition is_console (e : event) : bool :=
  match e with EConsoleError _ _ => true | _ => false end.

Definition is_fetch (e : event) : bool :=
  match e with EFetch _ _ => true | _ => false end.

(** The trace grew by events that all satisfy [p]. *)
Definition grew (p : event -> bool) (w w' : world) : Prop :=
  exists l, trace w' = (trace w ++ l)%list /\ forallb p l = true.

Definition is_local (e : event) : bool :=
  match e with
  | EConsoleError _ _ | EReplaceState _ => true
  | _ => false
  end.

Definition not_fetch (e : event) : bool := negb (is_fetch e).

(** Some [?token=] or [&token=] occurs in [s]. *)
Fixpoint has_token_key (s : string) : bool :=
  match s with
  | "" => false
  | String c r =>
      ((Ascii.eqb c "?" || Ascii.eqb c "&")
       && match strip_prefix "token=" r with Some _ => true | None => false end)
      || has_token_key r
  end.

Definition starts_with_amp_or_empty (s : string) : bool :=
  match s with
  | "" => true
  | String c _ => Ascii.eqb c "&"
  end.

(** The stored entries after _saveToStorage: a write that throws ends
    the [try] block. *)
Definition saved_items (w : world) : gmap string string :=
  let st := localStorage w in
  let c := config w in
  let user_written (m : gmap string string) :=
    if truthy (_user w) then
      if setItem_throws st (userKey c) (JSON_stringify (_user w)) then m
      else <[userKey c := JSON_stringify (_user w)]> m
    else m in
  match _token w with
  | Some t =>
      if str_truthy t then
        if setItem_throws st (tokenKey c) t then items st
        else user_written (<[tokenKey c := t]> (items st))
      else user_written (items st)
  | None => user_written (items st)
  end.

(** _saveToStorage: never throws, touches only the stored entries and
    the console. *)
Definition saved (w w' : world) : Prop :=
  fixed w w' /\ memory w' = memory w /\ location w' = location w
  /\ items (localStorage w') = saved_items w
  /\ grew is_console w w'.

(** _loadFromStorage: never throws, reads the store into memory. *)
Definition loaded (w w' : world) : Prop :=
  fixed w w' /\ _initialized w' = _initialized w
  /\ location w' = location w
  /\ items (localStorage w') = items (localStorage w)
  /\ grew is_console w w'.

(** The stored entries after _clearAuth. *)
Definition cleared_items (w : world) : gmap string string :=
  let st := localStorage w in
  let c := config w in
  if removeItem_throws st (tokenKey c) then items st
  else if removeItem_throws st (userKey c) then delete (tokenKey c) (items st)
  else delete (userKey c) (delete (tokenKey c) (items st)).

Definition cleared (w w' : world) : Prop :=
  fixed w w' /\ _token w' = None /\ _user w' = JNull
  /\ _initialized w' = _initialized w
  /\ location w' = location w
  /\ items (localStorage w') = cleared_items w
  /\ grew is_console w w'.

(** The token the callback interceptor finds in the address. *)
Definition tokenFromUrl (w : world) : option string :=
  params_get "token" (URLSearchParams (location_search (location w))).

(** The address the interceptor hands to history.replaceState. *)
Definition cleanUrl (w : world) : string :=
  let clean :=
    location_pathname (location w) ++
    leading_amp_to_query (remove_token_param (location_search (location w))) in
  if str_truthy clean then clean else location_pathname (location w).

(** _handleCallbackToken when the address carries a token. *)
Definition adopted (w w' : world) : Prop :=
  fixed w w'
  /\ _token w' = tokenFromUrl w
  /\ _user w' = _user w
  /\ _initialized w' = _initialized w
  /\ items (localStorage w') = saved_items (set_token (tokenFromUrl w) w)
  /\ location w' = mkLocation (origin (location w)) (cleanUrl w)
  /\ exists l, trace w' = (trace w ++ l ++ [EReplaceState (cleanUrl w)])%list
               /\ forallb is_console l = true.

(** init: never throws; runs the interceptor and the load once. *)
Definition initialised (w w' : world) : Prop :=
  fixed w w' /\ _initialized w' = true
  /\ origin (location w') = origin (location w)
  /\ grew is_local w w'.

(** How getUser reads what the fetch gave back. *)
Inductive verdict : Type :=
| Unconfirmed (e : error)
| Invalid
| Valid (user access : jsval).

Definition verdict_of (o : option Response) : verdict :=
  match o with
  | None => Unconfirmed NetworkError
  | Some r =>
      match json r with
      | None => Unconfirmed BodyError
      | Some data =>
          match get_prop data "valid" with
          | inl e => Unconfirmed e
          | inr valid =>
              if truthy valid && truthy (get_prop_opt data "user")
              then Valid (get_prop_opt data "user")
                         (get_prop_opt data "hasResourceAccess")
              else Invalid
          end
      end
  end.

(** The validation request of getUser(_, resourceId) in world [w]. *)
Definition validate_request (w : world) (resourceId : option string) : event :=
  EFetch (apiUrl (config w) ++ "/auth/validate")
         {| method := Some "POST";
            headers := json_headers;
            body := Some (JSON_stringify (validate_body (_token w) resourceId)) |}.

(** The [catch] block of getUser. *)
Definition unconfirmed (e : error) (w : world) : world :=
  let w1 := emit (EConsoleError "[InmapperAuth] Validation error:" e) w in
  if hooks (config w) onAuthError then emit (EHook onAuthError (ErrArg e)) w1
  else w1.

Definition announced (u : jsval) (w : world) : world :=
  if hooks (config w) onAuthSuccess then emit (EHook onAuthSuccess (ValArg u)) w
  else w.

Definition served_from_cache (forceRefresh : bool) (resourceId : option string)
  (w : world) : bool :=
  truthy (_user w) && negb forceRefresh && negb (opt_truthy resourceId).

Definition validated_result (resourceId : option string) (u a : jsval) : jsval :=
  if opt_truthy resourceId then JObj [("user", u); ("hasResourceAccess", a)]
  else u.

(** What a validation attempt of getUser ends in. *)
Definition validation_outcome (r : option string) (wf : world)
  (a : jsval) (w' : world) : Prop :=
  match verdict_of (transport (trace wf)) with
  | Unconfirmed e => a = JNull /\ w' = unconfirmed e wf
  | Invalid => a = JNull /\ _clearAuth wf = (Normal tt, w')
  | Valid u acc =>
      a = validated_result r u acc
      /\ exists w1, saved (set_user u wf) w1 /\ w' = announced u w1
  end.

(** The fetch, or the reading of its body, was rejected. *)
Definition rejected (o : option Response) : Prop :=
  o = None \/ exists resp, o = Some resp /\ json resp = None.

Abbreviation verdict_at w r :=
  (verdict_of (transport (trace (emit (validate_request w r) w)))).

(** What getUser(false, null) returns from an initialised world. *)
Definition plain_result (w0 : world) : jsval :=
  if negb (opt_truthy (_token w0)) then JNull
  else if truthy (_user w0) then _user w0
  else match verdict_at w0 None with
       | Valid u _ => u
       | _ => JNull
       end.

(** The revocation request of logout and what it logs. *)
Definition logout_request (w : world) : event :=
  EFetch (apiUrl (config w) ++ "/auth/logout")
         {| method := Some "POST";
            headers := json_headers;
            body := Some (JSON_stringify (JObj [("token", token_val (_token w))])) |}.

Definition revocation (w : world) : list event :=
  if opt_truthy (_token w) then
    logout_request w ::
      match transport (trace (emit (logout_request w) w)) with
      | Some _ => []
      | None => [EConsoleError "[InmapperAuth] Logout error:" NetworkError]
      end
  else [].

Definition login_address (w : world) : string :=
  loginUrl (config w) ++ "?callback=" ++
  encodeURIComponent (location_href (location w)).

(** The unauthenticated path of protect: the onAuthRequired hook and
    the navigation to the login page. *)
Definition is_login_redirect (e : event) : bool :=
  match e with
  | ENavigate _ | EHook onAuthRequired _ => true
  | _ => false
  end.

Definition not_login_redirect (e : event) : bool := negb (is_login_redirect e).

(** The access-denied path for user [u]. *)
Definition denial (w : world) (u : jsval) : event :=
  if hooks (config w) onAccessDenied then EHook onAccessDenied (ValArg u)
  else EDenialView u.

(** The number of requests handed to the platform so far. *)
Definition fetches (w : world) : nat :=
  length (List.filter is_fetch (trace w)).

(** The events of a validation after its request: the console, and the
    onAuthSuccess and onAuthError hooks. *)
Definition is_validation_note (e : event) : bool :=
  match e with
  | EConsoleError _ _ | EHook onAuthSuccess _ | EHook onAuthError _ => true
  | _ => false
  end.

(** What protect makes of a cached user [u] when no resource is in
    effect: getUser gives [u] itself, and protect reads its
    [hasResourceAccess] and [user] properties. *)
Definition protect_of_cached (u : jsval) : jsval :=
  if is_false (get_prop_opt u "hasResourceAccess") then JNull
  else js_or (get_prop_opt u "user") u.

Definition is_denial (e : event) : bool :=
  match e with
  | EHook onAccessDenied _ | EDenialView _ => true
  | _ => false
  end.

End Vocabulary.

(** ** Further vocabulary *)

(** What _redirectToLogin does: the onAuthRequired hook when one is
    configured, and the navigation to the login page unless that hook
    is configured and autoRedirect is off. *)
Definition login_redirect_events (w : world) : list event :=
  if hooks (config w) onAuthRequired then
    EHook onAuthRequired NoArg ::
      (if autoRedirect (config w) then [ENavigate (login_address w)] else [])
  else [ENavigate (login_address w)].

(** The events of a session operation that stays on the page: the
    console, history.replaceState, requests, and the onAuthSuccess and
    onAuthError hooks. *)
Definition stays_on_page (e : event) : bool :=
  is_local e || is_fetch e || is_validation_note e.

(** What _loadFromStorage makes of the stored user entry; [held] is the
    user held before. *)
Definition loaded_user (JSON_parse : string -> option jsval)
  (stored : option string) (held : jsval) : jsval :=
  match stored with
  | Some s =>
      if str_truthy s then
        match JSON_parse s with Some v => v | None => held end
      else JNull
  | None => JNull
  end.

(** *** The login page's shell (App.jsx) *)

Module App.

Record AuthState : Type := mkAuthState {
  email : option string;
  pendingVerification : bool;
  callbackUrl : option string
}.

(** useState({ email: null, pendingVerification: false, callbackUrl: null }) *)
Definition initial : AuthState := mkAuthState None false None.

(** The effect run once on mount, on [window.location.search]. *)
Definition capture_callback (search : string) (prev : AuthState) : AuthState :=
  let params := URLSearchParams search in
  let callback := opt_or (params_get "callback" params)
                         (params_get "redirect" params) in
  if opt_truthy callback
  then mkAuthState (email prev) (pendingVerification prev) callback
  else prev.

End App.

(** Every character of [s] satisfies [p]. *)
Fixpoint all_chars (p : ascii -> bool) (s : string) : bool :=
  match s with
  | "" => true
  | String c r => p c && all_chars p r
  end.

(** The characters encodeURIComponent produces. *)
Definition url_safe (c : ascii) : bool := unreserved c || Ascii.eqb c "%".

(** The address redirectTo navigates to, after the origin, for the
    address [a] and the token [t]. *)
Definition handoff_address (a t : string) : string :=
  a ++ (if includes "?" a then "&" else "?") ++ "token=" ++ encodeURIComponent t.

(** *** The headers of the request that fetch builds *)

(** The platform turns the [headers] object of the init into the header
    list of the request (Fetch standard, Headers): every value is
    trimmed, names and values are checked, and a header is read under
    its name without regard to letter case, several entries under one
    name being joined. The request is the one of the default mode. *)

(** HTTP whitespace: tab, line feed, carriage return, space. *)
Definition http_whitespace (c : ascii) : bool :=
  let n := N_of_ascii c in
  (n =? 9)%N || (n =? 10)%N || (n =? 13)%N || (n =? 32)%N.

Fixpoint trim_start (s : string) : string :=
  match s with
  | "" => ""
  | String c r => if http_whitespace c then trim_start r else s
  end.

Fixpoint trim_end (s : string) : string :=
  match s with
  | "" => ""
  | String c r =>
      match trim_end r with
      | "" => if http_whitespace c then "" else String c ""
      | r' => String c r'
      end
  end.

(** A value as [append] stores it. *)
Definition normalize_value (v : string) : string := trim_end (trim_start v).

(** The characters of a header name (a token). *)
Definition tchar (c : ascii) : bool :=
  let n := N_of_ascii c in
  ((48 <=? n)%N && (n <=? 57)%N) || ((65 <=? n)%N && (n <=? 90)%N)
  || ((97 <=? n)%N && (n <=? 122)%N)
  || existsb (Ascii.eqb c)
       ["!"; "#"; "$"; "%"; "&"; "'"; "*"; "+"; "-"; "."; "^"; "_"; "`"; "|";
        "~"]%char.

Definition header_name (n : string) : bool :=
  str_truthy n && all_chars tchar n.

(** A header value holds no NUL, line feed or carriage return. *)
Definition header_value (v : string) : bool :=
  all_chars (fun c => let n := N_of_ascii c in
                      negb ((n =? 0)%N || (n =? 10)%N || (n =? 13)%N)) v.

(** A string the platform takes as a byte string: no code point above
    U+00FF, that is, in UTF-8, no byte above 0xC3. *)
Definition byte_string (s : string) : bool :=
  all_chars (fun c => (N_of_ascii c <=? 195)%N) s.

Definition ascii_lower (c : ascii) : ascii :=
  let n := N_of_ascii c in
  if (65 <=? n)%N && (n <=? 90)%N then ascii_of_N (n + 32) else c.

Fixpoint lower (s : string) : string :=
  match s with
  | "" => ""
  | String c r => String (ascii_lower c) (lower r)
  end.

(** The header list filled from a plain object, entry by entry
    ([None]: TypeError, and no request). The guard that silently drops
    forbidden names (Cookie, Host and the like) is left out: the list
    is read below under [Authorization] only, which is not one. *)
Fixpoint Headers_fill (obj : list (string * string))
  : option (list (string * string)) :=
  match obj with
  | [] => Some []
  | (n, v) :: rest =>
      if byte_string n && byte_string v && header_name n
         && header_value (normalize_value v)
      then option_map (cons (n, normalize_value v)) (Headers_fill rest)
      else None
  end.

(** Two names that differ in letter case at most. *)
Definition same_header (name n : string) : bool :=
  String.eqb (lower n) (lower name).

(** The values of a header joined by a comma and a space. *)
Definition combine (values : list string) : option string :=
  match values with
  | [] => None
  | v :: rest => Some (fold_left (fun acc x => acc ++ ", " ++ x) rest v)
  end.

(** headers.get(name) *)
Definition Headers_get (name : string) (hl : list (string * string))
  : option string :=
  combine (map snd (List.filter (fun kv => same_header name kv.1) hl)).

(** The Authorization header of the request built from [init]:
    [None] when the platform refuses the headers. *)
Definition authorization_sent (init : RequestInit) : option (option string) :=
  option_map (Headers_get "Authorization")
             (Headers_fill (default [] (headers init))).

(** No property of [obj] is [name] under another spelling. *)
Definition no_other_spelling (name : string) (obj : list (string * string))
  : bool :=
  forallb (fun kv => negb (same_header name kv.1) || String.eqb kv.1 name) obj.

(** A non-empty string whose last character is not white space. *)
Fixpoint ends_plain (s : string) : bool :=
  match s with
  | "" => false
  | String c "" => negb (http_whitespace c)
  | String _ r => ends_plain r
  end.

(** *** The address handed to history.replaceState *)

(** An address that begins with [//]: the browser reads what follows
    as an authority, not as a path of the page's origin. *)
Definition network_path (a : string) : bool :=
  match strip_prefix "//" a with Some _ => true | None => false end.

(** init reaches no history.replaceState on an address that begins
    with [//]: the instance is initialised already, or the address
    carries no token, or the address does not begin so. *)
Definition init_stays_home (w : world) : bool :=
  _initialized w
  || negb (opt_truthy (tokenFromUrl w))
  || negb (network_path (address (location w))).

(** *** The OTP entry page: further vocabulary *)

(** A slot holds nothing or one digit. *)
Definition slot_ok (d : string) : bool :=
  negb (str_truthy d) || VerifyOTP.single_digit d.

(** The six slots of the page, each empty or one digit. *)
Definition well_formed (p : VerifyOTP.page) : Prop :=
  length (VerifyOTP.otp p) = 6 /\ forallb slot_ok (VerifyOTP.otp p) = true.

(** The message the [catch] block of handleVerify shows. *)
Definition verify_message (err : option string) : string :=
  if opt_truthy err then render err else "Doğrulama başarısız".

(** The slots after the [catch] block: ['', '', '', '', '', '']. *)
Definition empty_slots : list string := ["";"";"";"";"";""].

(** The effects that take the browser away from the page. *)
Definition leaves_page (e : VerifyOTP.effect) : bool :=
  match e with
  | VerifyOTP.SetHref _ | VerifyOTP.Navigate _ _ _ => true
  | _ => false
  end.

(** ** The success page *)

Module Success.

(** The component: its [user] and [token] state, localStorage, and the
    routes it navigated to. *)
Record page : Type := mkPage {
  user : jsval;
  token : jsval;
  storage : Storage;
  navigations : list string
}.

(** useState(null) twice, on the store given. *)
Definition initial (st : Storage) : page := mkPage JNull JNull st [].

Definition setUser (u : jsval) (p : page) : page :=
  mkPage u (token p) (storage p) (navigations p).
Definition setToken (t : jsval) (p : page) : page :=
  mkPage (user p) t (storage p) (navigations p).
Definition setItems (m : gmap string string) (p : page) : page :=
  mkPage (user p) (token p)
         (mkStorage m (getItem_throws (storage p))
                      (setItem_throws (storage p))
                      (removeItem_throws (storage p)))
         (navigations p).
Definition navigate (route : string) (p : page) : page :=
  mkPage (user p) (token p) (storage p) (navigations p ++ [route]).

(** The state object handed to navigate('/success', { state }). *)
Definition route_state (user : jsval) (token : string) : jsval :=
  JObj [("user", user); ("token", JStr token)].

(** [if (!user) return null]: whether the card is rendered. *)
Definition rendered (p : page) : bool := truthy (user p).

Section Effects.

Variable JSON_parse : string -> option jsval.

(** The mount effect, given [location.state]; nothing in it catches. *)
Definition mount (state : jsval) (p : page) : error + page :=
  let stateUser := get_prop_opt state "user" in
  let stateToken := get_prop_opt state "token" in
  if truthy stateUser && truthy stateToken then
    inr (setToken stateToken (setUser stateUser p))
  else
    let st := storage p in
    if getItem_throws st "auth_user" then inl DOMException
    else
      let storedUser := items st !! "auth_user" in
      if getItem_throws st "auth_token" then inl DOMException
      else
        let storedToken := items st !! "auth_token" in
        match storedUser, storedToken with
        | Some storedUser, Some storedToken =>
            if str_truthy storedUser && str_truthy storedToken then
              match JSON_parse storedUser with
              | Some u => inr (setToken (JStr storedToken) (setUser u p))
              | None => inl SyntaxError
              end
            else inr (navigate "/login" p)
        | _, _ => inr (navigate "/login" p)
        end.

Definition handleLogout (p : page) : error + page :=
  let st := storage p in
  if removeItem_throws st "auth_token" then inl DOMException
  else
    let p := setItems (delete "auth_token" (items st)) p in
    let st := storage p in
    if removeItem_throws st "auth_user" then inl DOMException
    else
      let p := setItems (delete "auth_user" (items st)) p in
      inr (navigate "/login" p).

End Effects.

End Success.

(** ** The resend countdown of the OTP entry page *)

Module Resend.

(** authApi.resendOTP resolves or rejects with an object whose [error]
    may be missing. *)
Inductive resend_response : Type :=
| Sent
| Refused (err : option string).

(** The two pieces of state of the countdown, and the addresses
    authApi.resendOTP was called with. *)
Record timer : Type := mkTimer {
  resendTimer : nat;
  canResend : bool;
  resend_calls : list string
}.

(** useState(60), useState(false) *)
Definition initial : timer := mkTimer 60 false [].

Definition setResendTimer (n : nat) (t : timer) : timer :=
  mkTimer n (canResend t) (resend_calls t).
Definition setCanResend (b : bool) (t : timer) : timer :=
  mkTimer (resendTimer t) b (resend_calls t).
Definition call_resendOTP (email : string) (t : timer) : timer :=
  mkTimer (resendTimer t) (canResend t) (resend_calls t ++ [email]).

(** The effect on [resendTimer]: a timeout is pending afterwards
    exactly when the counter is positive. *)
Definition countdown (t : timer) : timer :=
  if (0 <? resendTimer t)%nat then t else setCanResend true t.

(** One second later: the pending timeout, if any, fires, the counter
    changes and the effect runs again. *)
Definition second (t : timer) : timer :=
  if (0 <? resendTimer t)%nat
  then countdown (setResendTimer (resendTimer t - 1) t)
  else t.

(** The component after mounting. *)
Definition mounted : timer := countdown initial.

Section Handler.

Variable resendOTP : string -> resend_response.

Definition handleResend (pt : VerifyOTP.page * timer)
  : VerifyOTP.page * timer :=
  let (p, t) := pt in
  if negb (canResend t) then (p, t)
  else
    let t := setResendTimer 60 (setCanResend false t) in
    let p := VerifyOTP.setError "" p in
    let email := VerifyOTP.email (VerifyOTP.authState p) in
    let t := call_resendOTP email t in
    let p := match resendOTP email with
             | Sent => p
             | Refused err =>
                 VerifyOTP.setError
                   (if opt_truthy err then render err
                    else "Kod gönderilemedi") p
             end in
    (p, countdown t).

End Handler.

End Resend.

(** ** The API client of the login application *)

Module AuthAPI.

(** What fetch resolves to: [ok], [status], and the parsed body
    ([None]: json() rejects). *)
Record HttpResponse : Type := mkHttp {
  ok : bool;
  status : Z;
  json : option jsval
}.

(** What a [try] block throws: an exception of the platform, or a
    value thrown by the code. *)
Inductive thrown : Type :=
| Raised (e : error)
| Thrown (v : jsval).

(** How the promise of [request] settles. *)
Inductive settled : Type :=
| Returns (data : jsval)
| Rejects (reason : jsval).

(** obj[k] = v on a plain object. *)
Fixpoint set_prop (k : string) (v : jsval) (fields : list (string * jsval))
  : list (string * jsval) :=
  match fields with
  | [] => [(k, v)]
  | (k', v') :: rest =>
      if String.eqb k k' then (k, v) :: rest
      else (k', v') :: set_prop k v rest
  end.

Definition has_key (k : string) (fields : list (string * jsval)) : bool :=
  existsb (fun kv => String.eqb k kv.1) fields.

Definition index_key (i : nat) : string :=
  NilEmpty.string_of_uint (Nat.to_uint i).

Fixpoint chars_from (i : nat) (s : string) : list (string * jsval) :=
  match s with
  | "" => []
  | String c r => (index_key i, JStr (String c "")) :: chars_from (S i) r
  end.

(** The own enumerable properties a spread copies. *)
Definition own_props (data : jsval) : list (string * jsval) :=
  match data with
  | JObj fields => fields
  | JArr l => imap (fun i v => (index_key i, v)) l
  | JStr s => chars_from 0 s
  | _ => []
  end.

(** { ...target, ...data } *)
Definition spread (data : jsval) (target : list (string * jsval))
  : list (string * jsval) :=
  fold_left (fun acc kv => set_prop kv.1 kv.2 acc) (own_props data) target.

Definition network_error : jsval :=
  JObj [("error", JStr "Network error");
        ("message", JStr "Unable to connect to server")].

Section Request.

Variable baseUrl : string.
Variable fetch : string -> RequestInit -> option HttpResponse.

(** { ...options, headers: { 'Content-Type': ..., ...options.headers } } *)
Definition request_config (options : RequestInit) : RequestInit :=
  mkInit (method options)
         (Some (fold_left (fun obj kv => object_set kv.1 kv.2 obj)
                  (default [] (headers options))
                  [("Content-Type", "application/json")]))
         (body options).

(** The [try] block of request. *)
Definition attempt (url : string) (config : RequestInit) : thrown + jsval :=
  match fetch url config with
  | None => inl (Raised NetworkError)
  | Some response =>
      match json response with
      | None => inl (Raised BodyError)
      | Some data =>
          if negb (ok response) then
            inl (Thrown (JObj (spread data
                                 [("status", JNum (status response))])))
          else inr data
      end
  end.

Definition request (endpoint : string) (options : RequestInit) : settled :=
  let url := baseUrl ++ endpoint in
  let config := request_config options in
  match attempt url config with
  | inr data => Returns data
  | inl (Raised e) => Rejects network_error
  | inl (Thrown v) =>
      if truthy (get_prop_opt v "status") then Rejects v
      else Rejects network_error
  end.

End Request.

End AuthAPI.

(** ** Sample data *)

(** A localStorage that never throws. *)
Definition working_store (m : gmap string string) : Storage :=
  mkStorage m (fun _ => false) (fun _ _ => false) (fun _ => false).

Definition sample_user : jsval :=
  JObj [("id", JNum 7); ("email", JStr "a@b.c"); ("isAdmin", JBool false)].

Definition sample_stringify (v : jsval) : string := "{sample user}".
Definition sample_parse (s : string) : option jsval := Some sample_user.

(** A network that is down, and servers that always answer the same. *)
Definition offline (tr : list event) : option Response := None.
Definition answering (data : jsval) (tr : list event) : option Response :=
  Some (mkResponse (Some data)).

Definition site (addr : string) : Location :=
  mkLocation "https://site.example" addr.

(** An initialised session holding token "T" and no cached user. *)
Definition signed_in : world :=
  mkWorld DEFAULT_CONFIG JNull (Some "T") true (working_store ∅)
          (site "/app") [].

(** An initialised session holding token "T" and a cached user. *)
Definition cached : world :=
  mkWorld DEFAULT_CONFIG sample_user (Some "T") true (working_store ∅)
          (site "/app") [].

(** An initialised session without a token. *)
Definition signed_out : world :=
  mkWorld DEFAULT_CONFIG JNull None true (working_store ∅) (site "/app") [].

(** The server's answer for a valid token without access to the
    resource asked about. *)
Definition no_access : jsval :=
  JObj [("valid", JBool true); ("user", sample_user);
        ("hasResourceAccess", JBool false)].

(** A fresh instance on a page loaded with a token in its address. *)
Definition callback_page : world :=
  new_InmapperAuth DEFAULT_CONFIG (working_store ∅)
    (site "/app?foo=1&token=X&bar=2").


Definition otp_page (slots : list string) : VerifyOTP.page :=
  VerifyOTP.mkPage slots false ""
    (VerifyOTP.mkAuthState "a@b.c" None) (working_store ∅) [].

Definition wrong_code (e c : string) (cb : option string)
  : VerifyOTP.verify_response := VerifyOTP.Rejected None.

Definition no_callback (cb token : string) : option string := None.

(** *** Further sample data *)

(** The server's answer for a valid token. *)
Definition valid_answer : jsval :=
  JObj [("valid", JBool true); ("user", sample_user)].

(** The server's answer for a token it does not know. *)
Definition invalid_answer : jsval := JObj [("valid", JBool false)].

(** A fresh instance on a page without a token in its address. *)
Definition plain_page : world :=
  new_InmapperAuth DEFAULT_CONFIG (working_store ∅) (site "/app").

Definition right_code (e c : string) (cb : option string)
  : VerifyOTP.verify_response := VerifyOTP.Resolved "T" sample_user.

(** A server that refuses every request with 401 and an error body. *)
Definition refusing (url : string) (config : RequestInit)
  : option AuthAPI.HttpResponse :=
  Some (AuthAPI.mkHttp false 401 (Some (JObj [("error", JStr "Invalid code")]))).


(** A fresh instance over a store that still holds the user of an
    earlier session. *)
Definition left_over : world :=
  new_InmapperAuth DEFAULT_CONFIG
    (working_store {[ "inmapper_auth_user" := "{sample user}" ]})
    (site "/app").

(** ** Reasoning about computations *)

Ltac js_unfold :=
  unfold bind, ret, throw, gets, modify, when, try_catch, console_error,
    call_hook, history_replaceState, prop, response_json, JSON_parse_js in *.

Lemma wp_ret {A} (a : A) w Q E : Q a w -> wp (ret a) w Q E.
Proof. exact id. Qed.

Lemma wp_throw {A} e w (Q : A -> world -> Prop) E :
  E e w -> wp (throw e) w Q E.
Proof. exact id. Qed.

Lemma wp_gets {A} (f : world -> A) w Q E : Q (f w) w -> wp (gets f) w Q E.
Proof. exact id. Qed.

Lemma wp_modify f w Q E : Q tt (f w) -> wp (modify f) w Q E.
Proof. exact id. Qed.

Lemma wp_bind {A B} (m : js A) (k : A -> js B) w Q E :
  wp m w (fun a w' => wp (k a) w' Q E) E -> wp (bind m k) w Q E.
Proof. unfold wp, bind. destruct (m w) as [[a|e] w']; exact id. Qed.

Lemma wp_try_catch {A} (m : js A) h w Q E :
  wp m w Q (fun e w' => wp (h e) w' Q E) -> wp (try_catch m h) w Q E.
Proof. unfold wp, try_catch. destruct (m w) as [[a|e] w']; exact id. Qed.

Lemma wp_when b m w Q E :
  (b = true -> wp m w Q E) -> (b = false -> Q tt w) -> wp (when b m) w Q E.
Proof.
  destruct b; unfold when; intros H1 H2; [apply H1 | apply H2]; reflexivity.
Qed.

Lemma wp_mono {A} (m : js A) w (Q Q' : A -> world -> Prop)
  (E E' : error -> world -> Prop) :
  wp m w Q E -> (forall a w', Q a w' -> Q' a w') ->
  (forall e w', E e w' -> E' e w') -> wp m w Q' E'.
Proof. unfold wp. destruct (m w) as [[a|e] w']; auto. Qed.

Lemma wp_normal {A} (m : js A) w Q :
  wp m w Q no_throw -> exists a w', m w = (Normal a, w') /\ Q a w'.
Proof.
  unfold wp. destruct (m w) as [[a|e] w']; [eauto | intros []].
Qed.

Lemma normal_wp {A} (m : js A) w a w' (Q : A -> world -> Prop) E :
  m w = (Normal a, w') -> Q a w' -> wp m w Q E.
Proof. unfold wp. intros ->. exact id. Qed.

Lemma grew_eq p w w' : trace w' = trace w -> grew p w w'.
Proof.
  intros H. exists []. split; [rewrite H; symmetry; apply app_nil_r | reflexivity].
Qed.

Lemma grew_refl p w : grew p w w.
Proof. apply grew_eq. reflexivity. Qed.

Lemma grew_trans p w1 w2 w3 : grew p w1 w2 -> grew p w2 w3 -> grew p w1 w3.
Proof.
  intros (l1 & H1 & F1) (l2 & H2 & F2). exists (l1 ++ l2)%list. split.
  - rewrite H2, H1. symmetry. apply app_assoc.
  - rewrite forallb_app, F1, F2. reflexivity.
Qed.

Lemma grew_one p e w w' :
  trace w' = (trace w ++ [e])%list -> p e = true -> grew p w w'.
Proof. intros Ht H. exists [e]. simpl. rewrite H. auto. Qed.

Lemma grew_emit p e w : p e = true -> grew p w (emit e w).
Proof. apply grew_one. reflexivity. Qed.

Lemma grew_weaken (p q : event -> bool) w w' :
  (forall e, p e = true -> q e = true) -> grew p w w' -> grew q w w'.
Proof.
  intros Hpq (l & H & F). exists l. split; [exact H|].
  apply forallb_forall. intros e He.
  apply Hpq. apply (proj1 (forallb_forall p l) F e He).
Qed.

Lemma fixed_refl w : fixed w w.
Proof. repeat split. Qed.

Lemma fixed_trans w1 w2 w3 : fixed w1 w2 -> fixed w2 w3 -> fixed w1 w3.
Proof.
  unfold fixed. intros (a1 & b1 & c1 & d1) (a2 & b2 & c2 & d2).
  repeat split; congruence.
Qed.

Lemma console_is_local e : is_console e = true -> is_local e = true.
Proof. destruct e; simpl; auto. Qed.

Lemma local_not_fetch e : is_local e = true -> not_fetch e = true.
Proof. destruct e; simpl; auto. Qed.

(** *** The regular expressions of the callback interceptor *)

Lemma strip_prefix_app_none p r c x :
  includes c p = false ->
  strip_prefix p r = None -> strip_prefix p (r ++ String c x) = None.
Proof.
  revert r. induction p as [|a p IH]; intros r Hc H;
    [destruct r; discriminate H|].
  simpl in Hc. apply orb_false_iff in Hc as (Ha & Hp).
  destruct r as [|b r]; simpl in *.
  - rewrite Ha. reflexivity.
  - destruct (Ascii.eqb a b); [apply IH; assumption | reflexivity].
Qed.

Lemma drop_until_amp_app v rest :
  includes "&" v = false -> starts_with_amp_or_empty rest = true ->
  drop_until (is_char "&") (v ++ rest) = rest.
Proof.
  intros Hv Hr. induction v as [|a v IH]; simpl in *.
  - destruct rest as [|c rest]; [reflexivity|]. simpl in *.
    unfold is_char. rewrite Hr. reflexivity.
  - apply orb_false_iff in Hv as (Ha & Hv). unfold is_char at 1.
    rewrite Ha. apply IH, Hv.
Qed.

Lemma token_match_here_found sep v rest :
  Ascii.eqb sep "?" || Ascii.eqb sep "&" = true ->
  str_truthy v = true -> includes "&" v = false ->
  starts_with_amp_or_empty rest = true ->
  token_match_here (String sep ("token=" ++ v ++ rest)) = Some rest.
Proof.
  intros Hs Hv Ha Hr. unfold token_match_here. rewrite Hs. simpl.
  destruct v as [|d v]; [discriminate|]. simpl in *.
  apply orb_false_iff in Ha as (Hd & Ha). rewrite Hd.
  rewrite drop_until_amp_app; auto.
Qed.

Lemma has_token_key_cons c r :
  has_token_key (String c r)
  = ((Ascii.eqb c "?" || Ascii.eqb c "&")
     && match strip_prefix "token=" r with Some _ => true | None => false end)
    || has_token_key r.
Proof. reflexivity. Qed.

Lemma token_match_here_absent c r sep x :
  Ascii.eqb sep "?" || Ascii.eqb sep "&" = true ->
  has_token_key (String c r) = false ->
  token_match_here (String c (r ++ String sep x)) = None.
Proof.
  intros Hs H. rewrite has_token_key_cons in H.
  apply orb_false_iff in H as (H & _).
  unfold token_match_here.
  destruct (Ascii.eqb c "?" || Ascii.eqb c "&"); [|reflexivity].
  destruct (strip_prefix "token=" r) eqn:Hp; [discriminate H|].
  rewrite (strip_prefix_app_none "token=" r sep x); [reflexivity| |exact Hp].
  apply orb_true_iff in Hs as [Hs|Hs]; apply Ascii.eqb_eq in Hs; subst sep;
    reflexivity.
Qed.

Lemma remove_token_param_cons c s :
  remove_token_param (String c s)
  = match token_match_here (String c s) with
    | Some rest => rest
    | None => String c (remove_token_param s)
    end.
Proof. reflexivity. Qed.

(** The leftmost [token=] parameter with a value is cut out, separator
    included, and nothing else is touched. *)
Lemma remove_token_param_cuts pre sep v rest :
  Ascii.eqb sep "?" || Ascii.eqb sep "&" = true ->
  has_token_key pre = false ->
  str_truthy v = true -> includes "&" v = false ->
  starts_with_amp_or_empty rest = true ->
  remove_token_param (pre ++ String sep ("token=" ++ v ++ rest)) = pre ++ rest.
Proof.
  intros Hs Hpre Hv Ha Hr. induction pre as [|c pre IH].
  - change ("" ++ String sep ("token=" ++ v ++ rest))
      with (String sep ("token=" ++ v ++ rest)).
    rewrite remove_token_param_cons.
    rewrite (token_match_here_found sep v rest Hs Hv Ha Hr). reflexivity.
  - change (String c pre ++ String sep ("token=" ++ v ++ rest))
      with (String c (pre ++ String sep ("token=" ++ v ++ rest))).
    rewrite remove_token_param_cons.
    rewrite (token_match_here_absent c pre sep _ Hs Hpre).
    rewrite has_token_key_cons in Hpre.
    apply orb_false_iff in Hpre as (_ & Hpre).
    rewrite (IH Hpre). reflexivity.
Qed.

Section Helpers.

Variable JSON_stringify : jsval -> string.
Variable JSON_parse : string -> option jsval.
Variable transport : list event -> option Response.

Lemma wp_getItem k w Q E :
  (getItem_throws (localStorage w) k = true -> E DOMException w) ->
  (getItem_throws (localStorage w) k = false ->
   Q (items (localStorage w) !! k) w) ->
  wp (localStorage_getItem k) w Q E.
Proof.
  unfold wp, localStorage_getItem.
  destruct (getItem_throws (localStorage w) k); auto.
Qed.

Lemma wp_removeItem k w Q E :
  (removeItem_throws (localStorage w) k = true -> E DOMException w) ->
  (removeItem_throws (localStorage w) k = false ->
   Q tt (set_items (delete k (items (localStorage w))) w)) ->
  wp (localStorage_removeItem k) w Q E.
Proof.
  unfold wp, localStorage_removeItem.
  destruct (removeItem_throws (localStorage w) k); auto.
Qed.

Lemma wp_console_error msg e w Q E :
  Q tt (emit (EConsoleError msg e) w) -> wp (console_error msg e) w Q E.
Proof. exact id. Qed.

Lemma _saveToStorage_normal w :
  exists w', _saveToStorage JSON_stringify w = (Normal tt, w') /\ saved JSON_stringify w w'.
Proof.
  unfold _saveToStorage, saved, saved_items, localStorage_setItem.
  js_unfold. simpl.
  destruct (_token w) as [t|]; [destruct (str_truthy t)|]; simpl;
    repeat match goal with
      | |- context [setItem_throws ?s ?k ?v] =>
          destruct (setItem_throws s k v) eqn:?; simpl
      | |- context [truthy ?u] => destruct (truthy u) eqn:?; simpl
      end;
    eexists; (split; [reflexivity|]); simpl;
    repeat split;
    try (apply grew_eq; reflexivity);
    try (eapply grew_one; reflexivity);
    try congruence.
Qed.

Lemma _saveToStorage_wp w Q E :
  (forall w', saved JSON_stringify w w' -> Q tt w') ->
  wp (_saveToStorage JSON_stringify) w Q E.
Proof.
  intros HQ. destruct (_saveToStorage_normal w) as (w' & Heq & S).
  eapply normal_wp; [exact Heq | auto].
Qed.

Lemma _loadFromStorage_wp w Q E :
  (forall w', loaded w w' -> Q tt w') ->
  wp (_loadFromStorage JSON_parse) w Q E.
Proof.
  intros HQ. unfold _loadFromStorage.
  assert (Hcatch : forall e w1, loaded w w1 ->
            wp (console_error "[InmapperAuth] Storage error:" e) w1 Q E).
  { intros e w1 (F & I & L & S & G). apply wp_console_error, HQ.
    repeat split; try apply F; auto.
    eapply grew_trans; [exact G | apply grew_emit; reflexivity]. }
  assert (L0 : loaded w w).
  { repeat split. apply grew_eq; reflexivity. }
  apply wp_try_catch, wp_bind, wp_gets, wp_bind.
  apply wp_getItem; intros _; [apply Hcatch, L0|].
  apply wp_bind, wp_modify, wp_bind.
  assert (L1 : loaded w (set_token (items (localStorage w) !! tokenKey (config w)) w)).
  { repeat split. apply grew_eq; reflexivity. }
  apply wp_getItem; intros _; [apply Hcatch, L1|].
  apply wp_bind.
  assert (Hset : forall u, wp (modify (set_user u))
            (set_token (items (localStorage w) !! tokenKey (config w)) w) Q
            (fun e w' =>
               wp (console_error "[InmapperAuth] Storage error:" e) w' Q E)).
  { intros u. apply wp_modify, HQ. repeat split. apply grew_eq; reflexivity. }
  simpl.
  destruct (items (localStorage w) !! userKey (config w)) as [s|].
  - destruct (str_truthy s).
    + unfold JSON_parse_js. destruct (JSON_parse s).
      * apply wp_ret, Hset.
      * apply wp_throw, Hcatch, L1.
    + apply wp_ret, Hset.
  - apply wp_ret, Hset.
Qed.

Lemma _clearAuth_wp w Q E :
  (forall w', cleared w w' -> Q tt w') -> wp _clearAuth w Q E.
Proof.
  intros HQ. unfold _clearAuth.
  apply wp_bind, wp_modify, wp_bind, wp_modify.
  apply wp_try_catch, wp_bind, wp_gets, wp_bind.
  apply wp_removeItem; simpl; intros H1.
  - apply wp_console_error, HQ. unfold cleared, cleared_items. simpl.
    rewrite H1. repeat split. eapply grew_one; reflexivity.
  - apply wp_removeItem; simpl; intros H2.
    + apply wp_console_error, HQ. unfold cleared, cleared_items. simpl.
      rewrite H1, H2. repeat split. eapply grew_one; reflexivity.
    + apply HQ. unfold cleared, cleared_items. simpl.
      rewrite H1, H2. repeat split. apply grew_eq; reflexivity.
Qed.

Lemma _clearAuth_normal w :
  exists w', _clearAuth w = (Normal tt, w') /\ cleared w w'.
Proof.
  destruct (wp_normal _clearAuth w (fun _ w' => cleared w w'))
    as ([] & w' & H); [apply _clearAuth_wp; auto | eauto].
Qed.

Lemma _loadFromStorage_normal w :
  exists w', _loadFromStorage JSON_parse w = (Normal tt, w') /\ loaded w w'.
Proof.
  destruct (wp_normal (_loadFromStorage JSON_parse) w (fun _ w' => loaded w w'))
    as ([] & w' & H); [apply _loadFromStorage_wp; auto | eauto].
Qed.

Lemma _handleCallbackToken_skips w :
  opt_truthy (tokenFromUrl w) = false ->
  _handleCallbackToken JSON_stringify w = (Normal tt, w).
Proof.
  unfold _handleCallbackToken, tokenFromUrl. js_unfold. intros ->. reflexivity.
Qed.

Lemma _handleCallbackToken_adopts w :
  opt_truthy (tokenFromUrl w) = true ->
  exists w', _handleCallbackToken JSON_stringify w = (Normal tt, w')
             /\ adopted JSON_stringify w w'.
Proof.
  intros H.
  destruct (_saveToStorage_normal (set_token (tokenFromUrl w) w))
    as (w1 & Hs & (F & M & L & I & (l & Ht & Hl))).
  unfold _handleCallbackToken. unfold tokenFromUrl in *.
  unfold bind at 1. unfold gets at 1. rewrite H.
  unfold bind at 1. unfold modify at 1.
  unfold bind at 1. rewrite Hs.
  unfold bind, gets, history_replaceState, modify.
  eexists. split; [reflexivity|].
  unfold memory in M. simpl in M, L. injection M as M1 M2 M3.
  unfold adopted, cleanUrl, tokenFromUrl. simpl. rewrite L.
  repeat split; try apply F; auto.
  exists l. split; [|exact Hl].
  rewrite Ht. simpl. symmetry. apply app_assoc.
Qed.

Lemma init_again w :
  _initialized w = true ->
  init JSON_stringify JSON_parse w = (Normal tt, w).
Proof. unfold init. js_unfold. intros ->. reflexivity. Qed.

Lemma init_first w :
  _initialized w = false ->
  exists w1 w2,
    _handleCallbackToken JSON_stringify w = (Normal tt, w1)
    /\ _loadFromStorage JSON_parse w1 = (Normal tt, w2)
    /\ loaded w1 w2
    /\ init JSON_stringify JSON_parse w = (Normal tt, set_initialized true w2).
Proof.
  intros Hi.
  assert (exists w1, _handleCallbackToken JSON_stringify w = (Normal tt, w1))
    as (w1 & H1).
  { destruct (opt_truthy (tokenFromUrl w)) eqn:Ht.
    - destruct (_handleCallbackToken_adopts w Ht) as (w1 & H & _); eauto.
    - rewrite (_handleCallbackToken_skips w Ht); eauto. }
  destruct (_loadFromStorage_normal w1) as (w2 & H2 & L2).
  exists w1, w2.
  split; [exact H1|]. split; [exact H2|]. split; [exact L2|].
  unfold init. unfold bind at 1. unfold gets at 1. rewrite Hi.
  unfold bind at 1. rewrite H1. unfold bind at 1. rewrite H2. reflexivity.
Qed.

Lemma init_normal w :
  exists w', init JSON_stringify JSON_parse w = (Normal tt, w')
             /\ initialised w w'.
Proof.
  destruct (_initialized w) eqn:Hi.
  - exists w. split; [apply init_again, Hi|].
    repeat split; auto. apply grew_refl.
  - destruct (init_first w Hi) as (w1 & w2 & H1 & H2 & L2 & H).
    eexists. split; [exact H|].
    assert (fixed w w1 /\ origin (location w1) = origin (location w)
            /\ grew is_local w w1) as (F1 & O1 & G1).
    { destruct (opt_truthy (tokenFromUrl w)) eqn:Ht.
      - destruct (_handleCallbackToken_adopts w Ht)
          as (w1' & H1' & (F & _ & _ & _ & _ & Lo & (l & Htr & Hl))).
        rewrite H1 in H1'. injection H1' as <-.
        split; [exact F|]. split; [rewrite Lo; reflexivity|].
        exists (l ++ [EReplaceState (cleanUrl w)])%list. split; [exact Htr|].
        rewrite forallb_app. simpl. rewrite andb_true_r.
        apply forallb_forall. intros e He. apply console_is_local.
        apply (proj1 (forallb_forall _ _) Hl e He).
      - rewrite (_handleCallbackToken_skips w Ht) in H1. injection H1 as <-.
        repeat split. apply grew_refl. }
    destruct L2 as (F2 & I2 & Lo2 & It2 & G2).
    unfold initialised. simpl. split; [|split; [reflexivity|split]].
    + eapply fixed_trans; [exact F1|]. exact F2.
    + rewrite Lo2. exact O1.
    + eapply grew_trans; [exact G1|].
      destruct G2 as (l & Htr & Hl). exists l. split; [exact Htr|].
      apply forallb_forall. intros e He. apply console_is_local.
      apply (proj1 (forallb_forall _ _) Hl e He).
Qed.

Abbreviation getUser' := (getUser JSON_stringify JSON_parse transport).

Lemma getUser_no_token f r w :
  _initialized w = true -> opt_truthy (_token w) = false ->
  getUser' f r w = (Normal JNull, w).
Proof.
  intros Hi Ht. unfold getUser. unfold bind at 1. rewrite (init_again w Hi).
  unfold bind at 1. unfold gets at 1. rewrite Ht. reflexivity.
Qed.

Lemma getUser_cached f r w :
  _initialized w = true -> opt_truthy (_token w) = true ->
  served_from_cache f r w = true ->
  getUser' f r w = (Normal (_user w), w).
Proof.
  intros Hi Ht Hc. unfold getUser. unfold bind at 1. rewrite (init_again w Hi).
  unfold bind at 1. unfold gets at 1. rewrite Ht. simpl.
  unfold bind at 1. unfold gets at 1.
  unfold served_from_cache in Hc. rewrite Hc. reflexivity.
Qed.

Lemma wp_window_fetch url init w Q E :
  (transport (trace (emit (EFetch url init) w)) = None ->
   E NetworkError (emit (EFetch url init) w)) ->
  (forall resp, transport (trace (emit (EFetch url init) w)) = Some resp ->
                Q resp (emit (EFetch url init) w)) ->
  wp (window_fetch transport url init) w Q E.
Proof.
  unfold wp, window_fetch. cbv zeta.
  destruct (transport (trace (emit (EFetch url init) w))); auto.
Qed.

Lemma wp_response_json resp w Q E :
  (json resp = None -> E BodyError w) ->
  (forall data, json resp = Some data -> Q data w) ->
  wp (response_json resp) w Q E.
Proof.
  unfold wp, response_json.
  destruct (json resp) as [d|]; intros H1 H2;
    [apply (H2 d eq_refl) | apply (H1 eq_refl)].
Qed.

Lemma wp_prop v k w Q E :
  (forall e, get_prop v k = inl e -> E e w) ->
  (forall x, get_prop v k = inr x -> Q x w) ->
  wp (prop v k) w Q E.
Proof.
  unfold wp, prop.
  destruct (get_prop v k) as [e|x]; intros H1 H2;
    [apply (H1 e eq_refl) | apply (H2 x eq_refl)].
Qed.

Lemma wp_call_hook h arg w Q E :
  Q tt (emit (EHook h arg) w) -> wp (call_hook h arg) w Q E.
Proof. exact id. Qed.

Lemma get_prop_total data k k' x :
  get_prop data k = inr x -> get_prop data k' = inr (get_prop_opt data k').
Proof. unfold get_prop_opt. destruct data; simpl; congruence. Qed.

Lemma wp_catch_unconfirmed e w Q E :
  Q JNull (unconfirmed e w) ->
  wp (console_error "[InmapperAuth] Validation error:" e ;;
      c <- gets config ;;
      when (hooks c onAuthError) (call_hook onAuthError (ErrArg e)) ;;
      ret JNull) w Q E.
Proof.
  intros HQ. apply wp_bind, wp_console_error, wp_bind, wp_gets, wp_bind.
  unfold unconfirmed in HQ. cbv zeta in HQ. simpl config.
  destruct (hooks (config w) onAuthError); exact HQ.
Qed.

Lemma getUser_validates_wp f r w :
  _initialized w = true -> opt_truthy (_token w) = true ->
  served_from_cache f r w = false ->
  wp (getUser' f r) w
     (validation_outcome JSON_stringify transport r (emit (validate_request JSON_stringify w r) w)) no_throw.
Proof.
  intros Hi Ht Hc. unfold getUser.
  apply wp_bind. eapply normal_wp; [apply init_again, Hi|].
  apply wp_bind, wp_gets. rewrite Ht. cbn [negb].
  apply wp_bind, wp_gets.
  unfold served_from_cache in Hc. rewrite Hc.
  apply wp_try_catch, wp_bind, wp_gets, wp_bind, wp_gets, wp_bind.
  fold (validate_request JSON_stringify w r).
  unfold validation_outcome, verdict_of.
  unfold validate_request at 1.
  apply wp_window_fetch; fold (validate_request JSON_stringify w r).
  { intros ->. apply wp_catch_unconfirmed. auto. }
  intros resp ->. apply wp_bind, wp_response_json.
  { intros ->. apply wp_catch_unconfirmed. auto. }
  intros data ->. apply wp_bind, wp_prop.
  { intros e ->. apply wp_catch_unconfirmed. auto. }
  intros valid Hv. rewrite Hv.
  pose proof (get_prop_total data "valid" "user" valid Hv) as Hu.
  pose proof (get_prop_total data "valid" "hasResourceAccess" valid Hv) as Ha.
  apply wp_bind.
  assert (Hinvalid : forall wf,
            wp (_clearAuth ;; ret JNull) wf
               (fun a w' => a = JNull /\ _clearAuth wf = (Normal tt, w'))
               (fun e w' => wp (console_error "[InmapperAuth] Validation error:" e ;;
                                c <- gets config ;;
                                when (hooks c onAuthError)
                                  (call_hook onAuthError (ErrArg e)) ;;
                                ret JNull) w'
                               (fun a w' => a = JNull
                                            /\ _clearAuth wf = (Normal tt, w'))
                               no_throw)).
  { intros wf. apply wp_bind.
    destruct (_clearAuth_normal wf) as (w' & Hcl & C).
    eapply normal_wp; [exact Hcl|]. apply wp_ret. auto. }
  destruct (truthy valid) eqn:Hvalid; cbn [andb].
  - apply wp_prop; [intros e He; congruence|].
    intros user Huser. rewrite Hu in Huser. injection Huser as <-.
    destruct (truthy (get_prop_opt data "user")) eqn:Htu.
    + apply wp_bind, wp_prop; [intros e He; congruence|].
      intros user Huser. rewrite Hu in Huser. injection Huser as <-.
      apply wp_bind, wp_modify, wp_bind, _saveToStorage_wp.
      intros w1 S. apply wp_bind, wp_gets, wp_bind, wp_gets, wp_bind.
      pose proof S as (F & M & _).
      unfold memory in M. simpl in M. injection M as M1 M2 M3.
      assert (Hret : forall w2, w2 = announced (get_prop_opt data "user") w1 ->
                wp (if opt_truthy r
                    then user1 <- gets _user ;;
                         access <- prop data "hasResourceAccess" ;;
                         ret (JObj [("user", user1);
                                    ("hasResourceAccess", access)])
                    else gets _user) w2
                  (fun a w' =>
                     a = validated_result r (get_prop_opt data "user")
                           (get_prop_opt data "hasResourceAccess")
                     /\ exists w1, saved JSON_stringify (set_user (get_prop_opt data "user")
                                            (emit (validate_request JSON_stringify w r) w)) w1
                                   /\ w' = announced (get_prop_opt data "user") w1)
                  (fun e w' =>
                     wp (console_error "[InmapperAuth] Validation error:" e ;;
                         c <- gets config ;;
                         when (hooks c onAuthError)
                           (call_hook onAuthError (ErrArg e)) ;;
                         ret JNull) w'
                       (fun a w' =>
                          a = validated_result r (get_prop_opt data "user")
                                (get_prop_opt data "hasResourceAccess")
                          /\ exists w1, saved JSON_stringify (set_user (get_prop_opt data "user")
                                            (emit (validate_request JSON_stringify w r) w)) w1
                                   /\ w' = announced (get_prop_opt data "user") w1)
                       no_throw)).
      { intros w2 ->. unfold validated_result.
        assert (Hu2 : _user (announced (get_prop_opt data "user") w1)
                      = get_prop_opt data "user").
        { unfold announced. destruct (hooks (config w1) onAuthSuccess); exact M2. }
        destruct (opt_truthy r).
        - apply wp_bind, wp_gets, wp_bind, wp_prop; [intros e He; congruence|].
          intros acc Hacc. rewrite Ha in Hacc. injection Hacc as <-.
          apply wp_ret. rewrite Hu2. split; [reflexivity|]. eauto.
        - apply wp_gets. rewrite Hu2. split; [reflexivity|]. eauto. }
      unfold announced in Hret.
      destruct (hooks (config w1) onAuthSuccess) eqn:Hh.
      * apply wp_call_hook. rewrite M2. apply Hret. reflexivity.
      * apply wp_ret. apply Hret. reflexivity.
    + apply Hinvalid.
  - apply wp_ret. rewrite Hvalid. apply Hinvalid.
Qed.

Lemma getUser_validates f r w :
  _initialized w = true -> opt_truthy (_token w) = true ->
  served_from_cache f r w = false ->
  exists a w', getUser' f r w = (Normal a, w')
               /\ validation_outcome JSON_stringify transport r (emit (validate_request JSON_stringify w r) w) a w'.
Proof.
  intros Hi Ht Hc. apply wp_normal, getUser_validates_wp; assumption.
Qed.

Lemma getUser_after_init f r w w0 :
  init JSON_stringify JSON_parse w = (Normal tt, w0) ->
  _initialized w0 = true ->
  getUser' f r w = getUser' f r w0.
Proof.
  intros H Hi. unfold getUser. unfold bind at 1. rewrite H.
  symmetry. unfold bind at 1. rewrite (init_again w0 Hi). reflexivity.
Qed.

Lemma verdict_valid_truthy o u a : verdict_of o = Valid u a -> truthy u = true.
Proof.
  unfold verdict_of. destruct o as [[[data|]]|]; simpl; try discriminate.
  destruct (get_prop data "valid") as [e|v]; try discriminate.
  destruct (truthy v); simpl; try discriminate.
  destruct (truthy (get_prop_opt data "user")) eqn:H; try discriminate.
  intros [= <- <-]. exact H.
Qed.

Lemma session_unconfirmed e w : session (unconfirmed e w) = session w.
Proof.
  unfold unconfirmed, session. cbv zeta. simpl.
  destruct (hooks (config w) onAuthError); reflexivity.
Qed.

Lemma memory_announced u w : memory (announced u w) = memory w.
Proof.
  unfold announced. destruct (hooks (config w) onAuthSuccess); reflexivity.
Qed.

End Helpers.

(** ** The session manager: what the code guarantees *)

Section Session.

Variable JSON_stringify : jsval -> string.
Variable JSON_parse : string -> option jsval.
Variable transport : list event -> option Response.

Abbreviation init' := (init JSON_stringify JSON_parse).
Abbreviation getUser' := (getUser JSON_stringify JSON_parse transport).
Abbreviation verdict_at w r :=
  (verdict_of (transport (trace (emit (validate_request JSON_stringify w r) w)))).

(** C1. In every session state, when a validation attempt of getUser
    meets a rejected fetch or a rejected response.json(), getUser
    returns null and the token and the user are unchanged, in memory and
    in the store; when the response is parsed and it is not both valid
    and carrying a user, getUser returns null after _clearAuth has
    cleared the session; and the token is lost in the latter case only. *)
Theorem getUser_clears_only_on_invalid
  (forceRefresh : bool) (resourceId : option string) (w : world) :
  let w0 := after (init' w) in
  let wf := emit (validate_request JSON_stringify w0 resourceId) w0 in
  let out := getUser' forceRefresh resourceId w in
  opt_truthy (_token w0) = true ->
  served_from_cache forceRefresh resourceId w0 = false ->
  (rejected (transport (trace wf)) ->
     result out = Normal JNull /\ session (after out) = session w0)
  /\ (verdict_of (transport (trace wf)) = Invalid ->
        result out = Normal JNull
        /\ _clearAuth wf = (Normal tt, after out)
        /\ _token (after out) = None /\ _user (after out) = JNull
        /\ items (localStorage (after out)) = cleared_items w0)
  /\ (_token (after out) = None ->
        verdict_of (transport (trace wf)) = Invalid).
Proof.
  intros w0 wf out Ht Hc.
  destruct (init_normal JSON_stringify JSON_parse w) as (w0' & Hinit & I).
  assert (w0 = w0') as Hw0 by (unfold w0; rewrite Hinit; reflexivity).
  clearbody w0. subst w0'.
  destruct I as (_ & Hi & _).
  destruct (getUser_validates JSON_stringify JSON_parse transport
              forceRefresh resourceId w0 Hi Ht Hc) as (a & w' & Hg & Ho).
  assert (Hout : out = (Normal a, w')).
  { unfold out. rewrite (getUser_after_init _ _ _ _ _ w w0 Hinit Hi). exact Hg. }
  clearbody out. subst out. simpl result. simpl after.
  unfold validation_outcome in Ho. fold wf in Ho.
  split; [|split].
  - intros Hr.
    assert (exists e, verdict_of (transport (trace wf)) = Unconfirmed e)
      as (e & He).
    { destruct Hr as [-> | (resp & -> & Hj)]; simpl; [eauto|].
      rewrite Hj. eauto. }
    rewrite He in Ho. destruct Ho as (-> & ->).
    split; [reflexivity|]. rewrite session_unconfirmed. reflexivity.
  - intros Hv. rewrite Hv in Ho. destruct Ho as (-> & Hcl).
    destruct (_clearAuth_normal wf) as (w'' & Hcl' & C).
    rewrite Hcl in Hcl'. injection Hcl' as <-.
    destruct C as (_ & T & U & _ & _ & It & _).
    repeat split; auto.
  - intros Hnone.
    destruct (verdict_of (transport (trace wf))) as [e| |u acc] eqn:Hv.
    + destruct Ho as (_ & ->).
      pose proof (session_unconfirmed e wf) as Hs.
      unfold session in Hs. injection Hs as Hs _ _.
      rewrite Hs in Hnone. simpl in Hnone.
      rewrite Hnone in Ht. discriminate.
    + reflexivity.
    + destruct Ho as (_ & w1 & (_ & M & _) & ->).
      pose proof (memory_announced u w1) as Hm. rewrite M in Hm.
      unfold memory in Hm. injection Hm as Hm _ _.
      rewrite Hm in Hnone. simpl in Hnone.
      rewrite Hnone in Ht. discriminate.
Qed.

Lemma setToken_normal T w :
  exists w1, setToken JSON_stringify T w = (Normal tt, w1)
             /\ _token w1 = T /\ _user w1 = JNull
             /\ _initialized w1 = _initialized w.
Proof.
  unfold setToken.
  destruct (_saveToStorage_normal JSON_stringify
              (set_user JNull (set_token T w))) as (w1 & H & (_ & M & _)).
  exists w1. unfold bind at 1. unfold modify at 1.
  unfold bind at 1. unfold modify at 1. rewrite H.
  unfold memory in M. simpl in M. injection M as M1 M2 M3. auto.
Qed.

Lemma getUser_plain w w0 :
  init' w = (Normal tt, w0) -> _initialized w0 = true ->
  exists w', getUser' false None w = (Normal (plain_result JSON_stringify transport w0), w')
             /\ (plain_result JSON_stringify transport w0 = JNull
                 \/ (truthy (plain_result JSON_stringify transport w0) = true
                     /\ plain_result JSON_stringify transport w0 = _user w')).
Proof.
  intros Hinit Hi. rewrite (getUser_after_init _ _ _ _ _ w w0 Hinit Hi).
  unfold plain_result.
  destruct (opt_truthy (_token w0)) eqn:Ht; cbn [negb].
  - destruct (truthy (_user w0)) eqn:Hu.
    + exists w0. split; [|right; auto].
      apply getUser_cached; auto. unfold served_from_cache.
      rewrite Hu. reflexivity.
    + assert (Hc : served_from_cache false None w0 = false).
      { unfold served_from_cache. rewrite Hu. reflexivity. }
      destruct (getUser_validates JSON_stringify JSON_parse transport
                  false None w0 Hi Ht Hc) as (a & w' & Hg & Ho).
      exists w'. unfold validation_outcome in Ho.
      destruct (verdict_of _) as [e| |u acc] eqn:Hv.
      * destruct Ho as (-> & _). auto.
      * destruct Ho as (-> & _). auto.
      * destruct Ho as (-> & w1 & (_ & M & _) & ->).
        unfold validated_result. simpl. split; [exact Hg|]. right.
        split; [eapply verdict_valid_truthy; exact Hv|].
        pose proof (memory_announced u w1) as Hm. rewrite M in Hm.
        unfold memory in Hm. simpl in Hm. injection Hm as _ Hm _. auto.
  - exists w0. split; [|left; reflexivity].
    apply getUser_no_token; auto.
Qed.

(** C6. logout(true) returns normally whether the revocation request
    resolves or is rejected; in both cases the token and the user are
    gone from memory, the stored entries are those _clearAuth leaves
    (neither key is left unless localStorage itself refuses the
    removal), and the last thing done is the navigation to the login
    page. *)
Theorem logout_clears_and_redirects (w : world) :
  exists w' l,
    logout JSON_stringify transport true w = (Normal tt, w')
    /\ _token w' = None /\ _user w' = JNull
    /\ items (localStorage w') = cleared_items w
    /\ (removeItem_throws (localStorage w) (tokenKey (config w))
        || removeItem_throws (localStorage w) (userKey (config w)) = true
        \/ (items (localStorage w') !! tokenKey (config w) = None
            /\ items (localStorage w') !! userKey (config w) = None))
    /\ trace w' = (trace w ++ revocation JSON_stringify transport w ++ l
                   ++ [ENavigate (login_address w)])%list
    /\ forallb is_console l = true.
Proof.
  pose (Q := fun (_ : unit) (w' : world) =>
               exists l,
                 _token w' = None /\ _user w' = JNull
                 /\ items (localStorage w') = cleared_items w
                 /\ trace w' = (trace w ++ revocation JSON_stringify transport w ++ l
                                ++ [ENavigate (login_address w)])%list
                 /\ forallb is_console l = true).
  assert (Hwp : wp (logout JSON_stringify transport true) w Q no_throw).
  { assert (Hrest : forall w1,
              fixed w w1 -> location w1 = location w ->
              items (localStorage w1) = items (localStorage w) ->
              trace w1 = (trace w ++ revocation JSON_stringify transport w)%list ->
              wp (_clearAuth ;; when true (login None)) w1 Q no_throw).
    { intros w1 (Fc & Fg & Fs & Fr) L It Tr.
      apply wp_bind, _clearAuth_wp.
      intros w2 ((Fc2 & _) & T2 & U2 & _ & L2 & It2 & (l & Tr2 & Hl)).
      unfold when, login.
      apply wp_bind, wp_gets, wp_bind, wp_gets, wp_modify.
      exists l. simpl.
      split; [exact T2|]. split; [exact U2|]. split.
      - rewrite It2. unfold cleared_items. rewrite Fc, Fr, It. reflexivity.
      - split; [|exact Hl].
        rewrite Tr2, Tr, Fc2, Fc, L2, L. unfold login_address.
        rewrite <- !app_assoc. reflexivity. }
    unfold logout. apply wp_bind, wp_gets, wp_bind.
    unfold revocation in Hrest.
    destruct (opt_truthy (_token w)) eqn:Ht; unfold when at 1.
    - apply wp_try_catch, wp_bind, wp_gets, wp_bind, wp_gets, wp_bind.
      cbv beta. apply wp_window_fetch; fold (logout_request JSON_stringify w).
      + intros Hnone. apply wp_console_error.
        rewrite Hnone in Hrest. apply Hrest; try reflexivity.
        * repeat split.
        * simpl. rewrite <- app_assoc. reflexivity.
      + intros resp Hsome. apply wp_ret.
        rewrite Hsome in Hrest. apply Hrest; try reflexivity.
        repeat split.
    - apply wp_ret. apply Hrest; try reflexivity; [apply fixed_refl|].
      symmetry. apply app_nil_r. }
  destruct (wp_normal _ _ _ Hwp) as ([] & w' & Heq & (l & T & U & It & H)).
  exists w', l. split; [exact Heq|]. split; [exact T|]. split; [exact U|].
  split; [exact It|]. split; [|exact H].
  rewrite It. unfold cleared_items. cbv zeta.
  destruct (removeItem_throws (localStorage w) (tokenKey (config w)));
    [left; reflexivity|].
  destruct (removeItem_throws (localStorage w) (userKey (config w)));
    [left; reflexivity|].
  right. split.
  - destruct (decide (userKey (config w) = tokenKey (config w))) as [->|Hne].
    + apply lookup_delete_eq.
    + rewrite lookup_delete_ne by exact Hne. apply lookup_delete_eq.
  - apply lookup_delete_eq.
Qed.

Lemma object_get_set k v obj : object_get k (object_set k v obj) = Some v.
Proof.
  induction obj as [|[k' v'] rest IH]; simpl.
  - rewrite String.eqb_refl. reflexivity.
  - destruct (String.eqb k k') eqn:Hk; simpl.
    + rewrite String.eqb_refl. reflexivity.
    + rewrite Hk. exact IH.
Qed.

Lemma object_get_set_other k k0 v obj :
  k <> k0 -> object_get k (object_set k0 v obj) = object_get k obj.
Proof.
  intros Hne. induction obj as [|[k' v'] rest IH]; simpl.
  - destruct (String.eqb_spec k k0); [contradiction | reflexivity].
  - destruct (String.eqb_spec k0 k') as [<-|Hk0]; simpl.
    + destruct (String.eqb_spec k k0); [contradiction | reflexivity].
    + rewrite IH. reflexivity.
Qed.

Lemma Headers_fill_names obj hl :
  Headers_fill obj = Some hl -> hl.*1 = obj.*1.
Proof.
  revert hl. induction obj as [|[n v] rest IH]; intros hl; simpl.
  - intros [= <-]. reflexivity.
  - destruct (_ && _); [|discriminate].
    destruct (Headers_fill rest) as [hl'|]; [|discriminate].
    intros [= <-]. change ((n :: hl'.*1) = (n :: rest.*1)).
    f_equal. apply IH. reflexivity.
Qed.

(** No entry of a filled list answers to [name] when no property of
    the object does. *)
Lemma Headers_get_absent name obj hl :
  Headers_fill obj = Some hl ->
  forallb (fun kv => negb (same_header name kv.1)) obj = true ->
  List.filter (fun kv => same_header name kv.1) hl = [].
Proof.
  revert hl. induction obj as [|[n v] rest IH]; intros hl; simpl.
  - intros [= <-] _. reflexivity.
  - destruct (_ && _); [|discriminate].
    destruct (Headers_fill rest) as [hl'|]; [|discriminate].
    intros [= <-] H. apply andb_true_iff in H as (Hn & Hrest).
    simpl. apply negb_true_iff in Hn. rewrite Hn. apply IH; auto.
Qed.

Lemma Headers_get_set name v obj hl :
  NoDup obj.*1 ->
  no_other_spelling name obj = true ->
  Headers_fill (object_set name v obj) = Some hl ->
  Headers_get name hl = Some (normalize_value v).
Proof.
  assert (Hself : same_header name name = true)
    by (unfold same_header; apply String.eqb_refl).
  revert hl. induction obj as [|[n v'] rest IH]; intros hl Hnd Hno; simpl.
  - destruct (_ && _); [|discriminate]. intros [= <-].
    unfold Headers_get. simpl. rewrite Hself. reflexivity.
  - simpl in Hnd, Hno. apply NoDup_cons in Hnd as (Hn & Hnd).
    apply andb_true_iff in Hno as (Hfirst & Hno).
    destruct (String.eqb_spec name n) as [<-|Hne]; simpl.
    + destruct (_ && _); [|discriminate].
      destruct (Headers_fill rest) as [hl'|] eqn:Hfill; [|discriminate].
      intros [= <-]. unfold Headers_get. simpl. rewrite Hself.
      rewrite (Headers_get_absent name rest hl' Hfill); [reflexivity|].
      apply forallb_forall. intros [k x] Hin.
      pose proof (proj1 (forallb_forall _ _) Hno (k, x) Hin) as Hk.
      simpl in *. destruct (same_header name k); [|reflexivity].
      simpl in Hk. apply String.eqb_eq in Hk. subst k.
      exfalso. apply Hn. apply list_elem_of_fmap. exists (name, x).
      split; [reflexivity | apply list_elem_of_In; exact Hin].
    + destruct (_ && _); [|discriminate].
      destruct (Headers_fill (object_set name v rest)) as [hl'|] eqn:Hfill;
        [|discriminate].
      intros [= <-].
      assert (Hn' : same_header name n = false).
      { destruct (same_header name n); [|reflexivity].
        simpl in Hfirst. apply String.eqb_eq in Hfirst. congruence. }
      unfold Headers_get. simpl. rewrite Hn'.
      exact (IH hl' Hnd Hno eq_refl).
Qed.

Lemma trim_end_plain s : ends_plain s = true -> trim_end s = s.
Proof.
  induction s as [|c r IH]; [discriminate|].
  destruct r as [|c' r'].
  - simpl. intros H. apply negb_true_iff in H. rewrite H. reflexivity.
  - intros H. change (ends_plain (String c' r') = true) in H.
    change (trim_end (String c (String c' r')))
      with (match trim_end (String c' r') with
            | "" => if http_whitespace c then "" else String c ""
            | x => String c x
            end).
    rewrite (IH H). reflexivity.
Qed.

Lemma ends_plain_app s t : ends_plain t = true -> ends_plain (s ++ t) = true.
Proof.
  intros H. induction s as [|c s IH]; [exact H|].
  change (String c s ++ t) with (String c (s ++ t)).
  destruct (s ++ t) as [|c' r]; [discriminate IH | exact IH].
Qed.

(** C10, as the code has it. fetch(url, options) hands the platform one
    request. Its headers object is the caller's with [Authorization]
    set to "Bearer " followed by the token as a template literal prints
    it ("null" when there is none): a caller entry spelled so is
    replaced, every other entry, the method and the body are passed
    on. Whenever the caller's object holds no other spelling of that
    name and the platform takes the headers, the Authorization header
    of the request is that string as the platform trims it: the string
    itself when the token is non-empty and does not end in white
    space, and "Bearer null" without a token. *)
Theorem fetch_sets_authorization (url : string) (options : RequestInit)
  (w : world) :
  let caller := default [] (headers options) in
  let bearer := "Bearer " ++ render (_token w) in
  exists init,
    trace (after (fetch transport url options w))
    = (trace w ++ [EFetch url init])%list
    /\ method init = method options
    /\ body init = body options
    /\ headers init = Some (object_set "Authorization" bearer caller)
    /\ object_get "Authorization" (default [] (headers init)) = Some bearer
    /\ (forall k, k <> "Authorization" ->
        object_get k (default [] (headers init)) = object_get k caller)
    /\ (NoDup caller.*1 ->
        no_other_spelling "Authorization" caller = true ->
        forall hl,
          Headers_fill (default [] (headers init)) = Some hl ->
          authorization_sent init = Some (Some (normalize_value bearer)))
    /\ (forall t, _token w = Some t -> ends_plain t = true ->
        normalize_value bearer = bearer)
    /\ (_token w = None -> normalize_value bearer = "Bearer null").
Proof.
  intros caller bearer.
  exists (mkInit (method options)
                 (Some (object_set "Authorization" bearer caller))
                 (body options)).
  split.
  { unfold fetch, window_fetch. js_unfold. simpl.
    destruct (transport _); reflexivity. }
  split; [reflexivity|]. split; [reflexivity|]. split; [reflexivity|].
  split; [apply object_get_set|].
  split; [intros k Hk; apply object_get_set_other; exact Hk|].
  split; [|split].
  - intros Hnd Hno hl Hfill. unfold authorization_sent.
    rewrite Hfill. simpl. f_equal.
    exact (Headers_get_set "Authorization" bearer caller hl Hnd Hno Hfill).
  - intros t Ht Hp. unfold bearer. rewrite Ht. simpl render.
    unfold normalize_value.
    change (trim_start ("Bearer " ++ t)) with ("Bearer " ++ t).
    apply trim_end_plain. apply (ends_plain_app "Bearer " t Hp).
  - intros Ht. unfold bearer. rewrite Ht. reflexivity.
Qed.

Abbreviation protect' := (protect JSON_stringify JSON_parse transport).
Abbreviation hasPermission' :=
  (hasPermission JSON_stringify JSON_parse transport).

Lemma forallb_weaken (p q : event -> bool) l :
  (forall e, p e = true -> q e = true) ->
  forallb p l = true -> forallb q l = true.
Proof.
  intros Hpq H. apply forallb_forall. intros e He.
  apply Hpq. apply (proj1 (forallb_forall p l) H e He).
Qed.

Lemma init_run w :
  exists w0, init' w = (Normal tt, w0) /\ after (init' w) = w0
             /\ initialised w w0.
Proof.
  destruct (init_normal JSON_stringify JSON_parse w) as (w0 & H & I).
  exists w0. rewrite H. auto.
Qed.

Lemma scoped_not_cached f r w :
  opt_truthy r = true -> served_from_cache f r w = false.
Proof.
  unfold served_from_cache. intros ->. rewrite andb_false_r. reflexivity.
Qed.

Lemma validation_outcome_trace r wf a w' :
  validation_outcome JSON_stringify transport r wf a w' ->
  grew is_validation_note wf w'.
Proof.
  unfold validation_outcome.
  destruct (verdict_of _) as [e| |u acc].
  - intros (_ & ->). unfold unconfirmed. cbv zeta. simpl.
    destruct (hooks (config wf) onAuthError).
    + exists [EConsoleError "[InmapperAuth] Validation error:" e;
              EHook onAuthError (ErrArg e)].
      simpl. rewrite <- app_assoc. auto.
    + apply grew_emit. reflexivity.
  - intros (_ & Hcl).
    destruct (_clearAuth_normal wf) as (w'' & Hcl' & C).
    rewrite Hcl in Hcl'. injection Hcl' as <-.
    destruct C as (_ & _ & _ & _ & _ & _ & G).
    eapply grew_weaken; [|exact G]. intros []; simpl; try discriminate; auto.
  - intros (_ & w1 & (_ & _ & _ & _ & G) & ->).
    eapply grew_trans.
    + eapply grew_weaken; [|exact G]. intros []; simpl; try discriminate; auto.
    + unfold announced. destruct (hooks (config w1) onAuthSuccess).
      * apply grew_emit. reflexivity.
      * apply grew_refl.
Qed.

(** C4. protect with a resource in effect, when the validation
    succeeds and the response's hasResourceAccess is false: protect
    returns null, the last thing it does is the access-denied path (the
    onAccessDenied hook if configured, otherwise the denial view), and
    nothing it does is a navigation to the login page or a call of the
    onAuthRequired hook. *)
Theorem protect_denied_without_login
  (options_resourceId : option string) (w : world) (u : jsval) :
  let w0 := after (init' w) in
  let rid := opt_or options_resourceId (resourceId (config w)) in
  opt_truthy rid = true ->
  opt_truthy (_token w0) = true ->
  verdict_at w0 rid = Valid u (JBool false) ->
  exists w' l,
    protect' options_resourceId w = (Normal JNull, w')
    /\ trace w' = (trace w ++ l ++ [denial w u])%list
    /\ forallb not_login_redirect l = true.
Proof.
  intros w0 rid Hrid Ht Hv.
  destruct (init_run w) as (w0' & Hinit & Hw0 & (F & Hi & _ & G0)).
  fold w0 in Hw0. subst w0'.
  pose proof F as (Fc & _).
  pose proof (scoped_not_cached false rid w0 Hrid) as Hc.
  destruct (getUser_validates JSON_stringify JSON_parse transport
              false rid w0 Hi Ht Hc) as (a & w1 & Hg & Ho).
  pose proof (validation_outcome_trace _ _ _ _ Ho) as G1.
  unfold validation_outcome in Ho. rewrite Hv in Ho.
  destruct Ho as (-> & w2 & (F2 & _) & ->).
  assert (Hcfg : config (announced u w2) = config w).
  { unfold announced. destruct (hooks (config w2) onAuthSuccess); simpl;
      destruct F2 as (-> & _); simpl; exact Fc. }
  pose (Q := fun (v : jsval) (w' : world) =>
               v = JNull /\ exists l,
                 trace w' = (trace w ++ l ++ [denial w u])%list
                 /\ forallb not_login_redirect l = true).
  assert (Hwp : wp (protect' options_resourceId) w Q no_throw).
  { unfold protect. apply wp_bind.
    eapply normal_wp; [exact Hinit|].
    apply wp_bind, wp_gets. rewrite Fc. fold rid. apply wp_bind.
    eapply normal_wp; [exact Hg|].
    unfold validated_result. rewrite Hrid. simpl negb. simpl truthy. cbv iota.
    apply wp_bind, wp_prop; simpl; [intros e He; discriminate|].
    intros x [= <-]. simpl is_false. cbv iota.
    apply wp_bind, wp_prop; simpl; [intros e He; discriminate|].
    intros x [= <-].
    apply wp_bind. unfold _handleAccessDenied.
    apply wp_bind, wp_gets. rewrite Hcfg.
    destruct G0 as (l0 & T0 & H0). destruct G1 as (l1 & T1 & H1).
    assert (Hl : forallb not_login_redirect
                   (l0 ++ validate_request JSON_stringify w0 rid :: l1) = true).
    { rewrite forallb_app. simpl.
      rewrite (forallb_weaken is_local not_login_redirect l0); [|intros []; simpl; try discriminate; auto|exact H0].
      rewrite (forallb_weaken is_validation_note not_login_redirect l1);
        [reflexivity| |exact H1].
      intros [| |h ?| | |]; simpl; try discriminate; auto.
      destruct h; simpl; try discriminate; auto. }
    assert (Htr : forall e,
              trace (emit e (announced u w2))
              = (trace w ++ (l0 ++ validate_request JSON_stringify w0 rid :: l1)
                 ++ [e])%list).
    { intros e. simpl. rewrite T1. simpl. rewrite T0.
      rewrite <- !app_assoc. reflexivity. }
    unfold Q, denial.
    destruct (hooks (config w) onAccessDenied).
    - apply wp_call_hook, wp_ret. split; [reflexivity|].
      eexists. split; [apply Htr | exact Hl].
    - apply wp_modify, wp_ret. split; [reflexivity|].
      eexists. split; [apply Htr | exact Hl]. }
  destruct (wp_normal _ _ _ Hwp) as (v & w' & Heq & (-> & l & Htr & Hl)).
  exists w', l. auto.
Qed.

Lemma grew_fetches w w' : grew not_fetch w w' -> fetches w' = fetches w.
Proof.
  intros (l & Ht & Hl). unfold fetches. rewrite Ht, List.filter_app, length_app.
  assert (List.filter is_fetch l = []) as ->; [|simpl; lia].
  clear Ht. induction l as [|e l IH]; [reflexivity|].
  simpl in *. apply andb_true_iff in Hl as (He & Hl).
  unfold not_fetch in He. apply negb_true_iff in He. rewrite He. auto.
Qed.

Lemma fetches_emit_fetch url i w :
  fetches (emit (EFetch url i) w) = fetches w + 1.
Proof.
  unfold fetches. simpl. rewrite List.filter_app, length_app. reflexivity.
Qed.

Lemma validation_note_not_fetch e :
  is_validation_note e = true -> not_fetch e = true.
Proof. destruct e; simpl; auto; discriminate. Qed.

Lemma validation_outcome_memory r wf a w' :
  validation_outcome JSON_stringify transport r wf a w' ->
  fixed wf w' /\ _initialized w' = _initialized wf
  /\ _token w' = match verdict_of (transport (trace wf)) with
                 | Invalid => None
                 | _ => _token wf
                 end.
Proof.
  unfold validation_outcome.
  destruct (verdict_of _) as [e| |u acc].
  - intros (_ & ->). unfold unconfirmed. cbv zeta.
    destruct (hooks (config wf) onAuthError); repeat split.
  - intros (_ & Hcl).
    destruct (_clearAuth_normal wf) as (w'' & Hcl' & C).
    rewrite Hcl in Hcl'. injection Hcl' as <-.
    destruct C as (F & T & _ & I & _). auto.
  - intros (_ & w1 & (F & M & _) & ->).
    unfold memory in M. simpl in M. injection M as M1 M2 M3.
    unfold announced. destruct (hooks (config w1) onAuthSuccess); simpl; auto.
Qed.

Lemma hasPermission_initialised rid w :
  _initialized w = true -> opt_truthy (_token w) = true ->
  opt_truthy rid = true ->
  exists a w',
    hasPermission' rid w
    = (Normal (match verdict_at w rid with
               | Valid _ acc => is_true acc
               | _ => false
               end), w')
    /\ validation_outcome JSON_stringify transport rid
         (emit (validate_request JSON_stringify w rid) w) a w'.
Proof.
  intros Hi Ht Hr.
  destruct (getUser_validates JSON_stringify JSON_parse transport
              true rid w Hi Ht (scoped_not_cached true rid w Hr))
    as (a & w' & Hg & Ho).
  exists a, w'. split; [|exact Ho].
  unfold hasPermission. unfold bind. rewrite Hg. unfold ret.
  f_equal. f_equal.
  unfold validation_outcome in Ho.
  destruct (verdict_of _) as [e| |u acc].
  - destruct Ho as (-> & _). reflexivity.
  - destruct Ho as (-> & _). reflexivity.
  - destruct Ho as (-> & _). unfold validated_result. rewrite Hr. reflexivity.
Qed.

Lemma hasPermission_no_token rid w :
  _initialized w = true -> opt_truthy (_token w) = false ->
  hasPermission' rid w = (Normal false, w).
Proof.
  intros Hi Ht. unfold hasPermission. unfold bind.
  rewrite (getUser_no_token _ _ _ true rid w Hi Ht). reflexivity.
Qed.

Lemma hasPermission_after_init rid w w0 :
  init' w = (Normal tt, w0) -> _initialized w0 = true ->
  hasPermission' rid w = hasPermission' rid w0.
Proof.
  intros H Hi. unfold hasPermission. unfold bind.
  rewrite (getUser_after_init _ _ _ _ _ w w0 H Hi). reflexivity.
Qed.

(** C5, as the code has it. In every session that holds a non-empty
    token once initialised, hasPermission(resourceId) with a non-empty
    resourceId issues exactly one validation request, whose body carries
    the token and that resource, whatever user is cached; it returns
    true exactly when the answer is valid with a user and its
    hasResourceAccess is true. A second call right after it issues a
    second request, unless the first answer was invalid and cleared the
    session. *)
Theorem hasPermission_always_validates (resourceId : option string)
  (w : world) :
  let w0 := after (init' w) in
  let out1 := hasPermission' resourceId w in
  let out2 := hasPermission' resourceId (after out1) in
  opt_truthy resourceId = true ->
  opt_truthy (_token w0) = true ->
  result out1 = Normal (match verdict_at w0 resourceId with
                        | Valid _ access => is_true access
                        | _ => false
                        end)
  /\ (exists l,
        trace (after out1)
        = (trace w0 ++ validate_request JSON_stringify w0 resourceId :: l)%list
        /\ forallb not_fetch l = true)
  /\ validate_body (_token w0) resourceId
     = JObj [("token", token_val (_token w0));
             ("resource", token_val resourceId)]
  /\ fetches (after out1) = fetches w + 1
  /\ fetches (after out2)
     = fetches w + match verdict_at w0 resourceId with
                   | Invalid => 1
                   | _ => 2
                   end.
Proof.
  intros w0 out1 out2 Hr Ht.
  destruct (init_run w) as (w0' & Hinit & Hw0 & (F & Hi & _ & G0)).
  fold w0 in Hw0. subst w0'.
  destruct (hasPermission_initialised resourceId w0 Hi Ht Hr)
    as (a & w1 & Hp & Ho).
  assert (Hout1 : out1 = (Normal (match verdict_at w0 resourceId with
                                  | Valid _ access => is_true access
                                  | _ => false
                                  end), w1)).
  { unfold out1. rewrite (hasPermission_after_init _ w w0 Hinit Hi). exact Hp. }
  pose proof (validation_outcome_trace _ _ _ _ Ho) as (l & Tl & Hl).
  pose proof (validation_outcome_memory _ _ _ _ Ho) as (F1 & I1 & T1).
  assert (Hf0 : fetches w0 = fetches w).
  { apply grew_fetches. eapply grew_weaken; [apply local_not_fetch | exact G0]. }
  assert (Hf1 : fetches w1 = fetches w + 1).
  { rewrite <- Hf0.
    rewrite <- (fetches_emit_fetch (apiUrl (config w0) ++ "/auth/validate")
                  {| method := Some "POST"; headers := json_headers;
                     body := Some (JSON_stringify
                                     (validate_body (_token w0) resourceId)) |}).
    apply grew_fetches. exists l. split; [exact Tl|].
    eapply forallb_weaken; [apply validation_note_not_fetch | exact Hl]. }
  unfold out2. clearbody out1. subst out1. simpl result. simpl after.
  split; [reflexivity|]. split; [|split; [|split; [exact Hf1|]]].
  - exists l. split.
    + rewrite Tl. simpl. rewrite <- app_assoc. reflexivity.
    + eapply forallb_weaken; [apply validation_note_not_fetch | exact Hl].
  - unfold validate_body. rewrite Hr. reflexivity.
  - simpl in I1. rewrite Hi in I1.
    destruct (verdict_at w0 resourceId) as [e| |u acc] eqn:Hv.
    + simpl in T1. rewrite <- T1 in Ht.
      destruct (hasPermission_initialised resourceId w1 I1 Ht Hr)
        as (a2 & w2 & Hp2 & Ho2).
      rewrite Hp2. simpl after.
      pose proof (validation_outcome_trace _ _ _ _ Ho2) as G2.
      rewrite (grew_fetches _ _ (grew_weaken _ _ _ _
                                   validation_note_not_fetch G2)).
      unfold validate_request. rewrite fetches_emit_fetch. lia.
    + rewrite (hasPermission_no_token resourceId w1 I1);
        [exact Hf1 | rewrite T1; reflexivity].
    + simpl in T1. rewrite <- T1 in Ht.
      destruct (hasPermission_initialised resourceId w1 I1 Ht Hr)
        as (a2 & w2 & Hp2 & Ho2).
      rewrite Hp2. simpl after.
      pose proof (validation_outcome_trace _ _ _ _ Ho2) as G2.
      rewrite (grew_fetches _ _ (grew_weaken _ _ _ _
                                   validation_note_not_fetch G2)).
      unfold validate_request. rewrite fetches_emit_fetch. lia.
Qed.

Lemma protect_cached o w :
  _initialized w = true -> opt_truthy (_token w) = true ->
  truthy (_user w) = true ->
  opt_truthy (opt_or o (resourceId (config w))) = false ->
  exists w', protect' o w = (Normal (protect_of_cached (_user w)), w')
             /\ memory w' = memory w /\ config w' = config w
             /\ grew is_denial w w'.
Proof.
  intros Hi Ht Hu Hr.
  assert (Hc : served_from_cache false (opt_or o (resourceId (config w))) w
               = true).
  { unfold served_from_cache. rewrite Hu, Hr. reflexivity. }
  pose (Q := fun (v : jsval) (w' : world) =>
               v = protect_of_cached (_user w)
               /\ memory w' = memory w /\ config w' = config w
               /\ grew is_denial w w').
  assert (Hwp : wp (protect' o) w Q no_throw).
  { unfold protect. apply wp_bind.
    eapply normal_wp; [apply init_again, Hi|].
    apply wp_bind, wp_gets, wp_bind.
    eapply normal_wp; [apply getUser_cached; assumption|].
    rewrite Hu. cbn [negb]. cbv iota.
    assert (Hp : forall k, get_prop (_user w) k
                           = inr (get_prop_opt (_user w) k)).
    { intros k. unfold get_prop_opt.
      destruct (_user w); simpl in *; try discriminate; reflexivity. }
    apply wp_bind, wp_prop; [intros e He; rewrite Hp in He; discriminate|].
    intros x Hx. rewrite Hp in Hx. injection Hx as <-.
    unfold Q, protect_of_cached.
    destruct (is_false (get_prop_opt (_user w) "hasResourceAccess")).
    - apply wp_bind, wp_prop; [intros e He; rewrite Hp in He; discriminate|].
      intros x Hx. rewrite Hp in Hx. injection Hx as <-.
      apply wp_bind. unfold _handleAccessDenied. apply wp_bind, wp_gets.
      destruct (hooks (config w) onAccessDenied).
      + apply wp_call_hook, wp_ret. repeat split.
        apply grew_emit. reflexivity.
      + apply wp_modify, wp_ret. repeat split.
        apply grew_emit. reflexivity.
    - apply wp_bind, wp_prop; [intros e He; rewrite Hp in He; discriminate|].
      intros x Hx. rewrite Hp in Hx. injection Hx as <-.
      apply wp_ret. repeat split. apply grew_refl. }
  destruct (wp_normal _ _ _ Hwp) as (v & w' & Heq & (-> & H)).
  exists w'. auto.
Qed.

Lemma protect_after_init o w w0 :
  init' w = (Normal tt, w0) -> _initialized w0 = true ->
  fixed w w0 ->
  protect' o w = protect' o w0.
Proof.
  intros H Hi (Fc & _). unfold protect.
  unfold bind at 1. rewrite H. symmetry.
  unfold bind at 1. rewrite (init_again _ _ w0 Hi).
  unfold bind at 1. unfold gets at 1. symmetry.
  unfold bind at 1. unfold gets at 1. rewrite Fc.
  reflexivity.
Qed.

Lemma denial_not_fetch e : is_denial e = true -> not_fetch e = true.
Proof. destruct e; simpl; auto; discriminate. Qed.

(** C8. With a non-empty token and a cached user held once the
    session is initialised, and no resource in effect, two protect()
    calls in sequence hand no request to the platform: each is answered
    from the cached user, and the token and the cached user are left as
    they were. *)
Theorem protect_twice_served_from_cache (options_resourceId : option string)
  (w : world) :
  let w0 := after (init' w) in
  let out1 := protect' options_resourceId w in
  let out2 := protect' options_resourceId (after out1) in
  opt_truthy (_token w0) = true ->
  truthy (_user w0) = true ->
  opt_truthy (opt_or options_resourceId (resourceId (config w))) = false ->
  result out1 = Normal (protect_of_cached (_user w0))
  /\ result out2 = Normal (protect_of_cached (_user w0))
  /\ fetches (after out1) = fetches w
  /\ fetches (after out2) = fetches w
  /\ memory (after out2) = memory w0.
Proof.
  intros w0 out1 out2 Ht Hu Hr.
  destruct (init_run w) as (w0' & Hinit & Hw0 & (F & Hi & _ & G0)).
  fold w0 in Hw0. subst w0'.
  pose proof F as (Fc & _). rewrite <- Fc in Hr.
  destruct (protect_cached options_resourceId w0 Hi Ht Hu Hr)
    as (w1 & H1 & M1 & C1 & G1).
  assert (Hout1 : out1 = (Normal (protect_of_cached (_user w0)), w1)).
  { unfold out1. rewrite (protect_after_init _ w w0 Hinit Hi F). exact H1. }
  unfold out2. clearbody out1. subst out1. simpl result. simpl after.
  pose proof M1 as M1'. unfold memory in M1'. injection M1' as Mt Mu Mi.
  rewrite <- Mt in Ht. rewrite <- Mu in Hu. rewrite <- Mi in Hi.
  rewrite <- C1 in Hr.
  destruct (protect_cached options_resourceId w1 Hi Ht Hu Hr)
    as (w2 & H2 & M2 & C2 & G2).
  rewrite H2. simpl. rewrite Mu in *.
  assert (Hf0 : fetches w0 = fetches w).
  { apply grew_fetches. eapply grew_weaken; [apply local_not_fetch | exact G0]. }
  assert (Hf1 : fetches w1 = fetches w).
  { rewrite <- Hf0. apply grew_fetches.
    eapply grew_weaken; [apply denial_not_fetch | exact G1]. }
  assert (Hf2 : fetches w2 = fetches w).
  { rewrite <- Hf1. apply grew_fetches.
    eapply grew_weaken; [apply denial_not_fetch | exact G2]. }
  repeat split; auto. congruence.
Qed.

Lemma cleanUrl_eq w :
  cleanUrl w
  = location_pathname (location w) ++
    leading_amp_to_query (remove_token_param (location_search (location w))).
Proof.
  unfold cleanUrl. cbv zeta.
  destruct (location_pathname (location w)) as [|c p]; simpl.
  - destruct (leading_amp_to_query _); reflexivity.
  - reflexivity.
Qed.

End Session.

Section Stale.

Variable JSON_stringify : jsval -> string.
Variable JSON_parse : string -> option jsval.
Variable transport : list event -> option Response.

(** C2, failing. The store holds the token "old" and the user cached
    under it. (1) The page is loaded with [?token=new]: the first
    getUser() adopts "new", then reads the old user back from the store
    and returns it without any request. (2) In an initialised session
    holding "old" and that user, setToken("new") drops the user from
    memory but leaves the stored one; after a reload getUser() returns
    it under "new", again without any request. *)
Theorem stale_user_survives_token_change (s : string) (U : jsval) :
  JSON_parse s = Some U -> truthy U = true -> str_truthy s = true ->
  let store := working_store {[ "inmapper_auth_token" := "old";
                                "inmapper_auth_user" := s ]} in
  let w := new_InmapperAuth DEFAULT_CONFIG store (site "/app?token=new") in
  let out := getUser JSON_stringify JSON_parse transport false None w in
  let held := mkWorld DEFAULT_CONFIG U (Some "old") true store (site "/app") [] in
  let set := after (setToken JSON_stringify (Some "new") held) in
  let reloaded := new_InmapperAuth DEFAULT_CONFIG (localStorage set)
                    (site "/app") in
  let out' := getUser JSON_stringify JSON_parse transport false None reloaded in
  (result out = Normal U /\ _token (after out) = Some "new"
   /\ fetches (after out) = 0)
  /\ (_token set = Some "new" /\ _user set = JNull
      /\ items (localStorage set) !! "inmapper_auth_user" = Some s)
  /\ (result out' = Normal U /\ _token (after out') = Some "new"
      /\ fetches (after out') = 0).
Proof.
  intros Hp Hu Hs store w out held set reloaded out'.
  assert (Hs' := Hs). assert (Hu' := Hu).
  vm_compute in Hs'. vm_compute in Hu'.
  split; [|split].
  - unfold out, w, store. vm_compute. rewrite Hs', Hp.
    vm_compute. rewrite Hu'. vm_compute. auto.
  - unfold set, held, store. vm_compute. auto.
  - unfold out', reloaded, set, held, store. vm_compute. rewrite Hs', Hp.
    vm_compute. rewrite Hu'. vm_compute. auto.
Qed.

End Stale.

(** ** The OTP entry page: what the code guarantees *)

Section Entry.

Import VerifyOTP.

Variable JSON_stringify : jsval -> string.
Variable verifyOTP : string -> string -> option string -> verify_response.
Variable callback_with_token : string -> string -> option string.

Abbreviation handleVerify' :=
  (handleVerify JSON_stringify verifyOTP callback_with_token).
Abbreviation handleChange' :=
  (handleChange JSON_stringify verifyOTP callback_with_token).
Abbreviation handlePaste' :=
  (handlePaste JSON_stringify verifyOTP callback_with_token).
Abbreviation handleKeyDown_paste' :=
  (handleKeyDown_paste JSON_stringify verifyOTP callback_with_token).

Lemma verify_calls_app es es' :
  verify_calls (es ++ es') = (verify_calls es ++ verify_calls es')%list.
Proof. apply omap_app. Qed.

(** handleVerify with a six-character code calls the API once. *)
Lemma handleVerify_calls_once code p :
  String.length code = 6 ->
  verify_calls (effects (handleVerify' code p))
  = (verify_calls (effects p) ++ [code])%list.
Proof.
  intros Hlen. unfold handleVerify. rewrite Hlen. simpl negb. cbv iota zeta.
  destruct (verifyOTP _ _ _) as [token user|err].
  - unfold on_verified. simpl.
    repeat match goal with
           | |- context [setItem_throws ?st ?k ?v] =>
               destruct (setItem_throws st k v); simpl
           | |- context [match callbackUrl ?a with _ => _ end] =>
               destruct (callbackUrl a) as [cb|]; simpl
           | |- context [str_truthy ?cb] => destruct (str_truthy cb); simpl
           | |- context [callback_with_token ?a ?b] =>
               destruct (callback_with_token a b); simpl
           end;
      rewrite ?verify_calls_app; simpl; rewrite ?app_nil_r; reflexivity.
  - simpl. rewrite !verify_calls_app. simpl. rewrite app_nil_r. reflexivity.
Qed.

Lemma single_digit_length d : single_digit d = true -> String.length d = 1.
Proof. destruct d as [|c [|c' d]]; simpl; auto; discriminate. Qed.

Lemma single_digit_truthy d : single_digit d = true -> str_truthy d = true.
Proof. destruct d as [|c [|c' d]]; simpl; auto; discriminate. Qed.

Lemma digits_of_single text :
  Forall (fun d => single_digit d = true) (digits_of text).
Proof.
  induction text as [|c text IH]; simpl; [constructor|].
  destruct (is_digit c) eqn:Hc; [constructor; simpl; auto | exact IH].
Qed.

Lemma length_append (s1 s2 : string) :
  String.length (s1 ++ s2) = String.length s1 + String.length s2.
Proof. induction s1 as [|c s1 IH]; simpl; [reflexivity | rewrite IH; reflexivity]. Qed.

Lemma join_length l :
  Forall (fun d => single_digit d = true) l ->
  String.length (join l) = length l.
Proof.
  induction 1 as [|d l Hd _ IH]; [reflexivity|].
  simpl. rewrite length_append.
  rewrite (single_digit_length d Hd), IH. reflexivity.
Qed.

Lemma fill_all digits slots :
  length digits = 6 -> length slots = 6 -> fill 0 digits slots = digits.
Proof.
  intros Hd Hs.
  destruct digits as [|d0 [|d1 [|d2 [|d3 [|d4 [|d5 [|]]]]]]]; try discriminate.
  destruct slots as [|s0 [|s1 [|s2 [|s3 [|s4 [|s5 [|]]]]]]]; try discriminate.
  reflexivity.
Qed.

End Entry.

(** ** The theorems at concrete inputs *)

Lemma getUser_clears_only_on_invalid_witness :
  opt_truthy (_token (after (init sample_stringify sample_parse signed_in)))
  = true
  /\ served_from_cache false None
       (after (init sample_stringify sample_parse signed_in)) = false
  /\ result (getUser sample_stringify sample_parse offline false None signed_in)
     = Normal JNull
  /\ session (after (getUser sample_stringify sample_parse offline false None
                       signed_in))
     = session signed_in.
Proof.
  split; [reflexivity|]. split; [reflexivity|].
  apply (proj1 (getUser_clears_only_on_invalid sample_stringify sample_parse
                  offline false None signed_in eq_refl eq_refl)).
  left. reflexivity.
Defined.

Lemma stale_user_survives_token_change_witness :
  sample_parse "{sample user}" = Some sample_user
  /\ truthy sample_user = true
  /\ result (getUser sample_stringify sample_parse offline false None
               (new_InmapperAuth DEFAULT_CONFIG
                  (working_store {[ "inmapper_auth_token" := "old";
                                    "inmapper_auth_user" := "{sample user}" ]})
                  (site "/app?token=new")))
     = Normal sample_user.
Proof.
  split; [reflexivity|]. split; [reflexivity|].
  apply (stale_user_survives_token_change sample_stringify sample_parse offline
           "{sample user}" sample_user); reflexivity.
Defined.

Lemma protect_denied_without_login_witness :
  opt_truthy (opt_or (Some "admin") (resourceId (config signed_in))) = true
  /\ opt_truthy (_token (after (init sample_stringify sample_parse signed_in)))
     = true
  /\ exists w' l,
       protect sample_stringify sample_parse (answering no_access)
         (Some "admin") signed_in = (Normal JNull, w')
       /\ trace w' = (trace signed_in ++ l ++ [EDenialView sample_user])%list
       /\ forallb not_login_redirect l = true.
Proof.
  split; [reflexivity|]. split; [reflexivity|].
  apply (protect_denied_without_login sample_stringify sample_parse
           (answering no_access) (Some "admin") signed_in sample_user);
    reflexivity.
Defined.

Lemma hasPermission_always_validates_witness :
  opt_truthy (Some "billing") = true
  /\ opt_truthy (_token (after (init sample_stringify sample_parse signed_in)))
     = true
  /\ fetches (after (hasPermission sample_stringify sample_parse offline
                       (Some "billing")
                       (after (hasPermission sample_stringify sample_parse
                                 offline (Some "billing") signed_in))))
     = fetches signed_in + 2.
Proof.
  split; [reflexivity|]. split; [reflexivity|].
  apply (hasPermission_always_validates sample_stringify sample_parse offline
           (Some "billing") signed_in); reflexivity.
Defined.

Lemma protect_twice_served_from_cache_witness :
  opt_truthy (_token (after (init sample_stringify sample_parse cached))) = true
  /\ truthy (_user (after (init sample_stringify sample_parse cached))) = true
  /\ opt_truthy (opt_or None (resourceId (config cached))) = false
  /\ fetches (after (protect sample_stringify sample_parse offline None
                       (after (protect sample_stringify sample_parse offline
                                 None cached))))
     = fetches cached.
Proof.
  split; [reflexivity|]. split; [reflexivity|]. split; [reflexivity|].
  apply (protect_twice_served_from_cache sample_stringify sample_parse offline
           None cached); reflexivity.
Defined.

(** ** Where the stated claims fail *)

(** C5 as stated fails: without a token, hasPermission('billing')
    answers false without any request; and with an empty resourceId the
    request is not scoped to a resource. *)
Lemma hasPermission_without_token_skips_network :
  result (hasPermission sample_stringify sample_parse (answering no_access)
            (Some "billing") signed_out) = Normal false
  /\ fetches (after (hasPermission sample_stringify sample_parse
                       (answering no_access) (Some "billing") signed_out))
     <> fetches signed_out + 1
  /\ trace (after (hasPermission sample_stringify sample_parse
                     (answering no_access) (Some "billing") signed_out)) = []
  /\ validate_body (Some "T") (Some "") = JObj [("token", JStr "T")].
Proof.
  vm_compute. repeat split; discriminate.
Qed.

(** ** The session manager: further properties *)

Section SessionMore.

Variable JSON_stringify : jsval -> string.
Variable JSON_parse : string -> option jsval.
Variable transport : list event -> option Response.

Abbreviation init' := (init JSON_stringify JSON_parse).
Abbreviation getUser' := (getUser JSON_stringify JSON_parse transport).
Abbreviation protect' := (protect JSON_stringify JSON_parse transport).
Abbreviation hasPermission' :=
  (hasPermission JSON_stringify JSON_parse transport).
Abbreviation isAuthenticated' :=
  (isAuthenticated JSON_stringify JSON_parse transport).
Abbreviation verdict_at w r :=
  (verdict_of (transport (trace (emit (validate_request JSON_stringify w r) w)))).

Lemma local_stays e : is_local e = true -> stays_on_page e = true.
Proof. unfold stays_on_page. intros ->. reflexivity. Qed.

Lemma note_stays e : is_validation_note e = true -> stays_on_page e = true.
Proof. unfold stays_on_page. intros ->. rewrite !orb_true_r. reflexivity. Qed.

(** getUser with any arguments, from any world. *)
Lemma getUser_total f r w :
  exists a w',
    getUser' f r w = (Normal a, w')
    /\ fixed w w' /\ _initialized w' = true
    /\ grew stays_on_page w w'
    /\ (a = JNull \/ truthy a = true).
Proof.
  destruct (init_run JSON_stringify JSON_parse w)
    as (w0 & Hinit & _ & (F & Hi & _ & G0)).
  rewrite (getUser_after_init _ _ _ f r w w0 Hinit Hi).
  assert (G0' : grew stays_on_page w w0)
    by (eapply grew_weaken; [apply local_stays | exact G0]).
  destruct (opt_truthy (_token w0)) eqn:Ht.
  - destruct (served_from_cache f r w0) eqn:Hc.
    + exists (_user w0), w0. split; [apply getUser_cached; auto|].
      repeat split; try apply F; auto.
      right. unfold served_from_cache in Hc.
      destruct (truthy (_user w0)); [reflexivity | discriminate].
    + destruct (getUser_validates JSON_stringify JSON_parse transport
                  f r w0 Hi Ht Hc) as (a & w' & Hg & Ho).
      exists a, w'. split; [exact Hg|].
      pose proof (validation_outcome_memory _ _ _ _ _ _ Ho) as (F1 & I1 & _).
      pose proof (validation_outcome_trace _ _ _ _ _ _ Ho) as G1.
      split; [eapply fixed_trans; [exact F|]; exact F1|].
      split; [rewrite I1; exact Hi|]. split.
      * eapply grew_trans; [exact G0'|]. eapply grew_trans.
        -- apply (grew_emit stays_on_page
                    (validate_request JSON_stringify w0 r)). reflexivity.
        -- eapply grew_weaken; [apply note_stays | exact G1].
      * unfold validation_outcome in Ho.
        destruct (verdict_of _) as [e| |u acc] eqn:Hv.
        -- left. apply Ho.
        -- left. apply Ho.
        -- right. destruct Ho as (-> & _). unfold validated_result.
           destruct (opt_truthy r); [reflexivity|].
           eapply verdict_valid_truthy. exact Hv.
  - exists JNull, w0. split; [apply getUser_no_token; auto|].
    repeat split; try apply F; auto.
Qed.

Lemma login_normal cb w :
  login cb w
  = (Normal tt,
     emit (ENavigate (loginUrl (config w) ++ "?callback=" ++
                      encodeURIComponent
                        (if opt_truthy cb then render cb
                         else location_href (location w)))) w).
Proof. reflexivity. Qed.

Lemma _redirectToLogin_normal w :
  exists w', _redirectToLogin w = (Normal tt, w')
             /\ fixed w w' /\ memory w' = memory w
             /\ trace w' = (trace w ++ login_redirect_events w)%list
             /\ localStorage w' = localStorage w.
Proof.
  unfold _redirectToLogin, login_redirect_events, login_address.
  js_unfold. unfold login. js_unfold. simpl.
  destruct (hooks (config w) onAuthRequired); simpl;
    [destruct (autoRedirect (config w)); simpl|];
    eexists; (split; [reflexivity|]); simpl; repeat split;
    rewrite <- ?app_assoc; reflexivity.
Qed.


Lemma protect_total o w :
  exists a w', protect' o w = (Normal a, w') /\ _initialized w' = true.
Proof.
  pose (Q := fun (_ : jsval) (w' : world) => _initialized w' = true).
  assert (Hwp : wp (protect' o) w Q no_throw).
  { unfold protect. apply wp_bind.
    destruct (init_run JSON_stringify JSON_parse w)
      as (w0 & Hinit & _ & _).
    eapply normal_wp; [exact Hinit|].
    apply wp_bind, wp_gets, wp_bind.
    destruct (getUser_total false (opt_or o (resourceId (config w0))) w0)
      as (a & w1 & Hg & _ & Hi & _ & Ha).
    eapply normal_wp; [exact Hg|].
    destruct (truthy a) eqn:Hta; cbn [negb]; cbv iota.
    - assert (Hp : forall k, get_prop a k = inr (get_prop_opt a k)).
      { intros k. unfold get_prop_opt.
        destruct a; simpl in *; try discriminate; reflexivity. }
      apply wp_bind, wp_prop; [intros e He; rewrite Hp in He; discriminate|].
      intros x _.
      destruct (is_false x).
      + apply wp_bind, wp_prop; [intros e He; rewrite Hp in He; discriminate|].
        intros y _. apply wp_bind. unfold _handleAccessDenied.
        apply wp_bind, wp_gets.
        destruct (hooks (config w1) onAccessDenied).
        * apply wp_call_hook, wp_ret. exact Hi.
        * apply wp_modify, wp_ret. exact Hi.
      + apply wp_bind, wp_prop; [intros e He; rewrite Hp in He; discriminate|].
        intros y _. apply wp_ret. exact Hi.
    - apply wp_bind.
      destruct (_redirectToLogin_normal w1) as (w2 & Hr & _ & M & _ & _).
      eapply normal_wp; [exact Hr|]. apply wp_ret. unfold Q.
      unfold memory in M. injection M as _ _ M. rewrite M. exact Hi. }
  destruct (wp_normal _ _ _ Hwp) as (a & w' & Heq & H). eauto.
Qed.

Lemma logout_total b w :
  exists w', logout JSON_stringify transport b w = (Normal tt, w')
             /\ _token w' = None /\ _user w' = JNull
             /\ fixed w w'
             /\ items (localStorage w') = cleared_items w.
Proof.
  pose (Q := fun (_ : unit) (w' : world) =>
               _token w' = None /\ _user w' = JNull /\ fixed w w'
               /\ items (localStorage w') = cleared_items w).
  assert (Hwp : wp (logout JSON_stringify transport b) w Q no_throw).
  { assert (Hrest : forall w1,
              fixed w w1 -> items (localStorage w1) = items (localStorage w) ->
              wp (_clearAuth ;; when b (login None)) w1 Q no_throw).
    { intros w1 F It. apply wp_bind, _clearAuth_wp.
      intros w2 (F2 & T2 & U2 & _ & _ & It2 & _).
      assert (HQ : forall w3, _token w3 = None -> _user w3 = JNull ->
                    fixed w2 w3 ->
                    items (localStorage w3) = items (localStorage w2) ->
                    Q tt w3).
      { intros w3 T3 U3 F3 It3. unfold Q.
        split; [exact T3|]. split; [exact U3|]. split.
        - eapply fixed_trans; [exact F|]. eapply fixed_trans; eassumption.
        - rewrite It3, It2. unfold cleared_items.
          destruct F as (-> & _ & _ & ->). rewrite It. reflexivity. }
      destruct b; unfold when.
      - eapply normal_wp; [apply login_normal|].
        apply HQ; auto. repeat split.
      - apply wp_ret. apply HQ; auto. apply fixed_refl. }
    unfold logout. apply wp_bind, wp_gets, wp_bind.
    destruct (opt_truthy (_token w)); unfold when at 1.
    - apply wp_try_catch, wp_bind, wp_gets, wp_bind, wp_gets, wp_bind.
      cbv beta. apply wp_window_fetch.
      + intros _. apply wp_console_error, Hrest; repeat split.
      + intros resp _. apply wp_ret, Hrest; repeat split.
    - apply wp_ret, Hrest; repeat split. }
  destruct (wp_normal _ _ _ Hwp) as ([] & w' & Heq & H). eauto.
Qed.

(** protect once getUser has answered. *)
Lemma protect_of_result o w w0 a w1 :
  init' w = (Normal tt, w0) -> fixed w w0 ->
  getUser' false (opt_or o (resourceId (config w))) w0 = (Normal a, w1) ->
  config w1 = config w ->
  if truthy a then
    exists w2, protect' o w = (Normal (protect_of_cached a), w2)
               /\ memory w2 = memory w1 /\ config w2 = config w1
               /\ localStorage w2 = localStorage w1
               /\ grew is_denial w1 w2
  else
    exists w2, protect' o w = (Normal JNull, w2)
               /\ memory w2 = memory w1 /\ config w2 = config w1
               /\ localStorage w2 = localStorage w1
               /\ trace w2 = (trace w1 ++ login_redirect_events w1)%list.
Proof.
  intros Hinit (Fc & _) Hg Hc1.
  assert (Hstart : forall Q,
            wp (result <- getUser' false (opt_or o (resourceId (config w))) ;;
                if negb (truthy result) then _redirectToLogin ;; ret JNull
                else
                  access <- prop result "hasResourceAccess" ;;
                  if is_false access then
                    user <- prop result "user" ;;
                    _handleAccessDenied user ;; ret JNull
                  else user <- prop result "user" ;; ret (js_or user result))
               w0 Q no_throw ->
            wp (protect' o) w Q no_throw).
  { intros Q H. unfold protect. apply wp_bind.
    eapply normal_wp; [exact Hinit|].
    apply wp_bind, wp_gets. rewrite Fc. exact H. }
  destruct (truthy a) eqn:Hta.
  - pose (Q := fun (v : jsval) (w2 : world) =>
                 v = protect_of_cached a
                 /\ memory w2 = memory w1 /\ config w2 = config w1
                 /\ localStorage w2 = localStorage w1
                 /\ grew is_denial w1 w2).
    assert (Hwp : wp (protect' o) w Q no_throw).
    { apply Hstart. apply wp_bind. eapply normal_wp; [exact Hg|].
      rewrite Hta. cbn [negb]. cbv iota.
      assert (Hp : forall k, get_prop a k = inr (get_prop_opt a k)).
      { intros k. unfold get_prop_opt.
        destruct a; simpl in *; try discriminate; reflexivity. }
      apply wp_bind, wp_prop; [intros e He; rewrite Hp in He; discriminate|].
      intros x Hx. rewrite Hp in Hx. injection Hx as <-.
      unfold Q, protect_of_cached.
      destruct (is_false (get_prop_opt a "hasResourceAccess")).
      - apply wp_bind, wp_prop; [intros e He; rewrite Hp in He; discriminate|].
        intros x Hx. rewrite Hp in Hx. injection Hx as <-.
        apply wp_bind. unfold _handleAccessDenied. apply wp_bind, wp_gets.
        destruct (hooks (config w1) onAccessDenied).
        + apply wp_call_hook, wp_ret. repeat split.
          apply grew_emit. reflexivity.
        + apply wp_modify, wp_ret. repeat split.
          apply grew_emit. reflexivity.
      - apply wp_bind, wp_prop; [intros e He; rewrite Hp in He; discriminate|].
        intros x Hx. rewrite Hp in Hx. injection Hx as <-.
        apply wp_ret. repeat split. apply grew_refl. }
    destruct (wp_normal _ _ _ Hwp) as (v & w2 & Heq & (-> & H)). eauto.
  - pose (Q := fun (v : jsval) (w2 : world) =>
                 v = JNull
                 /\ memory w2 = memory w1 /\ config w2 = config w1
                 /\ localStorage w2 = localStorage w1
                 /\ trace w2 = (trace w1 ++ login_redirect_events w1)%list).
    assert (Hwp : wp (protect' o) w Q no_throw).
    { apply Hstart. apply wp_bind. eapply normal_wp; [exact Hg|].
      rewrite Hta. cbn [negb]. cbv iota. apply wp_bind.
      destruct (_redirectToLogin_normal w1) as (w2 & Hr & (F2 & _) & M & T & L).
      eapply normal_wp; [exact Hr|]. apply wp_ret. repeat split; auto. }
    destruct (wp_normal _ _ _ Hwp) as (v & w2 & Heq & (-> & H)). eauto.
Qed.

(** X3. protect on a session that holds no token once initialised:
    it returns null without any request; it calls the onAuthRequired
    hook if one is configured and then navigates to the login page,
    except when that hook is configured and autoRedirect is off.
    Without the hook the navigation happens even when autoRedirect is
    off. The token, the user and the store are left as init left
    them. *)
Theorem protect_without_token_goes_to_login
  (options_resourceId : option string) (w : world) :
  let w0 := after (init' w) in
  opt_truthy (_token w0) = false ->
  exists w',
    protect' options_resourceId w = (Normal JNull, w')
    /\ trace w' = (trace w0 ++ login_redirect_events w0)%list
    /\ session w' = session w0
    /\ fetches w' = fetches w.
Proof.
  intros w0 Ht.
  destruct (init_run JSON_stringify JSON_parse w)
    as (w0' & Hinit & Hw0 & (F & Hi & _ & G0)).
  fold w0 in Hw0. subst w0'.
  pose proof (getUser_no_token JSON_stringify JSON_parse transport false
                (opt_or options_resourceId (resourceId (config w))) w0 Hi Ht)
    as Hg.
  pose proof (protect_of_result options_resourceId w w0 JNull w0 Hinit F Hg
                (proj1 F)) as H.
  simpl in H. destruct H as (w2 & Hp & M & C & L & T).
  exists w2. split; [exact Hp|]. split; [exact T|].
  unfold memory in M. injection M as Mt Mu Mi.
  split; [unfold session; rewrite Mt, Mu, L; reflexivity|].
  unfold fetches. rewrite T, List.filter_app, length_app.
  assert (List.filter is_fetch (login_redirect_events w0) = []) as ->.
  { unfold login_redirect_events.
    destruct (hooks (config w0) onAuthRequired);
      [destruct (autoRedirect (config w0))|]; reflexivity. }
  simpl. rewrite Nat.add_0_r.
  apply grew_fetches. eapply grew_weaken; [apply local_not_fetch | exact G0].
Qed.

(** X4. protect when the validation it attempts does not confirm the
    token (the request or its body fails, or the answer is invalid):
    it returns null and ends on the login path of X3. After a failed
    request the token is still held, so the user is sent to the login
    page although the session was not cleared; after an invalid answer
    the token is gone. *)
Theorem protect_unconfirmed_goes_to_login
  (options_resourceId : option string) (w : world) :
  let w0 := after (init' w) in
  let rid := opt_or options_resourceId (resourceId (config w)) in
  opt_truthy (_token w0) = true ->
  served_from_cache false rid w0 = false ->
  (forall u a, verdict_at w0 rid <> Valid u a) ->
  exists w1 w',
    getUser' false rid w = (Normal JNull, w1)
    /\ protect' options_resourceId w = (Normal JNull, w')
    /\ trace w' = (trace w1 ++ login_redirect_events w1)%list
    /\ _token w' = match verdict_at w0 rid with
                   | Invalid => None
                   | _ => _token w0
                   end.
Proof.
  intros w0 rid Ht Hc Hnv.
  destruct (init_run JSON_stringify JSON_parse w)
    as (w0' & Hinit & Hw0 & (F & Hi & _ & G0)).
  fold w0 in Hw0. subst w0'.
  destruct (getUser_validates JSON_stringify JSON_parse transport
              false rid w0 Hi Ht Hc) as (a & w1 & Hg & Ho).
  pose proof (validation_outcome_memory _ _ _ _ _ _ Ho) as ((Fc1 & _) & _ & T1).
  assert (Ha : a = JNull).
  { unfold validation_outcome in Ho.
    destruct (verdict_of _) as [e| |u acc] eqn:Hv; try apply Ho.
    exfalso. apply (Hnv u acc). reflexivity. }
  subst a.
  assert (Hc1 : config w1 = config w).
  { rewrite Fc1. simpl. apply F. }
  pose proof (protect_of_result options_resourceId w w0 JNull w1 Hinit F Hg Hc1)
    as H.
  simpl in H. destruct H as (w2 & Hp & M & C & L & T).
  exists w1, w2.
  split; [rewrite (getUser_after_init _ _ _ _ _ w w0 Hinit Hi); exact Hg|].
  split; [exact Hp|]. split; [exact T|].
  unfold memory in M. injection M as Mt _ _. rewrite Mt. exact T1.
Qed.

(** X5. protect on a session that holds a token but no cached user,
    with no resource in effect, when the server's answer is valid: the
    first protect issues one validation request and caches the user,
    a second protect right after it issues none; both give the same
    result. *)
Theorem protect_validates_once_then_caches
  (options_resourceId : option string) (w : world) (u access : jsval) :
  let w0 := after (init' w) in
  let out1 := protect' options_resourceId w in
  let out2 := protect' options_resourceId (after out1) in
  opt_truthy (_token w0) = true ->
  truthy (_user w0) = false ->
  opt_truthy (opt_or options_resourceId (resourceId (config w))) = false ->
  verdict_at w0 None = Valid u access ->
  result out1 = Normal (protect_of_cached u)
  /\ result out2 = Normal (protect_of_cached u)
  /\ _user (after out1) = u
  /\ fetches (after out1) = fetches w + 1
  /\ fetches (after out2) = fetches w + 1.
Proof.
  intros w0 out1 out2 Ht Hu Hr Hv.
  destruct (init_run JSON_stringify JSON_parse w)
    as (w0' & Hinit & Hw0 & (F & Hi & _ & G0)).
  fold w0 in Hw0. subst w0'.
  pose proof F as (Fc & _).
  set (rid := opt_or options_resourceId (resourceId (config w))) in *.
  assert (Hc : served_from_cache false rid w0 = false).
  { unfold served_from_cache. rewrite Hu. reflexivity. }
  destruct (getUser_validates JSON_stringify JSON_parse transport
              false rid w0 Hi Ht Hc) as (a & w1 & Hg & Ho).
  pose proof (validation_outcome_memory _ _ _ _ _ _ Ho) as ((Fc1 & _) & I1 & T1).
  pose proof (validation_outcome_trace _ _ _ _ _ _ Ho) as G1.
  assert (Hreq : validate_request JSON_stringify w0 rid
                 = validate_request JSON_stringify w0 None).
  { unfold validate_request, validate_body. rewrite Hr. reflexivity. }
  unfold validation_outcome in Ho. rewrite Hreq, Hv in Ho, T1.
  destruct Ho as (-> & w1' & (_ & M1 & _) & ->).
  unfold validated_result in *. rewrite Hr in *.
  pose proof (verdict_valid_truthy _ _ _ Hv) as Htu.
  assert (Hu1 : _user (announced u w1') = u).
  { pose proof (memory_announced u w1') as Hm. rewrite M1 in Hm.
    unfold memory in Hm. simpl in Hm. injection Hm as _ Hm _. exact Hm. }
  assert (Hc1 : config (announced u w1') = config w).
  { rewrite Fc1. simpl. exact Fc. }
  pose proof (protect_of_result options_resourceId w w0 u _ Hinit F Hg Hc1)
    as H.
  rewrite Htu in H. destruct H as (w2 & Hp & M2 & C2 & L2 & G2).
  unfold out2, out1. rewrite Hp. simpl result. simpl after.
  unfold memory in M2. injection M2 as Mt Mu Mi.
  assert (Ht2 : opt_truthy (_token w2) = true) by (rewrite Mt, T1; exact Ht).
  assert (Hu2 : truthy (_user w2) = true) by (rewrite Mu, Hu1; exact Htu).
  assert (Hi2 : _initialized w2 = true).
  { rewrite Mi, I1. simpl. exact Hi. }
  assert (Hr2 : opt_truthy (opt_or options_resourceId (resourceId (config w2)))
                = false).
  { rewrite C2, Hc1. exact Hr. }
  destruct (protect_cached JSON_stringify JSON_parse transport
              options_resourceId w2 Hi2 Ht2 Hu2 Hr2)
    as (w3 & Hp3 & M3 & C3 & G3).
  rewrite Hp3. simpl. rewrite Mu, Hu1.
  assert (Hf0 : fetches w0 = fetches w).
  { apply grew_fetches. eapply grew_weaken; [apply local_not_fetch | exact G0]. }
  assert (Hf1 : fetches (announced u w1') = fetches w + 1).
  { rewrite <- Hf0.
    rewrite <- (fetches_emit_fetch (apiUrl (config w0) ++ "/auth/validate")
                  {| method := Some "POST"; headers := json_headers;
                     body := Some (JSON_stringify
                                     (validate_body (_token w0) rid)) |}).
    apply grew_fetches.
    eapply grew_weaken; [apply validation_note_not_fetch | exact G1]. }
  assert (Hf2 : fetches w2 = fetches w + 1).
  { rewrite <- Hf1. apply grew_fetches.
    eapply grew_weaken; [apply denial_not_fetch | exact G2]. }
  assert (Hf3 : fetches w3 = fetches w + 1).
  { rewrite <- Hf2. apply grew_fetches.
    eapply grew_weaken; [apply denial_not_fetch | exact G3]. }
  auto.
Qed.


(** _loadFromStorage, whatever localStorage does. *)
Lemma _loadFromStorage_reads w :
  let st := localStorage w in
  let c := config w in
  exists w',
    _loadFromStorage JSON_parse w = (Normal tt, w')
    /\ loaded w w'
    /\ _token w' = (if getItem_throws st (tokenKey c) then _token w
                    else items st !! tokenKey c)
    /\ _user w' = (if getItem_throws st (tokenKey c)
                      || getItem_throws st (userKey c) then _user w
                   else loaded_user JSON_parse (items st !! userKey c) (_user w)).
Proof.
  intros st c. subst st c.
  destruct (_loadFromStorage_normal JSON_parse w) as (w' & Heq & L).
  exists w'. split; [exact Heq|]. split; [exact L|]. clear L.
  revert Heq. unfold _loadFromStorage, localStorage_getItem, loaded_user.
  js_unfold. js_unfold. simpl.
  destruct (getItem_throws (localStorage w) (tokenKey (config w))); simpl.
  { intros Hw. apply (f_equal snd) in Hw. simpl in Hw. subst w'.
    split; reflexivity. }
  destruct (getItem_throws (localStorage w) (userKey (config w))); simpl.
  { intros Hw. apply (f_equal snd) in Hw. simpl in Hw. subst w'.
    split; reflexivity. }
  destruct (items (localStorage w) !! userKey (config w)) as [s|]; simpl.
  - destruct (str_truthy s); simpl.
    + destruct (JSON_parse s); simpl; intros Hw; apply (f_equal snd) in Hw;
        simpl in Hw; subst w'; split; reflexivity.
    + intros Hw. apply (f_equal snd) in Hw. simpl in Hw. subst w'.
      split; reflexivity.
  - intros Hw. apply (f_equal snd) in Hw. simpl in Hw. subst w'.
    split; reflexivity.
Qed.

Lemma init_reads (w : world) :
  let st := localStorage w in
  let c := config w in
  let w0 := after (init' w) in
  _initialized w = false ->
  opt_truthy (tokenFromUrl w) = false ->
  result (init' w) = Normal tt
  /\ _token w0 = (if getItem_throws st (tokenKey c) then _token w
                  else items st !! tokenKey c)
  /\ _user w0 = (if getItem_throws st (tokenKey c)
                    || getItem_throws st (userKey c) then _user w
                 else loaded_user JSON_parse (items st !! userKey c) (_user w))
  /\ items (localStorage w0) = items st
  /\ location w0 = location w
  /\ grew is_console w w0.
Proof.
  intros st c w0 Hi Hu. subst st c.
  destruct (init_first JSON_stringify JSON_parse w Hi)
    as (w1 & w2 & H1 & H2 & _ & Hinit).
  rewrite (_handleCallbackToken_skips JSON_stringify w Hu) in H1.
  injection H1 as <-.
  destruct (_loadFromStorage_reads w) as (w2' & H2' & L & Ht & Hus).
  rewrite H2 in H2'. injection H2' as <-.
  unfold w0. rewrite Hinit. simpl.
  destruct L as (_ & _ & Lo & It & G).
  split; [reflexivity|]. split; [exact Ht|]. split; [exact Hus|].
  split; [exact It|]. split; [exact Lo|].
  destruct G as (l & Tl & Hl). exists l. split; [exact Tl | exact Hl].
Qed.

(** X6. The first init of an instance whose address carries no token
    reads the store: the token in memory becomes the stored one (null
    when the key is missing) and the user becomes the parsed stored
    user (null when the entry is missing or empty). Whatever fails is
    logged and not thrown: when reading the token throws, the token and
    the user stay as they were; when reading the user throws, or the
    stored user is not JSON, the token is replaced all the same and the
    user stays as it was. The store itself is not changed. *)
Theorem init_reads_the_store (w : world) :
  let st := localStorage w in
  let c := config w in
  let w0 := after (init' w) in
  _initialized w = false ->
  opt_truthy (tokenFromUrl w) = false ->
  result (init' w) = Normal tt
  /\ _token w0 = (if getItem_throws st (tokenKey c) then _token w
                  else items st !! tokenKey c)
  /\ _user w0 = (if getItem_throws st (tokenKey c)
                    || getItem_throws st (userKey c) then _user w
                 else loaded_user JSON_parse (items st !! userKey c) (_user w))
  /\ items (localStorage w0) = items st
  /\ location w0 = location w
  /\ grew is_console w w0.
Proof. apply init_reads. Qed.

Lemma fresh_fetches c st loc : fetches (new_InmapperAuth c st loc) = 0.
Proof. reflexivity. Qed.

(** getUser() on a fresh instance whose address carries no token. *)
Lemma getUser_fresh c st loc :
  let fresh := new_InmapperAuth c st loc in
  opt_truthy (tokenFromUrl fresh) = false ->
  getItem_throws st (tokenKey c) = false ->
  getItem_throws st (userKey c) = false ->
  let t := items st !! tokenKey c in
  let u := loaded_user JSON_parse (items st !! userKey c) JNull in
  exists w0,
    init' fresh = (Normal tt, w0)
    /\ _initialized w0 = true /\ _token w0 = t /\ _user w0 = u
    /\ fetches w0 = 0
    /\ (opt_truthy t = false ->
        getUser' false None fresh = (Normal JNull, w0))
    /\ (opt_truthy t = true -> truthy u = true ->
        getUser' false None fresh = (Normal u, w0)).
Proof.
  intros fresh Hu Hg1 Hg2 t u.
  destruct (init_run JSON_stringify JSON_parse fresh)
    as (w0 & Hinit & Hw0 & (_ & Hi & _)).
  destruct (init_reads fresh eq_refl Hu)
    as (_ & Ht & Hus & _ & _ & G).
  rewrite Hw0 in *. simpl in Ht, Hus. rewrite Hg1 in Ht, Hus.
  rewrite Hg2 in Hus. simpl in Hus.
  assert (Hf : fetches w0 = 0).
  { rewrite <- (fresh_fetches c st loc). apply grew_fetches.
    eapply grew_weaken; [|exact G]. intros []; simpl; try discriminate; auto. }
  exists w0. split; [exact Hinit|]. split; [exact Hi|].
  split; [exact Ht|]. split; [exact Hus|]. split; [exact Hf|]. split.
  - intros Hf'. rewrite (getUser_after_init _ _ _ _ _ fresh w0 Hinit Hi).
    apply getUser_no_token; [exact Hi|]. rewrite Ht. exact Hf'.
  - intros Ht' Hu'. rewrite (getUser_after_init _ _ _ _ _ fresh w0 Hinit Hi).
    fold u in Hus. rewrite <- Hus. apply getUser_cached; [exact Hi| |].
    + rewrite Ht. exact Ht'.
    + unfold served_from_cache. rewrite Hus, Hu'. reflexivity.
Qed.


(** X7. A validated session survives a reload. When getUser has
    validated the token against a valid answer and localStorage accepts
    the two writes, a fresh instance on the resulting store, on a page
    whose address carries no token, returns the same user from its
    first getUser() without any request, under the same token. This
    needs the two storage keys to differ and JSON.parse to read back
    what JSON.stringify wrote. *)
Theorem validated_session_survives_reload
  (forceRefresh : bool) (resourceId : option string) (w : world)
  (t : string) (u access : jsval) (loc : Location) :
  let st := localStorage w in
  let c := config w in
  let w' := after (getUser' forceRefresh resourceId w) in
  let reloaded := new_InmapperAuth c (localStorage w') loc in
  let out := getUser' false None reloaded in
  _initialized w = true ->
  _token w = Some t -> str_truthy t = true ->
  served_from_cache forceRefresh resourceId w = false ->
  verdict_at w resourceId = Valid u access ->
  setItem_throws st (tokenKey c) t = false ->
  setItem_throws st (userKey c) (JSON_stringify u) = false ->
  getItem_throws st (tokenKey c) = false ->
  getItem_throws st (userKey c) = false ->
  tokenKey c <> userKey c ->
  JSON_parse (JSON_stringify u) = Some u ->
  str_truthy (JSON_stringify u) = true ->
  opt_truthy (tokenFromUrl reloaded) = false ->
  result out = Normal u
  /\ _token (after out) = Some t
  /\ fetches (after out) = 0.
Proof.
  intros st c w' reloaded out Hi Ht Htt Hc Hv Hs1 Hs2 Hg1 Hg2 Hk Hp Hsu Hloc.
  assert (Ht' : opt_truthy (_token w) = true) by (rewrite Ht; exact Htt).
  destruct (getUser_validates JSON_stringify JSON_parse transport
              forceRefresh resourceId w Hi Ht' Hc) as (a & w1 & Hg & Ho).
  unfold validation_outcome in Ho. rewrite Hv in Ho.
  destruct Ho as (_ & w2 & (F2 & _ & _ & It2 & _) & ->).
  pose proof (verdict_valid_truthy _ _ _ Hv) as Htu.
  assert (Hw' : w' = announced u w2) by (unfold w'; rewrite Hg; reflexivity).
  assert (Hst : localStorage w' = localStorage w2).
  { rewrite Hw'. unfold announced.
    destruct (hooks (config w2) onAuthSuccess); reflexivity. }
  assert (Hit : items (localStorage w')
                = <[userKey c := JSON_stringify u]>
                    (<[tokenKey c := t]> (items st))).
  { rewrite Hst, It2. unfold saved_items. simpl.
    rewrite Ht, Htt, Htu. fold st c. rewrite Hs1, Hs2. reflexivity. }
  destruct F2 as (_ & Fg & _). simpl in Fg.
  destruct (getUser_fresh c (localStorage w') loc Hloc)
    as (w0 & Hinit & Hi0 & Ht0 & Hu0 & Hf0 & _ & Hcached).
  { rewrite Hst, Fg. exact Hg1. }
  { rewrite Hst, Fg. exact Hg2. }
  rewrite Hit in Ht0, Hu0, Hcached.
  rewrite lookup_insert_ne in Ht0, Hcached by (intros E; apply Hk; auto).
  rewrite !lookup_insert_eq in *.
  unfold loaded_user in Hu0, Hcached. rewrite Hsu, Hp in Hu0, Hcached.
  unfold out, reloaded. rewrite (Hcached Htt Htu). simpl.
  rewrite Ht0, Hf0. auto.
Qed.

(** X8. A logout survives a reload. After logout, when localStorage
    accepts the two removals, a fresh instance on the resulting store,
    on a page whose address carries no token, holds no token: its first
    getUser() returns null without any request. *)
Theorem logout_survives_reload (redirect : bool) (w : world) (loc : Location) :
  let st := localStorage w in
  let c := config w in
  let w' := after (logout JSON_stringify transport redirect w) in
  let reloaded := new_InmapperAuth c (localStorage w') loc in
  let out := getUser' false None reloaded in
  removeItem_throws st (tokenKey c) = false ->
  removeItem_throws st (userKey c) = false ->
  getItem_throws st (tokenKey c) = false ->
  getItem_throws st (userKey c) = false ->
  opt_truthy (tokenFromUrl reloaded) = false ->
  result out = Normal JNull
  /\ _token (after out) = None
  /\ items (localStorage (after out)) !! tokenKey c = None
  /\ items (localStorage (after out)) !! userKey c = None
  /\ fetches (after out) = 0.
Proof.
  intros st c w' reloaded out Hr1 Hr2 Hg1 Hg2 Hloc.
  destruct (logout_total redirect w) as (w1 & Hl & _ & _ & F & It).
  assert (Hw' : w' = w1) by (unfold w'; rewrite Hl; reflexivity).
  unfold cleared_items in It. fold st c in It. rewrite Hr1, Hr2 in It.
  destruct F as (_ & Fg & _).
  destruct (getUser_fresh c (localStorage w') loc Hloc)
    as (w0 & Hinit & Hi0 & Ht0 & Hu0 & Hf0 & Hnone & _).
  { rewrite Hw', Fg. exact Hg1. }
  { rewrite Hw', Fg. exact Hg2. }
  assert (Htk : items (localStorage w') !! tokenKey c = None).
  { rewrite Hw', It.
    destruct (decide (userKey c = tokenKey c)) as [->|Hne].
    - apply lookup_delete_eq.
    - rewrite lookup_delete_ne by exact Hne. apply lookup_delete_eq. }
  assert (Huk : items (localStorage w') !! userKey c = None).
  { rewrite Hw', It. apply lookup_delete_eq. }
  rewrite Htk in Ht0, Hnone.
  unfold out, reloaded. rewrite (Hnone eq_refl). simpl.
  destruct (init_reads (new_InmapperAuth c (localStorage w') loc)
              eq_refl Hloc) as (_ & _ & _ & Iti & _).
  rewrite Hinit in Iti. simpl in Iti.
  rewrite Iti. simpl. auto.
Qed.

End SessionMore.

(** ** The redirect protocol: encoding and decoding *)

Lemma decode_encode_char (c : ascii) (r : string) :
  percent_decode (plus_to_space (encodeURIComponent (String c r)))
  = String c (percent_decode (plus_to_space (encodeURIComponent r))).
Proof.
  destruct c as [[] [] [] [] [] [] [] []]; reflexivity.
Qed.

(** Percent-decoding undoes encodeURIComponent. *)
Lemma decode_encode (s : string) :
  percent_decode (plus_to_space (encodeURIComponent s)) = s.
Proof.
  induction s as [|c s IH]; [reflexivity|].
  rewrite decode_encode_char, IH. reflexivity.
Qed.

Lemma encode_char_safe (c : ascii) (r : string) :
  all_chars url_safe (encodeURIComponent (String c r))
  = all_chars url_safe (encodeURIComponent r).
Proof.
  destruct c as [[] [] [] [] [] [] [] []]; reflexivity.
Qed.

Lemma encode_safe (s : string) : all_chars url_safe (encodeURIComponent s) = true.
Proof.
  induction s as [|c s IH]; [reflexivity|].
  rewrite encode_char_safe. exact IH.
Qed.

Lemma encode_truthy (s : string) :
  str_truthy s = true -> str_truthy (encodeURIComponent s) = true.
Proof.
  destruct s as [|c s]; [discriminate|]. intros _. simpl.
  destruct (unreserved c); reflexivity.
Qed.

Lemma encode_unreserved (s : string) :
  all_chars unreserved s = true -> encodeURIComponent s = s.
Proof.
  induction s as [|c s IH]; [reflexivity|]. simpl.
  intros H. apply andb_true_iff in H as (Hc & Hs).
  rewrite Hc, (IH Hs). reflexivity.
Qed.

Lemma all_chars_app p a b :
  all_chars p (a ++ b) = all_chars p a && all_chars p b.
Proof.
  induction a as [|c a IH]; [reflexivity|]. simpl.
  rewrite IH, andb_assoc. reflexivity.
Qed.

Lemma all_chars_weaken (p q : ascii -> bool) s :
  (forall c, p c = true -> q c = true) ->
  all_chars p s = true -> all_chars q s = true.
Proof.
  intros Hpq. induction s as [|c s IH]; [reflexivity|]. simpl.
  intros H. apply andb_true_iff in H as (Hc & Hs).
  rewrite (Hpq c Hc), (IH Hs). reflexivity.
Qed.

Lemma includes_all_chars x s :
  includes x s = false <-> all_chars (fun c => negb (Ascii.eqb c x)) s = true.
Proof.
  induction s as [|c s IH]; simpl; [tauto|].
  rewrite orb_false_iff, andb_true_iff, negb_true_iff, IH. tauto.
Qed.

Lemma safe_excludes x s :
  url_safe x = false -> all_chars url_safe s = true -> includes x s = false.
Proof.
  intros Hx Hs. apply includes_all_chars.
  eapply all_chars_weaken; [|exact Hs].
  intros c Hc. apply negb_true_iff. apply Ascii.eqb_neq.
  intros ->. rewrite Hx in Hc. discriminate.
Qed.

Lemma take_until_none p s :
  all_chars (fun c => negb (p c)) s = true -> take_until p s = s.
Proof.
  induction s as [|c s IH]; [reflexivity|]. simpl.
  intros H. apply andb_true_iff in H as (Hc & Hs).
  apply negb_true_iff in Hc. rewrite Hc, (IH Hs). reflexivity.
Qed.

Lemma take_until_app p a c b :
  all_chars (fun c => negb (p c)) a = true -> p c = true ->
  take_until p (a ++ String c b) = a.
Proof.
  intros Ha Hc. induction a as [|x a IH]; simpl.
  - rewrite Hc. reflexivity.
  - simpl in Ha. apply andb_true_iff in Ha as (Hx & Ha).
    apply negb_true_iff in Hx. rewrite Hx, (IH Ha). reflexivity.
Qed.

Lemma drop_until_app p a c b :
  all_chars (fun c => negb (p c)) a = true -> p c = true ->
  drop_until p (a ++ String c b) = String c b.
Proof.
  intros Ha Hc. induction a as [|x a IH]; simpl.
  - rewrite Hc. reflexivity.
  - simpl in Ha. apply andb_true_iff in Ha as (Hx & Ha).
    apply negb_true_iff in Hx. rewrite Hx. apply IH, Ha.
Qed.

Lemma take_drop_until p s : take_until p s ++ drop_until p s = s.
Proof.
  induction s as [|c s IH]; [reflexivity|]. simpl.
  destruct (p c); [reflexivity|].
  change (String c (take_until p s ++ drop_until p s) = String c s).
  rewrite IH. reflexivity.
Qed.

Lemma take_until_clean p s :
  all_chars (fun c => negb (p c)) (take_until p s) = true.
Proof.
  induction s as [|c s IH]; [reflexivity|]. simpl.
  destruct (p c) eqn:Hc; simpl; [reflexivity | rewrite Hc, IH; reflexivity].
Qed.

Lemma split_on_cons c s : exists h t, split_on c s = h :: t.
Proof.
  induction s as [|a s (h & t & IH)]; simpl; [eauto|].
  destruct (Ascii.eqb a c); [eauto|]. rewrite IH. eauto.
Qed.

Lemma split_on_app c q r :
  split_on c (q ++ String c r) = (split_on c q ++ split_on c r)%list.
Proof.
  induction q as [|a q IH]; simpl.
  - rewrite Ascii.eqb_refl. reflexivity.
  - destruct (Ascii.eqb a c); [rewrite IH; reflexivity|].
    rewrite IH. destruct (split_on_cons c q) as (h & t & ->). reflexivity.
Qed.

Lemma split_on_none c s : includes c s = false -> split_on c s = [s].
Proof.
  induction s as [|a s IH]; [reflexivity|]. simpl.
  intros H. apply orb_false_iff in H as (Ha & Hs).
  rewrite Ha, (IH Hs). reflexivity.
Qed.

Lemma urlencoded_parse_app q r :
  urlencoded_parse (q ++ String "&" r)
  = (urlencoded_parse q ++ urlencoded_parse r)%list.
Proof.
  unfold urlencoded_parse.
  rewrite split_on_app, List.filter_app, map_app. reflexivity.
Qed.

Lemma params_get_app k l1 l2 :
  params_get k (l1 ++ l2)
  = match params_get k l1 with
    | Some v => Some v
    | None => params_get k l2
    end.
Proof.
  induction l1 as [|[n v] l1 IH]; [reflexivity|]. simpl.
  destruct (String.eqb n k); [reflexivity | exact IH].
Qed.

Lemma includes_app x a b : includes x (a ++ b) = includes x a || includes x b.
Proof.
  induction a as [|c a IH]; [reflexivity|]. simpl.
  rewrite IH, orb_assoc. reflexivity.
Qed.

(** One encoded parameter, parsed back. *)
Lemma urlencoded_parse_single k v :
  all_chars unreserved k = true -> str_truthy k = true ->
  urlencoded_parse (k ++ String "=" (encodeURIComponent v)) = [(k, v)].
Proof.
  intros Hk Hkt.
  assert (Hne : all_chars (fun c => negb (is_char "=" c)) k = true).
  { eapply all_chars_weaken; [|exact Hk].
    intros c Hc. unfold is_char. apply negb_true_iff. apply Ascii.eqb_neq.
    intros ->. discriminate. }
  assert (Hamp : includes "&" (k ++ String "=" (encodeURIComponent v)) = false).
  { rewrite includes_app. simpl.
    rewrite (safe_excludes "&" (encodeURIComponent v) eq_refl (encode_safe v)).
    rewrite (safe_excludes "&" k eq_refl);
      [reflexivity|].
    eapply all_chars_weaken; [|exact Hk].
    intros c Hc. unfold url_safe. rewrite Hc. reflexivity. }
  unfold urlencoded_parse. rewrite (split_on_none _ _ Hamp). simpl.
  assert (str_truthy (k ++ String "=" (encodeURIComponent v)) = true) as ->.
  { destruct k; [discriminate | reflexivity]. }
  simpl. unfold urlencoded_pair.
  rewrite (take_until_app _ k "=" _ Hne eq_refl).
  rewrite (drop_until_app _ k "=" _ Hne eq_refl). simpl.
  rewrite decode_encode.
  rewrite <- (encode_unreserved k Hk) at 1. rewrite decode_encode. reflexivity.
Qed.

Lemma append_assoc (a b c : string) : (a ++ b) ++ c = a ++ (b ++ c).
Proof.
  induction a as [|x a IH]; [reflexivity|]. exact (f_equal (String x) IH).
Qed.

Lemma append_nil_r (a : string) : a ++ "" = a.
Proof.
  induction a as [|x a IH]; [reflexivity|]. exact (f_equal (String x) IH).
Qed.

Lemma has_token_key_app_r x y :
  has_token_key (x ++ y) = false -> has_token_key y = false.
Proof.
  induction x as [|c x IH]; [exact id|].
  change (String c x ++ y) with (String c (x ++ y)).
  rewrite has_token_key_cons. intros H.
  apply orb_false_iff in H as (_ & H). apply IH, H.
Qed.

Lemma drop_until_head p s :
  drop_until p s = "" \/ exists c r, drop_until p s = String c r /\ p c = true.
Proof.
  induction s as [|c s IH]; simpl; [left; reflexivity|].
  destruct (p c) eqn:Hc; [right; eauto | exact IH].
Qed.

Lemma drop_until_empty p s :
  drop_until p s = "" -> all_chars (fun c => negb (p c)) s = true.
Proof.
  induction s as [|c s IH]; [reflexivity|]. simpl.
  destruct (p c); [discriminate|]. exact IH.
Qed.

Lemma no_hash_clean s :
  includes "#" s = false ->
  all_chars (fun c => negb (is_char "#" c)) s = true.
Proof. intros H. apply includes_all_chars. exact H. Qed.

(** The search of an address made of a path without [?] or [#] and a
    non-empty query without [#]. *)
Lemma location_search_query o p q :
  all_chars (fun c => negb (is_query_or_hash c)) p = true ->
  includes "#" q = false -> str_truthy q = true ->
  location_search (mkLocation o (p ++ String "?" q)) = String "?" q.
Proof.
  intros Hp Hq Hqt. unfold location_search. simpl address.
  rewrite (drop_until_app _ p "?" q Hp eq_refl).
  rewrite (take_until_none (is_char "#") (String "?" q));
    [|apply no_hash_clean; simpl; exact Hq].
  destruct q; [discriminate | reflexivity].
Qed.

Lemma location_pathname_query o p c q :
  all_chars (fun c => negb (is_query_or_hash c)) p = true ->
  is_query_or_hash c = true ->
  location_pathname (mkLocation o (p ++ String c q)) = p.
Proof. intros Hp Hc. apply take_until_app; assumption. Qed.

Lemma encoded_param_no_hash k v :
  all_chars unreserved k = true ->
  includes "#" (k ++ String "=" (encodeURIComponent v)) = false.
Proof.
  intros Hk. rewrite includes_app. simpl.
  rewrite (safe_excludes "#" (encodeURIComponent v) eq_refl (encode_safe v)).
  rewrite (safe_excludes "#" k eq_refl); [reflexivity|].
  eapply all_chars_weaken; [|exact Hk].
  intros c Hc. unfold url_safe. rewrite Hc. reflexivity.
Qed.

Section Protocol.

Variable JSON_stringify : jsval -> string.

(** X9. The login redirect reaches the login page. When loginUrl has
    neither a query nor a fragment, login(callbackUrl) navigates to
    loginUrl?callback=<encoded URL>, and the shell of the login page,
    mounted on that address, records exactly the URL that login was
    given (the current page's URL when none was given) as the callback
    to return to, keeping the rest of its state. *)
Theorem login_callback_reaches_the_login_page
  (callbackUrl : option string) (w : world) (o p : string)
  (prev : App.AuthState) :
  let callback := if opt_truthy callbackUrl then render callbackUrl
                  else location_href (location w) in
  let target := p ++ "?callback=" ++ encodeURIComponent callback in
  loginUrl (config w) = o ++ p ->
  all_chars (fun c => negb (is_query_or_hash c)) p = true ->
  str_truthy callback = true ->
  login callbackUrl w = (Normal tt, emit (ENavigate (o ++ target)) w)
  /\ App.capture_callback (location_search (mkLocation o target)) prev
     = App.mkAuthState (App.email prev) (App.pendingVerification prev)
                       (Some callback).
Proof.
  intros callback target Hl Hp Hc. split.
  - unfold login. js_unfold. simpl. fold callback. rewrite Hl.
    unfold target. rewrite append_assoc. reflexivity.
  - unfold target.
    change (p ++ "?callback=" ++ encodeURIComponent callback)
      with (p ++ String "?" ("callback" ++ String "=" (encodeURIComponent callback))).
    rewrite location_search_query;
      [|exact Hp|apply encoded_param_no_hash; reflexivity|reflexivity].
    unfold App.capture_callback, URLSearchParams.
    rewrite (urlencoded_parse_single "callback" callback eq_refl eq_refl).
    simpl. unfold opt_or. simpl. rewrite Hc. simpl. rewrite Hc. reflexivity.
Qed.

(** redirectTo on an origin followed by an address without fragment
    and without a token parameter, and the interceptor on the page
    reached. *)
Lemma handoff_round_trip
  (w d : world) (t o a : string) :
  _token w = Some t -> str_truthy t = true ->
  includes "?" o = false ->
  includes "#" a = false ->
  has_token_key a = false ->
  params_get "token" (URLSearchParams (location_search (mkLocation o a))) = None ->
  location d = mkLocation o (handoff_address a t) ->
  redirectTo (o ++ a) w
  = (Normal tt, emit (ENavigate (o ++ handoff_address a t)) w)
  /\ tokenFromUrl d = Some t
  /\ _token (after (_handleCallbackToken JSON_stringify d)) = Some t
  /\ location (after (_handleCallbackToken JSON_stringify d)) = mkLocation o a.
Proof.
  intros Ht Htt Ho Ha Hk Hnone Hd.
  set (e := encodeURIComponent t).
  assert (He : str_truthy e = true) by (apply encode_truthy; exact Htt).
  assert (Hamp : includes "&" e = false)
    by (apply (safe_excludes "&" e eq_refl), encode_safe).
  assert (Hhash : includes "#" ("token" ++ String "=" e) = false)
    by (apply encoded_param_no_hash; reflexivity).
  assert (Hparse : urlencoded_parse ("token" ++ String "=" e) = [("token", t)])
    by (apply (urlencoded_parse_single "token" t); reflexivity).
  (* the address, as path and query *)
  assert (Hshape :
            exists search' pre sep,
              location_search (location d) = search'
              /\ location_pathname (location d) ++ leading_amp_to_query pre = a
              /\ search' = pre ++ String sep ("token=" ++ e ++ "")
              /\ (Ascii.eqb sep "?" || Ascii.eqb sep "&" = true)
              /\ has_token_key pre = false
              /\ params_get "token" (URLSearchParams search') = Some t).
  { rewrite Hd. unfold handoff_address. fold e.
    pose proof (take_until_clean is_query_or_hash a) as Hp.
    pose proof (take_drop_until is_query_or_hash a) as Hsplit.
    destruct (drop_until_head is_query_or_hash a) as [Hr | (c & r & Hr & Hc)].
    - (* no query *)
      rewrite Hr, append_nil_r in Hsplit. rewrite Hsplit in Hp.
      assert (Hq : includes "?" a = false).
      { apply includes_all_chars. eapply all_chars_weaken; [|exact Hp].
        intros c Hc. unfold is_query_or_hash in Hc.
        apply negb_true_iff in Hc. apply orb_false_iff in Hc as (Hc & _).
        rewrite Hc. reflexivity. }
      rewrite Hq.
      exists (String "?" ("token=" ++ e)), "", "?"%char.
      change (a ++ "?" ++ "token=" ++ e)
        with (a ++ String "?" ("token" ++ String "=" e)).
      split; [apply location_search_query; auto|].
      split; [rewrite (location_pathname_query o a "?" _ Hp eq_refl);
              apply append_nil_r|].
      split; [rewrite append_nil_r; reflexivity|].
      split; [reflexivity|]. split; [reflexivity|].
      unfold URLSearchParams.
      change ("token=" ++ e) with ("token" ++ String "=" e).
      rewrite Hparse. reflexivity.
    - (* a query *)
      assert (Hc' : c = "?"%char).
      { rewrite <- Hsplit, Hr, includes_app in Ha. simpl in Ha.
        apply orb_false_iff in Ha as (_ & Ha).
        apply orb_false_iff in Ha as (Ha & _).
        unfold is_query_or_hash in Hc. rewrite Ha, orb_false_r in Hc.
        apply Ascii.eqb_eq in Hc. exact Hc. }
      subst c. remember (take_until is_query_or_hash a) as p eqn:Heqp.
      clear Heqp. rewrite Hr in Hsplit. clear Hr. subst a.
      assert (Hq : includes "?" (p ++ String "?" r) = true).
      { rewrite includes_app. simpl. apply orb_true_r. }
      rewrite Hq.
      assert (Hrh : includes "#" r = false).
      { rewrite includes_app in Ha. simpl in Ha.
        apply orb_false_iff in Ha as (_ & Ha). exact Ha. }
      exists (String "?" (r ++ String "&" ("token=" ++ e))),
             (String "?" r), "&"%char.
      assert (Hassoc : (p ++ String "?" r) ++ "&" ++ "token=" ++ e
                       = p ++ String "?" (r ++ String "&" ("token" ++ String "=" e))).
      { rewrite append_assoc. reflexivity. }
      rewrite Hassoc.
      assert (Hh2 : includes "#" (r ++ String "&" ("token" ++ String "=" e))
                    = false).
      { rewrite includes_app. simpl includes at 2. rewrite Hrh.
        simpl. exact Hhash. }
      split; [apply location_search_query; auto;
              destruct r; reflexivity|].
      split; [rewrite (location_pathname_query o p "?" _ Hp eq_refl);
              reflexivity|].
      split; [rewrite append_nil_r; reflexivity|].
      split; [reflexivity|].
      split; [apply (has_token_key_app_r p), Hk|].
      unfold URLSearchParams.
      rewrite urlencoded_parse_app, params_get_app.
      change ("token=" ++ e) with ("token" ++ String "=" e).
      rewrite Hparse.
      assert (Hq0 : params_get "token" (urlencoded_parse r) = None).
      { revert Hnone. unfold location_search. simpl address.
        rewrite (drop_until_app _ p "?" r Hp eq_refl).
        rewrite (take_until_none (is_char "#") (String "?" r));
          [|apply no_hash_clean; simpl; exact Hrh].
        destruct r as [|x r]; [reflexivity|].
        simpl String.eqb. cbv iota. unfold URLSearchParams. exact id. }
      rewrite Hq0. reflexivity. }
  destruct Hshape as (search' & pre & sep & Hs & Hpath & Hform & Hsep & Hpre & Hget).
  assert (Htok : tokenFromUrl d = Some t).
  { unfold tokenFromUrl. rewrite Hs. exact Hget. }
  split.
  { unfold redirectTo. js_unfold. simpl. rewrite Ht, Htt.
    unfold handoff_address.
    replace (includes "?" (o ++ a)) with (includes "?" a)
      by (rewrite includes_app, Ho; reflexivity).
    rewrite append_assoc. reflexivity. }
  split; [exact Htok|].
  assert (Hy : opt_truthy (tokenFromUrl d) = true) by (rewrite Htok; exact Htt).
  destruct (_handleCallbackToken_adopts JSON_stringify d Hy)
    as (d' & Heq & (_ & T & _ & _ & _ & L & _)).
  rewrite Heq. simpl after. split; [rewrite T; exact Htok|].
  rewrite L, cleanUrl_eq, Hs, Hform.
  rewrite (remove_token_param_cuts pre sep e "" Hsep Hpre He Hamp eq_refl).
  rewrite append_nil_r, Hpath, Hd. reflexivity.
Qed.

End Protocol.

(** ** The OTP entry page: further properties *)

Section EntryMore.

Import VerifyOTP.

Variable JSON_stringify : jsval -> string.
Variable verifyOTP : string -> string -> option string -> verify_response.
Variable callback_with_token : string -> string -> option string.

Abbreviation handleVerify' :=
  (handleVerify JSON_stringify verifyOTP callback_with_token).
Abbreviation handleChange' :=
  (handleChange JSON_stringify verifyOTP callback_with_token).
Abbreviation handlePaste' :=
  (handlePaste JSON_stringify verifyOTP callback_with_token).
Abbreviation handleKeyDown_paste' :=
  (handleKeyDown_paste JSON_stringify verifyOTP callback_with_token).

(** handleVerify leaves the slots alone or empty_slots them all. *)
Lemma handleVerify_otp code p :
  otp (handleVerify' code p) = otp p \/ otp (handleVerify' code p) = empty_slots.
Proof.
  unfold handleVerify.
  destruct (negb (String.length code =? 6)%nat); [left; reflexivity|].
  cbv zeta. destruct (verifyOTP _ _ _) as [token user|err]; simpl; auto.
  unfold on_verified. simpl.
  repeat match goal with
         | |- context [setItem_throws ?st ?k ?v] =>
             destruct (setItem_throws st k v); simpl; auto
         | |- context [match callbackUrl ?a with _ => _ end] =>
             destruct (callbackUrl a) as [cb|]; simpl; auto
         | |- context [str_truthy ?cb] => destruct (str_truthy cb); simpl; auto
         | |- context [callback_with_token ?a ?b] =>
             destruct (callback_with_token a b); simpl; auto
         end.
Qed.

Lemma well_formed_otp p q :
  well_formed p -> otp q = otp p \/ otp q = empty_slots -> well_formed q.
Proof.
  unfold well_formed. intros (Hl & Hs) [Hq | Hq]; rewrite Hq; split; auto.
Qed.

Lemma fill_length i ds l : length (fill i ds l) = length l.
Proof.
  revert i l. induction ds as [|d ds IH]; intros i l; [reflexivity|].
  simpl. rewrite IH. destruct (i <? 6)%nat; [apply length_insert | reflexivity].
Qed.

Lemma forallb_insert (p : string -> bool) i d (l : list string) :
  p d = true -> forallb p l = true -> forallb p (<[i := d]> l) = true.
Proof.
  intros Hd. revert i. induction l as [|x l IH]; intros i H; [reflexivity|].
  simpl in H. apply andb_true_iff in H as (Hx & Hl).
  destruct i; simpl.
  - rewrite Hd, Hl. reflexivity.
  - rewrite Hx, (IH i Hl). reflexivity.
Qed.

Lemma fill_slots i ds l :
  Forall (fun d => single_digit d = true) ds ->
  forallb slot_ok l = true -> forallb slot_ok (fill i ds l) = true.
Proof.
  intros Hds. revert i l. induction Hds as [|d ds Hd _ IH]; intros i l Hl;
    [exact Hl|].
  simpl. apply IH. destruct (i <? 6)%nat; [|exact Hl].
  apply forallb_insert; [|exact Hl].
  unfold slot_ok. rewrite Hd. apply orb_true_r.
Qed.

(** X11. The six slots stay six slots that are each empty or one
    digit, under every handler of the page: typing or clearing in a
    slot (whatever string the input hands over), pasting any text by
    the paste event or by Ctrl+V, Backspace, and a verification however
    it ends. *)
Theorem slots_stay_well_formed
  (p : page) (index : nat) (value text code : string) :
  well_formed p -> (index < 6)%nat ->
  well_formed (handleChange' index value p)
  /\ well_formed (handlePaste' text p)
  /\ well_formed (handleKeyDown_paste' text p)
  /\ well_formed (handleKeyDown_backspace index p)
  /\ well_formed (handleVerify' code p).
Proof.
  intros W _. pose proof W as (Hl & Hs).
  assert (Hpaste : forall q,
            otp q = fill 0 (take 6 (digits_of text)) (otp p) ->
            well_formed q).
  { intros q Hq. split; rewrite Hq.
    - rewrite fill_length. exact Hl.
    - apply fill_slots; [|exact Hs].
      apply Forall_take, digits_of_single. }
  split; [|split; [|split; [|split]]].
  - unfold handleChange.
    destruct (str_truthy value && negb (single_digit value)) eqn:Hrej;
      [exact W|].
    cbv zeta.
    assert (Hnew : well_formed
                     (setError "" (setOtp (<[index := value]> (otp p)) p))).
    { split; simpl.
      - rewrite length_insert. exact Hl.
      - apply forallb_insert; [|exact Hs]. unfold slot_ok.
        destruct (str_truthy value); [|reflexivity].
        destruct (single_digit value); [reflexivity | discriminate]. }
    match goal with
    | |- well_formed (if ?c then handleVerify' ?code ?q else ?q') =>
        assert (Hq : well_formed q);
        [|destruct c; [|exact Hq];
          eapply well_formed_otp; [exact Hq | apply handleVerify_otp]]
    end.
    destruct (str_truthy value && (index <? 5)%nat); exact Hnew.
  - unfold handlePaste. cbv zeta.
    destruct (length (take 6 (digits_of text)) =? 6)%nat.
    + eapply well_formed_otp; [|apply handleVerify_otp].
      apply Hpaste. reflexivity.
    + apply Hpaste. reflexivity.
  - unfold handleKeyDown_paste. cbv zeta.
    destruct (length (take 6 (digits_of text)) =? 6)%nat.
    + eapply well_formed_otp; [|apply handleVerify_otp].
      apply Hpaste. reflexivity.
    + apply Hpaste. reflexivity.
  - unfold handleKeyDown_backspace. cbv zeta.
    match goal with |- well_formed (if ?c then _ else _) => destruct c end;
      exact W.
  - eapply well_formed_otp; [exact W | apply handleVerify_otp].
Qed.

Lemma slot_length d :
  slot_ok d = true -> String.length d = if str_truthy d then 1 else 0.
Proof.
  unfold slot_ok. destruct d as [|c [|c' d]]; simpl; auto; discriminate.
Qed.

(** With well-formed slots the joined code has six characters exactly
    when every slot is filled. *)
Lemma join_complete l :
  length l = 6 -> forallb slot_ok l = true ->
  (String.length (join l) =? 6)%nat = forallb str_truthy l.
Proof.
  intros Hl Hs.
  destruct l as [|s0 [|s1 [|s2 [|s3 [|s4 [|s5 [|]]]]]]]; try discriminate.
  simpl in Hs.
  repeat match type of Hs with
         | _ && _ = true => apply andb_true_iff in Hs as (? & Hs)
         end.
  simpl. rewrite !length_append.
  repeat match goal with
         | H : slot_ok ?d = true |- _ => rewrite (slot_length d H); clear H
         end.
  simpl.
  destruct (str_truthy s0), (str_truthy s1), (str_truthy s2),
    (str_truthy s3), (str_truthy s4), (str_truthy s5); reflexivity.
Qed.

Lemma handleVerify_calls code p :
  verify_calls (effects (handleVerify' code p))
  = (verify_calls (effects p)
     ++ if (String.length code =? 6)%nat then [code] else [])%list.
Proof.
  destruct (String.length code =? 6)%nat eqn:Hlen.
  - apply handleVerify_calls_once. apply Nat.eqb_eq. exact Hlen.
  - unfold handleVerify. rewrite Hlen. simpl. rewrite app_nil_r. reflexivity.
Qed.

(** X12. Submitting the form (handleVerify on the joined slots) and
    typing into a slot, with well-formed slots: the form calls the
    verification once when all six slots are filled and not at all
    otherwise; typing calls it once when the value is a digit, the
    slot is the last one and the six slots are then filled, and never
    otherwise. *)
Theorem verification_only_on_a_complete_code
  (p : page) (index : nat) (value : string) :
  well_formed p -> (index < 6)%nat ->
  let typed := <[index := value]> (otp p) in
  verify_calls (effects (handleVerify' (join (otp p)) p))
  = (verify_calls (effects p)
     ++ if forallb str_truthy (otp p) then [join (otp p)] else [])%list
  /\ verify_calls (effects (handleChange' index value p))
     = (verify_calls (effects p)
        ++ if single_digit value && (index =? 5)%nat
              && forallb str_truthy typed
           then [join typed] else [])%list.
Proof.
  intros (Hl & Hs) _ typed. split.
  - rewrite handleVerify_calls, (join_complete _ Hl Hs). reflexivity.
  - unfold handleChange.
    destruct (single_digit value) eqn:Hd.
    + rewrite (single_digit_truthy value Hd). simpl. fold typed.
      assert (Hfocus : forall q,
                effects q = effects p \/
                effects q = (effects p ++ [Focus (index + 1)])%list ->
                verify_calls (effects q) = verify_calls (effects p)).
      { intros q [-> | ->]; [reflexivity|].
        rewrite verify_calls_app. simpl. apply app_nil_r. }
      destruct (index =? 5)%nat eqn:Hi; simpl.
      * destruct (forallb str_truthy typed) eqn:Hall.
        -- rewrite handleVerify_calls.
           assert (Ht : (String.length (join typed) =? 6)%nat = true).
           { rewrite join_complete; [exact Hall| |].
             - unfold typed. rewrite length_insert. exact Hl.
             - unfold typed. apply forallb_insert; [|exact Hs].
               unfold slot_ok. rewrite Hd. apply orb_true_r. }
           rewrite Ht. f_equal. apply Hfocus.
           destruct (index <? 5)%nat; simpl; auto.
        -- rewrite app_nil_r. apply Hfocus.
           destruct (index <? 5)%nat; simpl; auto.
      * rewrite app_nil_r. apply Hfocus.
        destruct (index <? 5)%nat; simpl; auto.
    + simpl. rewrite app_nil_r.
      destruct (str_truthy value) eqn:Hv; simpl; [reflexivity|].
      reflexivity.
Qed.

End EntryMore.

Section Outcome.

Import VerifyOTP.

Variable JSON_stringify : jsval -> string.
Variable verifyOTP : string -> string -> option string -> verify_response.
Variable callback_with_token : string -> string -> option string.

Abbreviation handleVerify'' :=
  (handleVerify JSON_stringify verifyOTP callback_with_token).
Abbreviation handlePaste'' :=
  (handlePaste JSON_stringify verifyOTP callback_with_token).
Abbreviation handleKeyDown_paste'' :=
  (handleKeyDown_paste JSON_stringify verifyOTP callback_with_token).

(** X13. A verification with a six-character code ends with the
    loading flag off and in one of two ways. A rejected code leaves
    localStorage as it was, empties the six slots, focuses the first
    and shows the server's error or the default text. An accepted
    code either leaves the page (callback address or the success
    route) with the token and the user stored, the slots and the empty
    error kept, or, when a write or the callback address failed, is
    reported like a rejection with the default text. Nothing but the
    call and that last effect is performed. *)
Theorem verification_leaves_or_reports (code : string) (p : page) :
  String.length code = 6 ->
  let a := authState p in
  let call := CallVerifyOTP (email a) code (callbackUrl a) in
  let p' := handleVerify'' code p in
  loading p' = false /\ authState p' = a /\
  match verifyOTP (email a) code (callbackUrl a) with
  | Rejected err =>
      storage p' = storage p /\ otp p' = empty_slots
      /\ error p' = verify_message err
      /\ effects p' = (effects p ++ [call; Focus 0])%list
  | Resolved token user =>
      (otp p' = otp p /\ error p' = ""
       /\ items (storage p')
          = <["auth_user" := JSON_stringify user]>
              (<["auth_token" := token]> (items (storage p)))
       /\ exists e, leaves_page e = true
                    /\ effects p' = (effects p ++ [call; e])%list)
      \/ (otp p' = empty_slots /\ error p' = verify_message None
          /\ effects p' = (effects p ++ [call; Focus 0])%list)
  end.
Proof.
  intros Hlen a call p'. subst p'. unfold handleVerify.
  rewrite Hlen. simpl. fold a.
  destruct (verifyOTP (email a) code (callbackUrl a)) as [token user|err].
  - unfold on_verified. simpl. fold a.
    destruct (setItem_throws (storage p) "auth_token" token); simpl.
    { split; [reflexivity|]. split; [reflexivity|]. right.
      rewrite <- app_assoc. repeat split. }
    destruct (setItem_throws (storage p) "auth_user" (JSON_stringify user));
      simpl.
    { split; [reflexivity|]. split; [reflexivity|]. right.
      rewrite <- app_assoc. repeat split. }
    destruct (callbackUrl a) as [cb|]; simpl.
    + destruct (str_truthy cb); simpl.
      * destruct (callback_with_token cb token) as [url|]; simpl.
        -- split; [reflexivity|]. split; [reflexivity|]. left.
           repeat split. exists (SetHref url). split; [reflexivity|].
           rewrite <- app_assoc. reflexivity.
        -- split; [reflexivity|]. split; [reflexivity|]. right.
           rewrite <- app_assoc. repeat split.
      * split; [reflexivity|]. split; [reflexivity|]. left.
        repeat split. exists (Navigate "/success" user token).
        split; [reflexivity|]. rewrite <- app_assoc. reflexivity.
    + split; [reflexivity|]. split; [reflexivity|]. left.
      repeat split. exists (Navigate "/success" user token).
      split; [reflexivity|]. rewrite <- app_assoc. reflexivity.
  - simpl. split; [reflexivity|]. split; [reflexivity|].
    rewrite <- app_assoc. repeat split.
Qed.

Lemma fill_prefix i ds (l : list string) :
  i + length ds <= length l -> length l <= 6 ->
  fill i ds l = (take i l ++ ds ++ drop (i + length ds) l)%list.
Proof.
  revert i l. induction ds as [|d ds IH]; intros i l Hi Hl; simpl in *.
  - rewrite Nat.add_0_r. symmetry. apply take_drop.
  - assert (Hlt : (i <? 6)%nat = true) by (apply Nat.ltb_lt; lia).
    rewrite Hlt, IH by (rewrite ?length_insert; lia).
    rewrite (take_S_r _ i d) by (apply list_lookup_insert_eq; lia).
    rewrite take_insert_ge by lia.
    rewrite drop_insert_lt by lia.
    rewrite <- app_assoc. simpl.
    replace (i + S (length ds)) with (S (i + length ds)) by lia.
    reflexivity.
Qed.

(** X14. Pasting a text with fewer than six digits, by the paste event
    or by Ctrl+V: the digits overwrite the first slots in order, the
    other slots keep what they held, and nothing else happens: no
    verification, no focus change, the error message stays. *)
Theorem short_paste_fills_a_prefix (text : string) (p : page) :
  length (otp p) = 6 ->
  length (digits_of text) < 6 ->
  let digits := digits_of text in
  handlePaste'' text p
  = setOtp (digits ++ drop (length digits) (otp p)) p
  /\ handleKeyDown_paste'' text p
     = setOtp (digits ++ drop (length digits) (otp p)) p.
Proof.
  intros Hl Hd digits. subst digits.
  unfold handlePaste, handleKeyDown_paste. cbv zeta.
  rewrite (take_ge (digits_of text) 6) by lia.
  assert (Hne : (length (digits_of text) =? 6)%nat = false)
    by (apply Nat.eqb_neq; lia).
  rewrite Hne, fill_prefix by lia.
  simpl. split; reflexivity.
Qed.

End Outcome.

(** ** From the OTP entry page to the success page *)

Section SuccessPage.

Variable JSON_stringify : jsval -> string.
Variable JSON_parse : string -> option jsval.
Variable verifyOTP
  : string -> string -> option string -> VerifyOTP.verify_response.
Variable callback_with_token : string -> string -> option string.

Lemma mount_reads_the_store (st : Storage) (U T : string) (u : jsval) :
  getItem_throws st "auth_user" = false ->
  getItem_throws st "auth_token" = false ->
  items st !! "auth_user" = Some U ->
  items st !! "auth_token" = Some T ->
  str_truthy U = true -> str_truthy T = true ->
  JSON_parse U = Some u ->
  Success.mount JSON_parse JNull (Success.initial st)
  = inr (Success.mkPage u (JStr T) st []).
Proof.
  intros Hg1 Hg2 HU HT HtU HtT Hp. unfold Success.mount.
  change (get_prop_opt JNull "user") with JUndefined.
  change (truthy JUndefined) with false. cbv iota beta zeta.
  change (Success.storage (Success.initial st)) with st.
  rewrite Hg1, Hg2, HU, HT, HtU, HtT. simpl. rewrite Hp. reflexivity.
Qed.

(** X15. What the OTP entry page stores, the success page shows. When
    a six-character code is accepted, no callback address is pending
    and localStorage works, the entry page navigates to the success
    route, and the success page shows the same user and token: from
    the route state without reading the store, and equally without
    any route state, from the two entries the entry page wrote. *)
Theorem verified_session_is_shown
  (code : string) (p : VerifyOTP.page) (t : string) (u : jsval) :
  let a := VerifyOTP.authState p in
  let st := VerifyOTP.storage p in
  String.length code = 6 ->
  verifyOTP (VerifyOTP.email a) code (VerifyOTP.callbackUrl a)
  = VerifyOTP.Resolved t u ->
  opt_truthy (VerifyOTP.callbackUrl a) = false ->
  setItem_throws st "auth_token" t = false ->
  setItem_throws st "auth_user" (JSON_stringify u) = false ->
  getItem_throws st "auth_user" = false ->
  getItem_throws st "auth_token" = false ->
  truthy u = true -> str_truthy t = true ->
  str_truthy (JSON_stringify u) = true ->
  JSON_parse (JSON_stringify u) = Some u ->
  let p' := VerifyOTP.handleVerify JSON_stringify verifyOTP
              callback_with_token code p in
  let shown := Success.mkPage u (JStr t) (VerifyOTP.storage p') [] in
  VerifyOTP.effects p'
  = (VerifyOTP.effects p
     ++ [VerifyOTP.CallVerifyOTP (VerifyOTP.email a) code
           (VerifyOTP.callbackUrl a);
         VerifyOTP.Navigate "/success" u t])%list
  /\ Success.mount JSON_parse (Success.route_state u t)
       (Success.initial (VerifyOTP.storage p')) = inr shown
  /\ Success.mount JSON_parse JNull
       (Success.initial (VerifyOTP.storage p')) = inr shown
  /\ Success.rendered shown = true.
Proof.
  intros a st Hlen Hv Hcb Hs1 Hs2 Hg1 Hg2 Hu Ht Hj Hparse p' shown.
  assert (Hp' : p' = VerifyOTP.setLoading false
                       (VerifyOTP.perform (VerifyOTP.Navigate "/success" u t)
                          (VerifyOTP.setStorage
                             (<["auth_user" := JSON_stringify u]>
                                (<["auth_token" := t]> (items st)))
                             (VerifyOTP.perform
                                (VerifyOTP.CallVerifyOTP (VerifyOTP.email a)
                                   code (VerifyOTP.callbackUrl a))
                                (VerifyOTP.setError ""
                                   (VerifyOTP.setLoading true p)))))).
  { subst p'. unfold VerifyOTP.handleVerify. rewrite Hlen. simpl.
    fold a. rewrite Hv. unfold VerifyOTP.on_verified. simpl. fold st a.
    rewrite Hs1. simpl. rewrite Hs2. simpl.
    destruct (VerifyOTP.callbackUrl a) as [cb|]; simpl in *.
    - rewrite Hcb. reflexivity.
    - reflexivity. }
  assert (Hst : VerifyOTP.storage p'
                = mkStorage (<["auth_user" := JSON_stringify u]>
                               (<["auth_token" := t]> (items st)))
                    (getItem_throws st) (setItem_throws st)
                    (removeItem_throws st)).
  { rewrite Hp'. reflexivity. }
  split; [|split; [|split]].
  - rewrite Hp'. simpl. rewrite <- app_assoc. reflexivity.
  - unfold Success.mount.
    change (get_prop_opt (Success.route_state u t) "user") with u.
    change (get_prop_opt (Success.route_state u t) "token") with (JStr t).
    change (truthy (JStr t)) with (str_truthy t).
    rewrite Hu, Ht. reflexivity.
  - subst shown.
    apply (mount_reads_the_store _ (JSON_stringify u) t);
      rewrite ?Hst; simpl; auto.
    + apply lookup_insert_eq.
    + rewrite lookup_insert_ne by discriminate. apply lookup_insert_eq.
  - exact Hu.
Qed.

(** X16. Logging out on the success page: with a store that permits
    removal and reading, handleLogout removes both entries and goes to
    the login route, and the success page opened again without route
    state finds no session, shows nothing and goes to the login route
    itself. *)
Theorem success_logout_forgets_the_session (s : Success.page) :
  let st := Success.storage s in
  removeItem_throws st "auth_token" = false ->
  removeItem_throws st "auth_user" = false ->
  getItem_throws st "auth_user" = false ->
  getItem_throws st "auth_token" = false ->
  exists s',
    Success.handleLogout s = inr s'
    /\ Success.navigations s' = (Success.navigations s ++ ["/login"])%list
    /\ items (Success.storage s')
       = delete "auth_user" (delete "auth_token" (items st))
    /\ let again := Success.initial (Success.storage s') in
       Success.mount JSON_parse JNull again
       = inr (Success.navigate "/login" again)
       /\ Success.rendered (Success.navigate "/login" again) = false.
Proof.
  intros st Hr1 Hr2 Hg1 Hg2. subst st.
  unfold Success.handleLogout. rewrite Hr1. simpl. rewrite Hr2.
  eexists. split; [reflexivity|]. simpl.
  split; [reflexivity|]. split; [reflexivity|].
  unfold Success.mount. simpl. rewrite Hg1, Hg2.
  rewrite lookup_delete_eq. split; reflexivity.
Qed.

End SuccessPage.

(** ** The resend countdown *)

Section Countdown.

Import Resend.

Variable resendOTP : string -> resend_response.

Lemma seconds_counted n :
  n <= 60 ->
  Nat.iter n second mounted = mkTimer (60 - n) (60 <=? n)%nat [].
Proof.
  induction n as [|n IH]; intros Hn; [reflexivity|].
  simpl Nat.iter. rewrite IH by lia.
  assert (Hle : (60 <=? n)%nat = false) by (apply Nat.leb_gt; lia).
  assert (H0 : (0 <? 60 - n)%nat = true) by (apply Nat.ltb_lt; lia).
  rewrite Hle. unfold second. cbn [resendTimer]. rewrite H0.
  unfold countdown, setResendTimer, setCanResend.
  cbn [resendTimer canResend resend_calls].
  replace (60 - n - 1) with (60 - S n) by lia.
  destruct (Nat.ltb_spec 0 (60 - S n)) as [H1|H1].
  - assert (H2 : (60 <=? S n)%nat = false) by (apply Nat.leb_gt; lia).
    rewrite H2. reflexivity.
  - assert (H2 : (60 <=? S n)%nat = true) by (apply Nat.leb_le; lia).
    rewrite H2. reflexivity.
Qed.

Lemma seconds_stay m :
  Nat.iter m second (mkTimer 0 true []) = mkTimer 0 true [].
Proof.
  induction m as [|m IH]; [reflexivity|].
  simpl Nat.iter. rewrite IH. reflexivity.
Qed.

Lemma seconds_elapsed n :
  Nat.iter n second mounted = mkTimer (60 - n) (60 <=? n)%nat [].
Proof.
  destruct (Nat.le_gt_cases n 60) as [Hn|Hn]; [apply seconds_counted, Hn|].
  pose (m := n - 60). assert (Hm : n = m + 60) by (unfold m; lia).
  clearbody m. subst n.
  rewrite Nat.iter_add, (seconds_counted 60) by lia.
  change (mkTimer (60 - 60) (60 <=? 60)%nat []) with (mkTimer 0 true []).
  rewrite seconds_stay.
  replace (60 - (m + 60)) with 0 by lia.
  assert (Hle : (60 <=? m + 60)%nat = true) by (apply Nat.leb_le; lia).
  rewrite Hle. reflexivity.
Qed.

(** X17. The resend link opens after sixty seconds and not before.
    [n] seconds after the page is mounted the counter shows 60 - n
    (0 from then on) and resending is possible exactly when n >= 60.
    Before that handleResend does nothing at all; from then on it
    calls authApi.resendOTP once with the address of the page, puts
    the countdown back to where it was after mounting, leaves the six
    slots alone and shows the server's error, the default text, or no
    error when the code was sent. *)
Theorem resend_opens_after_sixty_seconds (n : nat) (p : VerifyOTP.page) :
  let t := Nat.iter n second mounted in
  let email := VerifyOTP.email (VerifyOTP.authState p) in
  resendTimer t = 60 - n
  /\ canResend t = (60 <=? n)%nat
  /\ handleResend resendOTP (p, t)
     = if (n <? 60)%nat then (p, t)
       else (VerifyOTP.setError
               match resendOTP email with
               | Sent => ""
               | Refused err =>
                   if opt_truthy err then render err else "Kod gönderilemedi"
               end p,
             call_resendOTP email mounted).
Proof.
  intros t email. subst t. rewrite seconds_elapsed.
  split; [reflexivity|]. split; [reflexivity|].
  unfold handleResend. cbn [canResend].
  destruct (Nat.ltb_spec n 60) as [Hn|Hn].
  - assert (Hle : (60 <=? n)%nat = false) by (apply Nat.leb_gt; lia).
    rewrite Hle. reflexivity.
  - assert (Hle : (60 <=? n)%nat = true) by (apply Nat.leb_le; lia).
    rewrite Hle. cbn [negb]. cbv zeta.
    change (VerifyOTP.email (VerifyOTP.authState (VerifyOTP.setError "" p)))
      with email.
    destruct (resendOTP email); reflexivity.
Qed.

End Countdown.

(** ** The API client *)

Section Client.

Import AuthAPI.

Variable baseUrl : string.
Variable fetch : string -> RequestInit -> option HttpResponse.

Lemma assoc_set_prop k k' v fields :
  assoc k (set_prop k' v fields)
  = if String.eqb k k' then v else assoc k fields.
Proof.
  induction fields as [|[k1 v1] rest IH]; simpl.
  - destruct (String.eqb k k'); reflexivity.
  - destruct (String.eqb_spec k' k1) as [->|Hne]; simpl.
    + destruct (String.eqb k k1); reflexivity.
    + rewrite IH. destruct (String.eqb_spec k k1) as [->|Hk]; [|reflexivity].
      destruct (String.eqb_spec k1 k') as [e|_]; [congruence | reflexivity].
Qed.

Lemma assoc_absent k (props : list (string * jsval)) :
  k ∉ props.*1 -> has_key k props = false.
Proof.
  induction props as [|[k1 v1] rest IH]; intros Hk; [reflexivity|].
  simpl in *. apply not_elem_of_cons in Hk as (Hne & Hk).
  destruct (String.eqb_spec k k1) as [e|_]; [congruence|].
  apply IH, Hk.
Qed.

(** A property of [{ ...target, ...data }]: the one of [data] when
    [data] has it, the one of [target] otherwise. *)
Lemma assoc_spread k props target :
  NoDup props.*1 ->
  assoc k (fold_left (fun acc kv => set_prop kv.1 kv.2 acc) props target)
  = if has_key k props then assoc k props else assoc k target.
Proof.
  revert target. induction props as [|[k1 v1] rest IH]; intros target Hnd;
    [reflexivity|].
  simpl in *. apply NoDup_cons in Hnd as (Hk1 & Hnd).
  rewrite IH by exact Hnd. rewrite assoc_set_prop.
  destruct (String.eqb_spec k k1) as [->|Hne]; simpl.
  - rewrite (assoc_absent _ _ Hk1). reflexivity.
  - reflexivity.
Qed.

(** X18. How a request settles. It returns data only when the server
    answered with an ok status and a body that parses, and then
    returns that body. Every rejection is either the fixed network
    error object or an object with a truthy [status], and the latter
    only when the server answered with a non-ok status and a body
    that parses. *)
Theorem request_settles (endpoint : string) (options : RequestInit) :
  let answer := fetch (baseUrl ++ endpoint) (request_config options) in
  match request baseUrl fetch endpoint options with
  | Returns data =>
      exists r, answer = Some r /\ ok r = true /\ json r = Some data
  | Rejects reason =>
      reason = network_error
      \/ (truthy (get_prop_opt reason "status") = true
          /\ exists r data,
               answer = Some r /\ ok r = false /\ json r = Some data)
  end.
Proof.
  intros answer. subst answer. unfold request, attempt.
  destruct (fetch _ _) as [r|]; [|left; reflexivity].
  destruct (json r) as [data|] eqn:Hj; [|left; reflexivity].
  destruct (ok r) eqn:Hok; simpl.
  - exists r. auto.
  - match goal with
    | |- context [if ?c then _ else _] => destruct c eqn:Hs
    end; [|left; reflexivity].
    right. split; [exact Hs|]. exists r, data. auto.
Qed.

(** X19. The error body of the server reaches the caller. For a non-ok
    answer whose body parses (property names distinct), let [s] be the
    [status] property of the body if it has one and the HTTP status
    otherwise. If [s] is truthy the rejection is an object with every
    property of the body, and the HTTP status under [status] unless
    the body has that property itself; if [s] is falsy the body is
    dropped and the rejection is the network error object. *)
Theorem request_passes_the_error_body_on
  (endpoint : string) (options : RequestInit)
  (r : HttpResponse) (data : jsval) :
  fetch (baseUrl ++ endpoint) (request_config options) = Some r ->
  ok r = false ->
  json r = Some data ->
  NoDup (own_props data).*1 ->
  let props := own_props data in
  let s := if has_key "status" props then assoc "status" props
           else JNum (status r) in
  if truthy s then
    exists reason,
      request baseUrl fetch endpoint options = Rejects reason
      /\ forall k,
           get_prop_opt reason k
           = if has_key k props then assoc k props
             else if String.eqb k "status" then JNum (status r)
                  else JUndefined
  else request baseUrl fetch endpoint options = Rejects network_error.
Proof.
  intros Hf Hok Hj Hnd props s.
  assert (Hget : forall k,
             get_prop_opt (JObj (spread data [("status", JNum (status r))])) k
             = if has_key k props then assoc k props
               else if String.eqb k "status" then JNum (status r)
                    else JUndefined).
  { intros k. unfold get_prop_opt, get_prop, spread.
    rewrite assoc_spread by exact Hnd. fold props. reflexivity. }
  unfold request, attempt. rewrite Hf, Hj, Hok. simpl negb. cbv iota.
  rewrite (Hget "status"). simpl String.eqb. subst s.
  destruct (truthy _).
  - eexists. split; [reflexivity | exact Hget].
  - reflexivity.
Qed.

End Client.

(** ** The further properties at concrete inputs *)

Lemma protect_without_token_goes_to_login_witness :
  opt_truthy (_token (after (init sample_stringify sample_parse signed_out)))
  = false
  /\ exists w',
       protect sample_stringify sample_parse offline None signed_out
       = (Normal JNull, w')
       /\ trace w'
          = [ENavigate ("https://inmapper-otp.netlify.app/login?callback="
                        ++ encodeURIComponent "https://site.example/app")].
Proof.
  split; [reflexivity|].
  destruct (protect_without_token_goes_to_login sample_stringify sample_parse
              offline None signed_out eq_refl) as (w' & Hp & Ht & _).
  exists w'. split; [exact Hp | exact Ht].
Defined.

Lemma protect_unconfirmed_goes_to_login_witness :
  opt_truthy (_token (after (init sample_stringify sample_parse signed_in)))
  = true
  /\ served_from_cache false None
       (after (init sample_stringify sample_parse signed_in)) = false
  /\ exists w',
       protect sample_stringify sample_parse offline None signed_in
       = (Normal JNull, w')
       /\ _token w' = Some "T".
Proof.
  split; [reflexivity|]. split; [reflexivity|].
  destruct (protect_unconfirmed_goes_to_login sample_stringify sample_parse
              offline None signed_in eq_refl eq_refl)
    as (w1 & w' & _ & Hp & _ & Ht).
  - intros u a. discriminate.
  - exists w'. split; [exact Hp | exact Ht].
Defined.

Lemma protect_validates_once_then_caches_witness :
  opt_truthy (_token (after (init sample_stringify sample_parse signed_in)))
  = true
  /\ truthy (_user (after (init sample_stringify sample_parse signed_in)))
     = false
  /\ result (protect sample_stringify sample_parse (answering valid_answer)
               None signed_in) = Normal sample_user
  /\ fetches (after (protect sample_stringify sample_parse
                       (answering valid_answer) None
                       (after (protect sample_stringify sample_parse
                                 (answering valid_answer) None signed_in))))
     = 1.
Proof.
  split; [reflexivity|]. split; [reflexivity|].
  destruct (protect_validates_once_then_caches sample_stringify sample_parse
              (answering valid_answer) None signed_in sample_user JUndefined
              eq_refl eq_refl eq_refl eq_refl) as (H1 & _ & _ & _ & H2).
  split; [exact H1 | exact H2].
Defined.

Lemma init_reads_the_store_witness :
  _initialized plain_page = false
  /\ opt_truthy (tokenFromUrl plain_page) = false
  /\ _token (after (init sample_stringify sample_parse plain_page)) = None
  /\ _user (after (init sample_stringify sample_parse plain_page)) = JNull.
Proof.
  split; [reflexivity|]. split; [reflexivity|].
  destruct (init_reads_the_store sample_stringify sample_parse plain_page
              eq_refl eq_refl) as (_ & Ht & Hu & _).
  split; [exact Ht | exact Hu].
Defined.

Lemma validated_session_survives_reload_witness :
  tokenKey DEFAULT_CONFIG <> userKey DEFAULT_CONFIG
  /\ sample_parse (sample_stringify sample_user) = Some sample_user
  /\ let reloaded :=
       new_InmapperAuth DEFAULT_CONFIG
         (localStorage
            (after (getUser sample_stringify sample_parse
                      (answering valid_answer) false None signed_in)))
         (site "/app") in
     let out := getUser sample_stringify sample_parse
                  (answering valid_answer) false None reloaded in
     result out = Normal sample_user
     /\ _token (after out) = Some "T"
     /\ fetches (after out) = 0.
Proof.
  split; [discriminate|]. split; [reflexivity|].
  apply (validated_session_survives_reload sample_stringify sample_parse
           (answering valid_answer) false None signed_in "T" sample_user
           JUndefined (site "/app"));
    first [reflexivity | discriminate].
Defined.

Lemma logout_survives_reload_witness :
  removeItem_throws (localStorage cached) (tokenKey (config cached)) = false
  /\ result (getUser sample_stringify sample_parse offline false None
               (new_InmapperAuth DEFAULT_CONFIG
                  (localStorage
                     (after (logout sample_stringify offline false cached)))
                  (site "/app")))
     = Normal JNull.
Proof.
  split; [reflexivity|].
  apply (logout_survives_reload sample_stringify sample_parse offline false
           cached (site "/app")); reflexivity.
Defined.

Lemma login_callback_reaches_the_login_page_witness :
  loginUrl (config signed_out) = "https://inmapper-otp.netlify.app" ++ "/login"
  /\ App.callbackUrl
       (App.capture_callback
          (location_search
             (mkLocation "https://inmapper-otp.netlify.app"
                ("/login" ++ "?callback="
                 ++ encodeURIComponent "https://site.example/app")))
          App.initial)
     = Some "https://site.example/app".
Proof.
  split; [reflexivity|].
  destruct (login_callback_reaches_the_login_page None signed_out
              "https://inmapper-otp.netlify.app" "/login" App.initial
              eq_refl eq_refl eq_refl) as (_ & H).
  exact (f_equal App.callbackUrl H).
Defined.

Lemma slots_stay_well_formed_witness :
  well_formed (otp_page ["1";"2";"";"";"";""])
  /\ well_formed
       (VerifyOTP.handleChange sample_stringify wrong_code no_callback
          2 "7" (otp_page ["1";"2";"";"";"";""])).
Proof.
  assert (W : well_formed (otp_page ["1";"2";"";"";"";""]))
    by (split; reflexivity).
  split; [exact W|].
  apply (slots_stay_well_formed sample_stringify wrong_code no_callback
           (otp_page ["1";"2";"";"";"";""]) 2 "7" "" "" W).
  lia.
Defined.

Lemma verification_only_on_a_complete_code_witness :
  well_formed (otp_page ["1";"2";"3";"4";"5";""])
  /\ VerifyOTP.verify_calls
       (VerifyOTP.effects
          (VerifyOTP.handleVerify sample_stringify wrong_code no_callback
             (VerifyOTP.join
                (VerifyOTP.otp (otp_page ["1";"2";"3";"4";"5";""])))
             (otp_page ["1";"2";"3";"4";"5";""])))
     = [].
Proof.
  assert (W : well_formed (otp_page ["1";"2";"3";"4";"5";""]))
    by (split; reflexivity).
  split; [exact W|].
  apply (verification_only_on_a_complete_code sample_stringify wrong_code
           no_callback (otp_page ["1";"2";"3";"4";"5";""]) 0 "" W).
  lia.
Defined.

Lemma verification_leaves_or_reports_witness :
  String.length "123456" = 6
  /\ VerifyOTP.loading
       (VerifyOTP.handleVerify sample_stringify wrong_code no_callback
          "123456" (otp_page ["1";"2";"3";"4";"5";"6"]))
     = false.
Proof.
  split; [reflexivity|].
  apply (verification_leaves_or_reports sample_stringify wrong_code
           no_callback "123456" (otp_page ["1";"2";"3";"4";"5";"6"])).
  reflexivity.
Defined.

Lemma short_paste_fills_a_prefix_witness :
  length (VerifyOTP.digits_of "12-34") < 6
  /\ VerifyOTP.otp
       (VerifyOTP.handlePaste sample_stringify wrong_code no_callback
          "12-34" (otp_page ["9";"9";"9";"9";"9";"9"]))
     = ["1";"2";"3";"4";"9";"9"].
Proof.
  split; [simpl; lia|].
  destruct (short_paste_fills_a_prefix sample_stringify wrong_code
              no_callback "12-34" (otp_page ["9";"9";"9";"9";"9";"9"]))
    as (H & _).
  - reflexivity.
  - simpl. lia.
  - rewrite H. reflexivity.
Defined.

Lemma verified_session_is_shown_witness :
  String.length "123456" = 6
  /\ truthy sample_user = true
  /\ let p' := VerifyOTP.handleVerify sample_stringify right_code no_callback
                 "123456" (otp_page ["1";"2";"3";"4";"5";"6"]) in
     Success.mount sample_parse JNull
       (Success.initial (VerifyOTP.storage p'))
     = inr (Success.mkPage sample_user (JStr "T") (VerifyOTP.storage p') []).
Proof.
  split; [reflexivity|]. split; [reflexivity|].
  pose proof (verified_session_is_shown sample_stringify sample_parse
                right_code no_callback "123456"
                (otp_page ["1";"2";"3";"4";"5";"6"]) "T" sample_user
                eq_refl eq_refl eq_refl eq_refl eq_refl eq_refl eq_refl
                eq_refl eq_refl eq_refl eq_refl) as (_ & _ & H & _).
  exact H.
Defined.

Lemma success_logout_forgets_the_session_witness :
  removeItem_throws (working_store {[ "auth_token" := "T" ]}) "auth_token"
  = false
  /\ exists s',
       Success.handleLogout
         (Success.initial (working_store {[ "auth_token" := "T" ]}))
       = inr s'
       /\ Success.navigations s' = ["/login"].
Proof.
  split; [reflexivity|].
  destruct (success_logout_forgets_the_session sample_parse
              (Success.initial (working_store {[ "auth_token" := "T" ]}))
              eq_refl eq_refl eq_refl eq_refl) as (s' & H & Hn & _).
  exists s'. split; [exact H | exact Hn].
Defined.

Lemma request_passes_the_error_body_on_witness :
  AuthAPI.ok (AuthAPI.mkHttp false 401
                (Some (JObj [("error", JStr "Invalid code")]))) = false
  /\ exists reason,
       AuthAPI.request "https://api.example" refusing "/auth/verify"
         (mkInit (Some "POST") None (Some "{}"))
       = AuthAPI.Rejects reason
       /\ get_prop_opt reason "error" = JStr "Invalid code"
       /\ get_prop_opt reason "status" = JNum 401.
Proof.
  split; [reflexivity|].
  pose proof (request_passes_the_error_body_on "https://api.example" refusing
                "/auth/verify" (mkInit (Some "POST") None (Some "{}"))
                (AuthAPI.mkHttp false 401
                   (Some (JObj [("error", JStr "Invalid code")])))
                (JObj [("error", JStr "Invalid code")])
                eq_refl eq_refl eq_refl) as H.
  destruct H as (reason & Hr & Hk).
  - apply NoDup_cons. split; [apply not_elem_of_nil | apply NoDup_nil_2].
  - exists reason. split; [exact Hr|].
    split; [exact (Hk "error") | exact (Hk "status")].
Defined.

(** ** The callback interceptor and the address *)





Section Interceptor.

Variable JSON_stringify : jsval -> string.


End Interceptor.

(** ** setToken followed by getUser *)

Section TokenChange.

Variable JSON_stringify : jsval -> string.
Variable JSON_parse : string -> option jsval.
Variable transport : list event -> option Response.

Abbreviation init'' := (init JSON_stringify JSON_parse).
Abbreviation getUser'' := (getUser JSON_stringify JSON_parse transport).
Abbreviation verdict_at' w r :=
  (verdict_of (transport (trace (emit (validate_request JSON_stringify w r) w)))).

(** setToken: the token and a null user in memory, then _saveToStorage. *)
Lemma setToken_saved T w :
  exists w1, setToken JSON_stringify T w = (Normal tt, w1)
             /\ saved JSON_stringify (set_user JNull (set_token T w)) w1.
Proof.
  unfold setToken.
  destruct (_saveToStorage_normal JSON_stringify
              (set_user JNull (set_token T w))) as (w1 & H & S).
  exists w1. split; [|exact S].
  unfold bind at 1. unfold modify at 1.
  unfold bind at 1. unfold modify at 1. exact H.
Qed.

(** C7, failing. On an instance not yet initialised, whose address
    carries no token, over a store that still holds a user:
    setToken(T) with a non-empty T writes T beside that user, the
    getUser() that follows initialises the instance from the store and
    returns the stored user from the cache. No request is made, so the
    answer does not depend on what the server holds about T. *)
Theorem setToken_then_getUser_returns_the_stored_user
  (T s : string) (U : jsval) (w : world) :
  let st := localStorage w in
  let c := config w in
  let out := (setToken JSON_stringify (Some T) ;; getUser'' false None) w in
  _initialized w = false ->
  opt_truthy (tokenFromUrl w) = false ->
  str_truthy T = true ->
  tokenKey c <> userKey c ->
  setItem_throws st (tokenKey c) T = false ->
  getItem_throws st (tokenKey c) = false ->
  getItem_throws st (userKey c) = false ->
  items st !! userKey c = Some s ->
  str_truthy s = true ->
  JSON_parse s = Some U ->
  truthy U = true ->
  result out = Normal U
  /\ _token (after out) = Some T
  /\ fetches (after out) = fetches w.
Proof.
  intros st c out Hi Hurl HT Hkeys Hset Hgt Hgu Hs Hst Hparse HU.
  destruct (setToken_saved (Some T) w)
    as (w1 & Hset1 & ((C1 & G1 & S1 & R1) & M1 & L1 & I1 & Gr1)).
  unfold memory in M1. simpl in M1. injection M1 as T1 U1 N1.
  simpl in C1, G1, S1, R1, L1.
  assert (Hitems : items (localStorage w1) = <[tokenKey c := T]> (items st)).
  { rewrite I1. unfold saved_items. simpl. fold c st.
    rewrite HT, Hset. reflexivity. }
  assert (Hurl1 : opt_truthy (tokenFromUrl w1) = false).
  { unfold tokenFromUrl. rewrite L1. exact Hurl. }
  assert (Hi1 : _initialized w1 = false) by (rewrite N1; exact Hi).
  destruct (init_reads JSON_stringify JSON_parse w1 Hi1 Hurl1)
    as (Hres & Tk & Us & _ & _ & Gr0).
  rewrite G1, C1 in Tk, Us. fold c st in Tk, Us.
  rewrite Hgt in Tk. rewrite Hgt, Hgu in Us. simpl in Us.
  rewrite Hitems in Tk, Us.
  rewrite lookup_insert_eq in Tk.
  rewrite lookup_insert_ne in Us by exact Hkeys.
  rewrite Hs in Us. unfold loaded_user in Us. rewrite Hst, Hparse in Us.
  destruct (init JSON_stringify JSON_parse w1) as [r0 w0] eqn:Hinit.
  simpl in Hres, Tk, Us, Gr0. subst r0.
  assert (Hi0 : _initialized w0 = true).
  { destruct (init_run JSON_stringify JSON_parse w1)
      as (w0' & Hinit' & _ & (_ & Hi0 & _)).
    rewrite Hinit in Hinit'. injection Hinit' as <-. exact Hi0. }
  assert (Hg : getUser'' false None w1 = (Normal U, w0)).
  { rewrite (getUser_after_init JSON_stringify JSON_parse transport
               false None w1 w0 Hinit Hi0).
    rewrite <- Us. apply getUser_cached.
    - exact Hi0.
    - rewrite Tk. exact HT.
    - unfold served_from_cache. rewrite Us, HU. reflexivity. }
  assert (Hout : out = (Normal U, w0)).
  { unfold out. unfold bind at 1. rewrite Hset1. exact Hg. }
  rewrite Hout. simpl.
  split; [reflexivity|]. split; [exact Tk|].
  transitivity (fetches w1).
  - apply grew_fetches. eapply grew_weaken; [|exact Gr0].
    intros e He. apply local_not_fetch, console_is_local, He.
  - apply grew_fetches. eapply grew_weaken; [|exact Gr1].
    intros e He. apply local_not_fetch, console_is_local, He.
Qed.

(** X20. In a session that is initialised, setToken(T) followed by
    getUser() returns normally, whatever the fetch, the body parser and
    the store do. The token asked about is T and no cached user is
    held: the user is returned exactly when T is non-empty and the
    server's answer is valid with a user; an empty or missing T, an
    invalid answer and a failed request give null. *)
Theorem setToken_then_getUser_in_a_running_session
  (T : option string) (w : world) :
  let w1 := after (setToken JSON_stringify T w) in
  let out := (setToken JSON_stringify T ;; getUser'' false None) w in
  _initialized w = true ->
  _token w1 = T /\ _user w1 = JNull
  /\ result out
     = Normal (if opt_truthy T
               then match verdict_at' w1 None with
                    | Valid u _ => u
                    | _ => JNull
                    end
               else JNull)
  /\ (result out = Normal JNull
      \/ exists u, result out = Normal u /\ truthy u = true
                   /\ _user (after out) = u).
Proof.
  intros w1 out Hi.
  destruct (setToken_normal JSON_stringify T w) as (w1' & Hs & T1 & U1 & I1).
  assert (w1 = w1') by (unfold w1; rewrite Hs; reflexivity).
  clearbody w1. subst w1'.
  assert (Hi1 : _initialized w1 = true) by (rewrite I1; exact Hi).
  pose proof (init_again JSON_stringify JSON_parse w1 Hi1) as Hinit.
  destruct (getUser_plain JSON_stringify JSON_parse transport w1 w1 Hinit Hi1)
    as (w' & Hg & Hres).
  assert (Hout : out = (Normal (plain_result JSON_stringify transport w1), w')).
  { unfold out. unfold bind at 1. rewrite Hs. exact Hg. }
  assert (Hplain : plain_result JSON_stringify transport w1
                   = if opt_truthy T
                     then match verdict_at' w1 None with
                          | Valid u _ => u
                          | _ => JNull
                          end
                     else JNull).
  { unfold plain_result. rewrite T1, U1. simpl truthy. cbv iota.
    destruct (opt_truthy T); reflexivity. }
  rewrite Hout. simpl result. simpl after.
  split; [exact T1|]. split; [exact U1|]. split; [rewrite Hplain; reflexivity|].
  destruct Hres as [Hn | (Ht & Hu)].
  - left. rewrite Hn. reflexivity.
  - right. exists (plain_result JSON_stringify transport w1).
    split; [reflexivity|]. split; [exact Ht | symmetry; exact Hu].
Qed.

(** X1. getUser with any arguments, protect, isAuthenticated and
    hasPermission return normally and leave the instance initialised,
    whatever the network, the body parser and localStorage do, on
    every world in which init does not reach history.replaceState on
    an address that begins with [//]; logout and setToken, which do
    not run init, return normally on every world, logout leaving
    neither token nor user in memory and setToken the given token and
    no user. *)
Theorem session_methods_never_throw
  (forceRefresh redirect : bool) (resourceId options_resourceId T : option string)
  (w : world) :
  (init_stays_home w = true ->
   (exists a w', getUser'' forceRefresh resourceId w = (Normal a, w')
                 /\ _initialized w' = true)
   /\ (exists a w', protect JSON_stringify JSON_parse transport
                      options_resourceId w = (Normal a, w')
                    /\ _initialized w' = true)
   /\ (exists b w', isAuthenticated JSON_stringify JSON_parse transport w
                    = (Normal b, w')
                    /\ _initialized w' = true)
   /\ (exists b w', hasPermission JSON_stringify JSON_parse transport
                      resourceId w = (Normal b, w')
                    /\ _initialized w' = true))
  /\ (exists w', logout JSON_stringify transport redirect w = (Normal tt, w')
                 /\ _token w' = None /\ _user w' = JNull)
  /\ (exists w', setToken JSON_stringify T w = (Normal tt, w')
                 /\ _token w' = T /\ _user w' = JNull).
Proof.
  split; [intros _; split; [|split; [|split]] | split].
  - destruct (getUser_total JSON_stringify JSON_parse transport
                forceRefresh resourceId w)
      as (a & w' & Hg & _ & Hi & _). eauto.
  - apply protect_total.
  - destruct (init_run JSON_stringify JSON_parse w)
      as (w0 & Hinit & _ & _).
    destruct (getUser_total JSON_stringify JSON_parse transport false None w0)
      as (a & w' & Hg & _ & Hi & _).
    exists (truthy a), w'. split; [|exact Hi].
    unfold isAuthenticated. unfold bind at 1. rewrite Hinit.
    unfold bind at 1. rewrite Hg. reflexivity.
  - destruct (getUser_total JSON_stringify JSON_parse transport
                true resourceId w) as (a & w' & Hg & _ & Hi & _).
    eexists _, w'. split; [|exact Hi].
    unfold hasPermission. unfold bind. rewrite Hg. reflexivity.
  - destruct (logout_total JSON_stringify transport redirect w)
      as (w' & H & T' & U' & _). eauto.
  - destruct (setToken_normal JSON_stringify T w) as (w' & H & Ht & Hu & _).
    eauto.
Qed.

(** X2. init runs its work once. On every world in which it does not
    reach history.replaceState on an address that begins with [//],
    init returns normally and leaves the instance initialised, and a
    second init after it changes nothing: running it twice is running
    it once, whatever localStorage does. *)
Theorem init_runs_once (w : world) :
  init_stays_home w = true ->
  (init'' ;; init'') w = init'' w
  /\ result (init'' w) = Normal tt
  /\ _initialized (after (init'' w)) = true.
Proof.
  intros _.
  destruct (init_run JSON_stringify JSON_parse w)
    as (w0 & Hinit & _ & (_ & Hi & _)).
  unfold bind. rewrite Hinit. simpl.
  rewrite (init_again JSON_stringify JSON_parse w0 Hi). auto.
Qed.

End TokenChange.

(** ** Completing the code outside the last slot *)

Section Completion.

Import VerifyOTP.

Variable JSON_stringify : jsval -> string.
Variable verifyOTP : string -> string -> option string -> verify_response.
Variable callback_with_token : string -> string -> option string.

Abbreviation handleChange_ :=
  (handleChange JSON_stringify verifyOTP callback_with_token).
Abbreviation handlePaste_ :=
  (handlePaste JSON_stringify verifyOTP callback_with_token).
Abbreviation handleKeyDown_paste_ :=
  (handleKeyDown_paste JSON_stringify verifyOTP callback_with_token).

(** C9, failing. With well-formed slots, a digit typed into one of the
    first five slots that fills the last empty one leaves the six slots
    filled, a complete six-character code, and makes no verification
    call: the page only moves the focus to the next slot. The comment
    in handleChange announces the submission "when all fields are
    filled"; the test beside it also asks for the last slot. *)
Theorem sixth_digit_outside_last_slot_is_not_verified
  (p : page) (index : nat) (value : string) :
  well_formed p ->
  (index < 5)%nat ->
  single_digit value = true ->
  forallb str_truthy (<[index := value]> (otp p)) = true ->
  let p' := handleChange_ index value p in
  otp p' = <[index := value]> (otp p)
  /\ forallb str_truthy (otp p') = true
  /\ String.length (join (otp p')) = 6
  /\ verify_calls (effects p') = verify_calls (effects p)
  /\ effects p' = (effects p ++ [Focus (index + 1)])%list.
Proof.
  intros (Hl & Hs) Hi Hd Hall p'.
  assert (Hp' : p' = perform (Focus (index + 1))
                       (setError "" (setOtp (<[index := value]> (otp p)) p))).
  { unfold p', handleChange.
    rewrite Hd, (single_digit_truthy value Hd). simpl.
    assert (Hlt : (index <? 5)%nat = true) by (apply Nat.ltb_lt; exact Hi).
    assert (Hne : (index =? 5)%nat = false) by (apply Nat.eqb_neq; lia).
    rewrite Hlt, Hne. reflexivity. }
  rewrite Hp'. simpl.
  split; [reflexivity|]. split; [exact Hall|]. split; [|split].
  - apply Nat.eqb_eq. rewrite join_complete; [exact Hall| |].
    + rewrite length_insert. exact Hl.
    + apply forallb_insert; [|exact Hs].
      unfold slot_ok. rewrite Hd. apply orb_true_r.
  - rewrite verify_calls_app. simpl. apply app_nil_r.
  - reflexivity.
Qed.

(** X21. Pasting a text that holds at least six digits, through the
    paste event or through Ctrl+V, into the six slots whatever they hold:
    the slots take its first six digits and the verification is called
    once with them. No submit is involved. *)
Theorem full_paste_verifies_once (p : page) (text : string) :
  length (otp p) = 6 ->
  6 <= length (digits_of text) ->
  let pasted := take 6 (digits_of text) in
  fill 0 pasted (otp p) = pasted
  /\ String.length (join pasted) = 6
  /\ verify_calls (effects (handlePaste_ text p))
     = (verify_calls (effects p) ++ [join pasted])%list
  /\ verify_calls (effects (handleKeyDown_paste_ text p))
     = (verify_calls (effects p) ++ [join pasted])%list.
Proof.
  intros Hlen Htext pasted.
  assert (Hpasted : Forall (fun d => single_digit d = true) pasted).
  { unfold pasted. apply Forall_take, digits_of_single. }
  assert (Hl6 : length pasted = 6).
  { unfold pasted. rewrite length_take. lia. }
  assert (Hjp : String.length (join pasted) = 6)
    by (rewrite join_length; auto).
  assert (Hfill : fill 0 pasted (otp p) = pasted) by (apply fill_all; auto).
  split; [exact Hfill|]. split; [exact Hjp|]. split.
  - unfold handlePaste. fold pasted. rewrite Hfill, Hl6. simpl.
    rewrite handleVerify_calls_once; [reflexivity | exact Hjp].
  - unfold handleKeyDown_paste. fold pasted. rewrite Hfill, Hl6. simpl.
    rewrite handleVerify_calls_once; [reflexivity | exact Hjp].
Qed.

End Completion.

Section Handoff.

Variable JSON_stringify : jsval -> string.

(** X10. The token handoff round trip. With a non-empty token held,
    redirectTo(url) navigates, for every url, to url with
    [token=<encoded token>] appended after [?], or after [&] when url
    already has a query. When url is an origin followed by an address
    that has no fragment, does not begin with [//] and has no token
    parameter of its own, the callback interceptor of the page reached
    reads back exactly the token that was held, adopts it, and restores
    the address to the one redirectTo was given. *)
Theorem redirectTo_hands_the_token_over (w : world) (t : string) :
  _token w = Some t -> str_truthy t = true ->
  (forall url,
     redirectTo url w
     = (Normal tt,
        emit (ENavigate (url ++ (if includes "?" url then "&" else "?")
                         ++ "token=" ++ encodeURIComponent t)) w))
  /\ (forall (d : world) (o a : string),
        includes "?" o = false ->
        includes "#" a = false ->
        network_path a = false ->
        has_token_key a = false ->
        params_get "token"
          (URLSearchParams (location_search (mkLocation o a))) = None ->
        location d = mkLocation o (handoff_address a t) ->
        redirectTo (o ++ a) w
        = (Normal tt, emit (ENavigate (o ++ handoff_address a t)) w)
        /\ tokenFromUrl d = Some t
        /\ _token (after (_handleCallbackToken JSON_stringify d)) = Some t
        /\ location (after (_handleCallbackToken JSON_stringify d))
           = mkLocation o a).
Proof.
  intros Ht Htt. split.
  - intros url. unfold redirectTo. unfold bind, gets, modify.
    rewrite Ht, Htt. reflexivity.
  - intros d o a Ho Ha _ Hk Hnone Hd.
    exact (handoff_round_trip JSON_stringify w d t o a
             Ht Htt Ho Ha Hk Hnone Hd).
Qed.

End Handoff.

(** ** Further concrete inputs *)


(** A fresh instance over a store that holds the user of an earlier
    session: setToken("T") and getUser() give that user, although the
    server would answer that "T" is not valid. *)
Lemma setToken_then_getUser_returns_the_stored_user_witness :
  _initialized left_over = false
  /\ verdict_of (answering invalid_answer []) = Invalid
  /\ result ((setToken sample_stringify (Some "T") ;;
              getUser sample_stringify sample_parse
                (answering invalid_answer) false None) left_over)
     = Normal sample_user
  /\ fetches (after ((setToken sample_stringify (Some "T") ;;
                      getUser sample_stringify sample_parse
                        (answering invalid_answer) false None) left_over))
     = 0.
Proof.
  split; [reflexivity|]. split; [reflexivity|].
  destruct (setToken_then_getUser_returns_the_stored_user sample_stringify
              sample_parse (answering invalid_answer)
              "T" "{sample user}" sample_user left_over)
    as (Hr & _ & Hf); try reflexivity; try discriminate.
  split; [exact Hr | exact Hf].
Defined.

Lemma setToken_then_getUser_in_a_running_session_witness :
  _initialized cached = true
  /\ result ((setToken sample_stringify (Some "N") ;;
              getUser sample_stringify sample_parse
                (answering invalid_answer) false None) cached)
     = Normal JNull.
Proof.
  split; [reflexivity|].
  exact (proj1 (proj2 (proj2
           (setToken_then_getUser_in_a_running_session sample_stringify
              sample_parse (answering invalid_answer) (Some "N") cached
              eq_refl)))).
Defined.

(** Slots 1 _ 3 4 5 6: typing 2 into the second slot completes the
    code 123456 and verifies nothing. *)
Lemma sixth_digit_outside_last_slot_is_not_verified_witness :
  well_formed (otp_page ["1";"";"3";"4";"5";"6"])
  /\ VerifyOTP.otp
       (VerifyOTP.handleChange sample_stringify wrong_code no_callback
          1 "2" (otp_page ["1";"";"3";"4";"5";"6"]))
     = ["1";"2";"3";"4";"5";"6"]
  /\ VerifyOTP.verify_calls
       (VerifyOTP.effects
          (VerifyOTP.handleChange sample_stringify wrong_code no_callback
             1 "2" (otp_page ["1";"";"3";"4";"5";"6"])))
     = [].
Proof.
  assert (W : well_formed (otp_page ["1";"";"3";"4";"5";"6"]))
    by (split; reflexivity).
  split; [exact W|].
  destruct (sixth_digit_outside_last_slot_is_not_verified sample_stringify
              wrong_code no_callback (otp_page ["1";"";"3";"4";"5";"6"])
              1 "2" W) as (Ho & _ & _ & Hc & _).
  - lia.
  - reflexivity.
  - reflexivity.
  - split; [exact Ho | exact Hc].
Defined.

(** Pasting "123456" into the empty form fills the six slots and
    verifies "123456" once. *)
Lemma full_paste_verifies_once_witness :
  6 <= length (VerifyOTP.digits_of "123456")
  /\ VerifyOTP.verify_calls
       (VerifyOTP.effects
          (VerifyOTP.handlePaste sample_stringify wrong_code no_callback
             "123456" (otp_page ["";"";"";"";"";""])))
     = ["123456"].
Proof.
  split; [simpl; lia|].
  destruct (full_paste_verifies_once sample_stringify wrong_code no_callback
              (otp_page ["";"";"";"";"";""]) "123456")
    as (_ & _ & Hp & _).
  - reflexivity.
  - simpl. lia.
  - exact Hp.
Defined.

(** A caller's [Authorization] is replaced and the request carries
    "Bearer T". *)
Lemma fetch_sets_authorization_witness :
  NoDup [("Accept", "text/html"); ("Authorization", "mine")].*1
  /\ exists init,
       trace (after (fetch offline "https://api.example/me"
                       (mkInit (Some "GET")
                          (Some [("Accept", "text/html");
                                 ("Authorization", "mine")])
                          None)
                       signed_in))
       = [EFetch "https://api.example/me" init]
       /\ headers init
          = Some [("Accept", "text/html"); ("Authorization", "Bearer T")]
       /\ authorization_sent init = Some (Some "Bearer T").
Proof.
  assert (Hnd : NoDup [("Accept", "text/html"); ("Authorization", "mine")].*1).
  { apply (bool_decide_unpack _). vm_compute. exact I. }
  split; [exact Hnd|].
  destruct (fetch_sets_authorization offline "https://api.example/me"
              (mkInit (Some "GET")
                 (Some [("Accept", "text/html"); ("Authorization", "mine")])
                 None)
              signed_in)
    as (init & Htr & _ & _ & Hh & _ & _ & Hsent & _).
  exists init. split; [exact Htr|]. split; [exact Hh|].
  apply (Hsent Hnd eq_refl
           [("Accept", "text/html"); ("Authorization", "Bearer T")]).
  rewrite Hh. reflexivity.
Defined.

Lemma session_methods_never_throw_witness :
  init_stays_home callback_page = true
  /\ exists a w',
       getUser sample_stringify sample_parse offline false None callback_page
       = (Normal a, w')
       /\ _initialized w' = true.
Proof.
  split; [reflexivity|].
  exact (proj1 (proj1 (session_methods_never_throw sample_stringify
                         sample_parse offline false false None None None
                         callback_page) eq_refl)).
Defined.

Lemma init_runs_once_witness :
  init_stays_home callback_page = true
  /\ (init sample_stringify sample_parse ;; init sample_stringify sample_parse)
       callback_page
     = init sample_stringify sample_parse callback_page.
Proof.
  split; [reflexivity|].
  exact (proj1 (init_runs_once sample_stringify sample_parse callback_page
                  eq_refl)).
Defined.

Lemma redirectTo_hands_the_token_over_witness :
  _token signed_in = Some "T"
  /\ network_path "/page?x=1" = false
  /\ handoff_address "/page?x=1" "T" = "/page?x=1&token=T"
  /\ location
       (after (_handleCallbackToken sample_stringify
                 (new_InmapperAuth DEFAULT_CONFIG (working_store ∅)
                    (mkLocation "https://other.example"
                       (handoff_address "/page?x=1" "T")))))
     = mkLocation "https://other.example" "/page?x=1".
Proof.
  split; [reflexivity|]. split; [reflexivity|]. split; [reflexivity|].
  apply (proj2 (redirectTo_hands_the_token_over sample_stringify signed_in
                  "T" eq_refl eq_refl)
           (new_InmapperAuth DEFAULT_CONFIG (working_store ∅)
              (mkLocation "https://other.example"
                 (handoff_address "/page?x=1" "T")))
           "https://other.example" "/page?x=1"); reflexivity.
Defined.

(** ** Where the stated claims fail: the interceptor and the headers *)


(** C10 as stated fails. A caller's [authorization] in small letters is
    not replaced: the request carries both values under the one
    header. With an empty token the value sent is "Bearer", the
    platform trimming the space. *)
Lemma fetch_merges_another_spelling :
  (exists init,
     trace (after (fetch offline "https://api.example/me"
                     (mkInit None (Some [("authorization", "mine")]) None)
                     signed_in))
     = [EFetch "https://api.example/me" init]
     /\ authorization_sent init = Some (Some "mine, Bearer T")
     /\ authorization_sent init <> Some (Some ("Bearer " ++ "T")))
  /\ (exists init,
        trace (after (fetch offline "https://api.example/me"
                        (mkInit None None None)
                        (set_token (Some "") signed_in)))
        = [EFetch "https://api.example/me" init]
        /\ authorization_sent init = Some (Some "Bearer")
        /\ authorization_sent init <> Some (Some ("Bearer " ++ ""))).
Proof.
  split.
  - exists (mkInit None
              (Some [("authorization", "mine"); ("Authorization", "Bearer T")])
              None).
    repeat split; vm_compute; first [reflexivity | discriminate].
  - exists (mkInit None (Some [("Authorization", "Bearer ")]) None).
    repeat split; vm_compute; first [reflexivity | discriminate].
Qed.
